(** * vtk2raw: the array marshalling engine of [vtk2raw.cxx]

    A shallow embedding of [src/vtk2raw.cxx] and [vtk2raw.h]: the command
    line of [main], the dispatch on the file extension, the validation pass
    of [WriteArraysToOutputFile] and the two serializers
    [WriteArraysToASCIIFile] and [WriteArraysToBinaryFile].

    Conventions.
    - C integers are [Z], with the conversions to the unsigned types written
      out ([to_uint], [to_ullong]).  [vtkIdType] is taken 64 bits wide.
    - A [double] is its 64 bits; what [operator<<] prints for it is computed
      from the bits with exact integer arithmetic, as a correctly rounding
      [printf] does in the classic locale.
    - A [char*] is a [string] read up to its first NUL.
    - The process is a state and exit monad [Proc] over the [World] (the two
      console streams and the files); an execution the C++ language gives no
      meaning to (a null pointer dereferenced, a buffer overrun, a read
      outside an array) is the result [Undefined].
    - The host is a POSIX one: a line ends with a line feed, and a file
      opened in text mode is written as one opened in binary mode.
    - VTK's readers are parameters of the program.

    The definitions come first (the C library, the process, the program, then
    the notions of the specification), the proofs after them. *)

From Stdlib Require Import ZArith List Bool Lia.
From Stdlib.Strings Require Import String Ascii Byte.
From Stdlib Require Import DecimalString.
Import ListNotations.

Open Scope Z_scope.

(* ================================================================== *)
(** * Machine integers *)

Definition INT_MAX : Z := 2147483647.
Definition INT_MIN : Z := -2147483648.
(** [vtkIdType] is [long long] on the 64-bit builds of VTK. *)
Definition VTK_ID_MAX : Z := 9223372036854775807.

(** Conversion to [unsigned int]. *)
Definition to_uint (x : Z) : Z := x mod 2 ^ 32.
(** Conversion to [unsigned long long int]. *)
Definition to_ullong (x : Z) : Z := x mod 2 ^ 64.

(* ================================================================== *)
(** * C strings *)

Definition NUL : ascii := "000"%char.

(** The value of a character as [unsigned char]. *)
Definition uchar (c : ascii) : Z := Z.of_N (N_of_ascii c).

(** The string a [char*] points to: the characters before the first NUL. *)
Fixpoint c_str (s : string) : string :=
  match s with
  | EmptyString => EmptyString
  | String c s' => if Ascii.eqb c NUL then EmptyString else String c (c_str s')
  end.

(** [strcmp]: the difference of the first two characters that differ, read as
    [unsigned char], the end of a string counting as NUL. *)
Fixpoint strcmp (a b : string) : Z :=
  match a, b with
  | EmptyString, EmptyString => 0
  | EmptyString, String d _ => 0 - uchar d
  | String c _, EmptyString => uchar c - 0
  | String c a', String d b' =>
      if Ascii.eqb c d
      then if Ascii.eqb c NUL then 0 else strcmp a' b'
      else uchar c - uchar d
  end.

Fixpoint mem_char (c : ascii) (chars : string) : bool :=
  match chars with
  | EmptyString => false
  | String d chars' => Ascii.eqb c d || mem_char c chars'
  end.

Fixpoint find_last_of_from (i : nat) (s chars : string) : option nat :=
  match s with
  | EmptyString => None
  | String c s' =>
      match find_last_of_from (S i) s' chars with
      | Some p => Some p
      | None => if mem_char c chars then Some i else None
      end
  end.

(** [std::string::find_last_of]: the last position holding one of [chars];
    [None] is [std::string::npos]. *)
Definition find_last_of (s chars : string) : option nat :=
  find_last_of_from 0 s chars.

(** [s.substr(pos, std::string::npos)] for [pos <= s.size()]. *)
Definition substr_from (s : string) (pos : nat) : string :=
  substring pos (String.length s - pos) s.

Definition isspace (c : ascii) : bool :=
  let n := uchar c in (n =? 32) || ((9 <=? n) && (n <=? 13)).

Definition digit_value (c : ascii) : option Z :=
  let n := uchar c in
  if (48 <=? n) && (n <=? 57) then Some (n - 48) else None.

Fixpoint skip_spaces (s : string) : string :=
  match s with
  | String c s' => if isspace c then skip_spaces s' else s
  | EmptyString => s
  end.

Fixpoint read_digits (s : string) (acc : Z) : Z :=
  match s with
  | String c s' =>
      match digit_value c with
      | Some d => read_digits s' (10 * acc + d)
      | None => acc
      end
  | EmptyString => acc
  end.

(** [atoi]: white space, an optional sign, then the longest run of decimal
    digits; the rest of the string is ignored and no digits at all read as 0.
    [None] when the number does not fit an [int] (the C standard leaves the
    result undefined). *)
Definition atoi (nptr : string) : option Z :=
  let s := skip_spaces (c_str nptr) in
  let v :=
    match s with
    | String "-"%char s' => - read_digits s' 0
    | String "+"%char s' => read_digits s' 0
    | _ => read_digits s 0
    end in
  if (INT_MIN <=? v) && (v <=? INT_MAX) then Some v else None.

(** Decimal text of an integer, as [operator<<] prints an [int] or an
    [unsigned int]. *)
Definition decimal (n : Z) : string :=
  NilZero.string_of_int (Z.to_int n).

(* ================================================================== *)
(** * Doubles and their text *)

(** A [double] is the 64 bits of its IEEE 754 binary64 representation, read
    as an unsigned integer: bit 63 the sign, bits 62..52 the biased exponent,
    bits 51..0 the fraction. *)
Definition double : Type := Z.

Definition sign_bit (d : double) : bool := Z.testbit d 63.
Definition biased_exponent (d : double) : Z := Z.land (Z.shiftr d 52) 2047.
Definition fraction (d : double) : Z := Z.land d (2 ^ 52 - 1).

Inductive fpclass : Type :=
| FP_ZERO
| FP_INFINITE
| FP_NAN
| FP_FINITE (m e : Z).   (* the magnitude m * 2^e, 0 < m *)

Definition fpclassify (d : double) : fpclass :=
  let E := biased_exponent d in
  let F := fraction d in
  if E =? 2047 then (if F =? 0 then FP_INFINITE else FP_NAN)
  else if E =? 0 then (if F =? 0 then FP_ZERO else FP_FINITE F (-1074))
  else FP_FINITE (2 ^ 52 + F) (E - 1075).

(** Byte order of the host. *)
Inductive endianness : Type := LittleEndian | BigEndian.

Definition byte_of_Z (z : Z) : byte :=
  match Byte.of_N (Z.to_N (z mod 256)) with
  | Some b => b
  | None => x00
  end.

(** The eight bytes of a double, least significant first. *)
Definition le_bytes (d : double) : list byte :=
  map (fun k => byte_of_Z (Z.shiftr d (8 * Z.of_nat k))) (seq 0 8).

(** The object representation [reinterpret_cast<char*>(&Value)] reads. *)
Definition object_bytes (host : endianness) (d : double) : list byte :=
  match host with
  | LittleEndian => le_bytes d
  | BigEndian => rev (le_bytes d)
  end.

(** ** printf's [%.*g], which [operator<<(double)] uses when the stream's
    [floatfield] is unset (classic locale, correctly rounded conversion) *)

Fixpoint count_digits (fuel : nat) (n : Z) : Z :=
  match fuel with
  | O => 1
  | S fuel' => if n <? 10 then 1 else 1 + count_digits fuel' (n / 10)
  end.

(** Number of decimal digits of [n], for [0 < n]. *)
Definition digits10 (n : Z) : Z := count_digits (Z.to_nat (Z.log2 n)) n.

(** The decimal exponent of the positive rational [n/d]: the [X] with
    [10^X <= n/d < 10^(X+1)]. *)
Definition decimal_exponent (n d : Z) : Z :=
  let K := digits10 d in
  digits10 (n * 10 ^ K / d) - 1 - K.

(** [n/d] rounded to the nearest integer, ties to even. *)
Definition round_half_even (n d : Z) : Z :=
  let q := n / d in
  match 2 * (n mod d) ?= d with
  | Lt => q
  | Gt => q + 1
  | Eq => if Z.even q then q else q + 1
  end.

(** [(n/d) * 10^s] rounded to an integer. *)
Definition round_scaled (n d s : Z) : Z :=
  if 0 <=? s then round_half_even (n * 10 ^ s) d
  else round_half_even n (d * 10 ^ (- s)).

(** The [P] significant digits of [n/d] and its decimal exponent after
    rounding: [(D, X)] with [10^(P-1) <= D < 10^P] and [n/d ~ D * 10^(X-P+1)]. *)
Definition significand (P n d : Z) : Z * Z :=
  let X := decimal_exponent n d in
  let D := round_scaled n d (P - 1 - X) in
  if D =? 10 ^ P then (10 ^ (P - 1), X + 1) else (D, X).

Fixpoint strip_zeros (s : string) : string :=
  match s with
  | EmptyString => EmptyString
  | String c s' =>
      match strip_zeros s' with
      | EmptyString => if Ascii.eqb c "0" then EmptyString else String c EmptyString
      | t => String c t
      end
  end.

Fixpoint zeros (n : nat) : string :=
  match n with
  | O => EmptyString
  | S n' => String "0" (zeros n')
  end.

(** Integer part, then the fraction without its trailing zeros, and no
    decimal point when nothing is left of the fraction. *)
Definition with_fraction (int_part frac : string) : string :=
  match strip_zeros frac with
  | EmptyString => int_part
  | f => (int_part ++ "." ++ f)%string
  end.

(** The exponent of style e: a sign and at least two digits. *)
Definition exponent_text (X : Z) : string :=
  ((if (X <? 0)%Z then "e-" else "e+") ++
   (if (Z.abs X <? 10)%Z then "0" else "") ++ decimal (Z.abs X))%string.

(** [%.Pg] of the positive finite magnitude [m * 2^e]. *)
Definition format_g_finite (P m e : Z) : string :=
  let n := if 0 <=? e then m * 2 ^ e else m in
  let d := if 0 <=? e then 1 else 2 ^ (- e) in
  let '(D, X) := significand P n d in
  let ds := decimal D in
  if (X <? -4) || (P <=? X) then
    (with_fraction (substring 0 1 ds) (substring 1 (Z.to_nat (P - 1)) ds)
     ++ exponent_text X)%string
  else if 0 <=? X then
    with_fraction (substring 0 (Z.to_nat (X + 1)) ds)
                  (substring (Z.to_nat (X + 1)) (Z.to_nat (P - 1 - X)) ds)
  else
    with_fraction "0" (zeros (Z.to_nat (- X - 1)) ++ ds)%string.

(** [%.*g] with the stream's precision: 6 when negative, 1 when zero. *)
Definition format_g (precision : Z) (d : double) : string :=
  let P := if precision <? 0 then 6 else if precision =? 0 then 1 else precision in
  ((if sign_bit d then "-" else "") ++
   match fpclassify d with
   | FP_ZERO => "0"
   | FP_INFINITE => "inf"
   | FP_NAN => "nan"
   | FP_FINITE m e => format_g_finite P m e
   end)%string.

(* ================================================================== *)
(** * The process: console, files, [exit] *)

Record World : Type := mkWorld {
  cout : string;                           (* written to standard output *)
  cerr : string;                           (* written to standard error *)
  disk : string -> option (list byte);     (* the content of each file *)
  creatable : string -> bool               (* can the path be opened for writing *)
}.

Inductive result (A : Type) : Type :=
| Returns (a : A)          (* the call returns [a] *)
| Exits (status : Z)       (* [exit(status)] ended the process *)
| Undefined.               (* the execution has no meaning in C++ *)

Arguments Returns {A} a.
Arguments Exits {A} status.
Arguments Undefined {A}.

Definition Proc (A : Type) : Type := World -> result A * World.

Definition ret {A : Type} (a : A) : Proc A := fun w => (Returns a, w).

Definition bind {A B : Type} (m : Proc A) (k : A -> Proc B) : Proc B :=
  fun w =>
    match m w with
    | (Returns a, w') => k a w'
    | (Exits status, w') => (Exits status, w')
    | (Undefined, w') => (Undefined, w')
    end.

Definition exit {A : Type} (status : Z) : Proc A := fun w => (Exits status, w).

Definition undefined {A : Type} : Proc A := fun w => (Undefined, w).

Notation "x <- m ;; k" := (bind m (fun x => k))
  (at level 61, m at next level, right associativity).
Notation "m ;; k" := (bind m (fun _ => k))
  (at level 61, right associativity).

(** [std::endl] on a stream of a POSIX host: a line feed. *)
Definition endl : string := String "010" EmptyString.

Definition cout_append (s : string) (w : World) : World :=
  mkWorld (cout w ++ s)%string (cerr w) (disk w) (creatable w).

Definition cerr_append (s : string) (w : World) : World :=
  mkWorld (cout w) (cerr w ++ s)%string (disk w) (creatable w).

(** [std::cout << s] *)
Definition cout_put (s : string) : Proc unit :=
  fun w => (Returns tt, cout_append s w).

(** [std::cerr << s] *)
Definition cerr_put (s : string) : Proc unit :=
  fun w => (Returns tt, cerr_append s w).

Definition store_file (path : string) (data : list byte)
    (d : string -> option (list byte)) : string -> option (list byte) :=
  fun q => if String.eqb q path then Some data else d q.

(** The value a null pointer has no object behind. *)
Definition deref {A : Type} (p : option A) : Proc A :=
  match p with
  | Some a => ret a
  | None => undefined
  end.

(** Element [i] of an array of known extent. *)
Definition load {A : Type} (l : list A) (i : Z) : Proc A :=
  if i <? 0 then undefined else deref (nth_error l (Z.to_nat i)).

(** [strcpy] into a buffer of [size] chars: the source and its NUL must fit. *)
Definition strcpy (size : Z) (src : string) : Proc string :=
  if Z.of_nat (String.length (c_str src)) <? size
  then ret (c_str src)
  else undefined.

Fixpoint for_loop {S : Type} (n : nat) (i : Z) (body : Z -> S -> Proc S)
    (s : S) : Proc S :=
  match n with
  | O => ret s
  | Datatypes.S n' => s' <- body i s ;; for_loop n' (i + 1) body s'
  end.

(** [for (i = 0; i < bound; i++) body], the body leaving [i] and [bound]
    alone; [s] is what the body updates. *)
Definition for_upto {S : Type} (bound : Z) (body : Z -> S -> Proc S)
    (s : S) : Proc S :=
  for_loop (Z.to_nat bound) 0 body s.

(* ================================================================== *)
(** * [std::ofstream] *)

Record ofstream : Type := mkStream {
  file : option string;     (* the path of the file it is open on *)
  precision : Z;            (* [ios_base::precision()] *)
  written : list byte       (* what went to the file since it was opened *)
}.

(** A default-constructed stream. *)
Definition closed_stream : ofstream := mkStream None 6 [].

Definition is_open (os : ofstream) : bool :=
  match file os with Some _ => true | None => false end.

Definition file_stored (path : string) (data : list byte) (w : World) : World :=
  mkWorld (cout w) (cerr w) (store_file path data (disk w)) (creatable w).

(** [os.open(path)] and [os.open(path, std::ios::binary)]: the file is created
    or truncated.  On a POSIX host the two modes do not differ. *)
Definition stream_open (os : ofstream) (path : string) (binary : bool) : Proc ofstream :=
  fun w =>
    if creatable w (c_str path)
    then (Returns (mkStream (Some (c_str path)) (precision os) []),
          file_stored (c_str path) [] w)
    else (Returns os, w).

(** Characters sent to the stream; a stream that is not open drops them. *)
Definition stream_write (os : ofstream) (data : list byte) : ofstream :=
  if is_open os
  then mkStream (file os) (precision os) (written os ++ data)
  else os.

(** [os << std::setprecision(n)] *)
Definition setprecision (n : Z) (os : ofstream) : ofstream :=
  mkStream (file os) n (written os).

(** [os << s] *)
Definition put_string (os : ofstream) (s : string) : ofstream :=
  stream_write os (list_byte_of_string s).

(** [os << v] for a [double] *)
Definition put_double (os : ofstream) (v : double) : ofstream :=
  put_string os (format_g (precision os) v).

(** [os << std::endl] *)
Definition put_endl (os : ofstream) : ofstream := put_string os endl.

(** [os.close()] *)
Definition stream_close (os : ofstream) : Proc ofstream :=
  fun w =>
    match file os with
    | Some path =>
        (Returns (mkStream None (precision os) (written os)),
         file_stored path (written os) w)
    | None => (Returns os, w)
    end.

(* ================================================================== *)
(** * VTK's arrays *)

Record vtkDataArray : Type := mkArray {
  Name : string;               (* [GetName()], taken not to be NULL *)
  NumberOfComponents : Z;      (* [GetNumberOfComponents()], an [int] *)
  NumberOfTuples : Z;          (* [GetNumberOfTuples()], a [vtkIdType] *)
  Component : Z -> Z -> double (* the value at (tuple, component) *)
}.

(** The arrays of a [vtkPointData]; a slot is [None] when [GetArray] returns
    NULL for it (the array is not a [vtkDataArray]). *)
Definition vtkPointData : Type := list (option vtkDataArray).

Definition GetNumberOfArrays (pd : vtkPointData) : Z :=
  Z.of_nat (List.length pd).

Definition GetArray (pd : vtkPointData) (i : Z) : option vtkDataArray :=
  if i <? 0 then None else nth (Z.to_nat i) pd None.

(** [a->GetComponent(i, j)]: a read inside the array's storage. *)
Definition GetComponent (a : vtkDataArray) (i j : Z) : Proc double :=
  if (0 <=? i) && (i <? NumberOfTuples a) && (0 <=? j) && (j <? NumberOfComponents a)
  then ret (Component a i j)
  else undefined.

(* ================================================================== *)
(** * The program *)

Definition CHAR_LENGTH : Z := 256.
Definition DECIMAL_PRECISION : Z := 16.
Definition EXIT_SUCCESS : Z := 0.

Inductive InputFileType : Type :=
| VTK
| VTI
| VTP
| VTU
| NUMBER_OF_INPUT_FILE_TYPES.

Section Program.

(** The byte order of the host the program runs on. *)
Variable host : endianness.

(** VTK's readers, one per format: the point data of the data set read from
    the named file ([SetFileName], [Update], [GetOutput()->GetPointData()]). *)
Variable StructuredPointsReader : string -> Proc vtkPointData.
Variable XMLImageDataReader : string -> Proc vtkPointData.
Variable XMLPolyDataReader : string -> Proc vtkPointData.
Variable XMLUnstructuredGridReader : string -> Proc vtkPointData.

(** ** Write Arrays To ASCII File *)

Definition WriteArraysToASCIIFile (OutputFile : ofstream)
    (InputDataArrays : list (option vtkDataArray)) (NumberOfArrays : Z)
    (NumberOfComponentsInEachArray : list Z) : Proc ofstream :=
  cout_put "Write to binary file." ;; cout_put endl ;;
  let Delimiter := String "009" EmptyString in
  p0 <- load InputDataArrays 0 ;;
  a0 <- deref p0 ;;
  let NumberOfTuples := to_ullong (NumberOfTuples a0) in
  for_upto NumberOfTuples (fun TupleIterator OutputFile =>
    OutputFile <-
      for_upto NumberOfArrays (fun ArrayIterator OutputFile =>
        n <- load NumberOfComponentsInEachArray ArrayIterator ;;
        OutputFile <-
          for_upto n (fun ComponentIterator OutputFile =>
            p <- load InputDataArrays ArrayIterator ;;
            a <- deref p ;;
            v <- GetComponent a TupleIterator ComponentIterator ;;
            let OutputFile := put_double OutputFile v in
            if ComponentIterator <? to_uint (n - 1)
            then ret (put_string OutputFile Delimiter)
            else ret OutputFile) OutputFile ;;
        if ArrayIterator <? to_uint (NumberOfArrays - 1)
        then ret (put_string OutputFile Delimiter)
        else ret OutputFile) OutputFile ;;
    if TupleIterator <? to_ullong (NumberOfTuples - 1)
    then ret (put_endl OutputFile)
    else ret OutputFile) OutputFile.

(** ** Write Arrays To Binary File *)

(** [OutputFile.write(reinterpret_cast<char*>(&Value), sizeof(Value))] *)
Definition write_double (os : ofstream) (Value : double) : ofstream :=
  stream_write os (object_bytes host Value).

Definition WriteArraysToBinaryFile (OutputFile : ofstream)
    (InputDataArrays : list (option vtkDataArray)) (NumberOfArrays : Z)
    (NumberOfComponentsInEachArray : list Z) : Proc ofstream :=
  cout_put "Write to binary file." ;; cout_put endl ;;
  p0 <- load InputDataArrays 0 ;;
  a0 <- deref p0 ;;
  let NumberOfTuples := to_ullong (NumberOfTuples a0) in
  for_upto NumberOfTuples (fun TupleIterator OutputFile =>
    for_upto NumberOfArrays (fun ArrayIterator OutputFile =>
      n <- load NumberOfComponentsInEachArray ArrayIterator ;;
      for_upto n (fun ComponentIterator OutputFile =>
        p <- load InputDataArrays ArrayIterator ;;
        a <- deref p ;;
        Value <- GetComponent a TupleIterator ComponentIterator ;;
        ret (write_double OutputFile Value)) OutputFile) OutputFile) OutputFile.

(** ** Open File *)

Definition OpenFile (OutputFilename : string) (BinaryOutputFile : bool)
    (OutputFile : ofstream) : Proc ofstream :=
  OutputFile <-
    (if negb BinaryOutputFile
     then stream_open OutputFile OutputFilename false
     else stream_open OutputFile OutputFilename true) ;;
  if negb (is_open OutputFile)
  then
    cerr_put "Can not open output file: " ;;
    cerr_put (c_str OutputFilename) ;; cerr_put endl ;;
    exit 1
  else ret (setprecision DECIMAL_PRECISION OutputFile).

(** ** Write Arrays To Output File *)

(** The locals the first loop of [WriteArraysToOutputFile] fills, slot
    [ArrayIterator] at iteration [ArrayIterator]: each list holds the slots
    assigned so far. *)
Record ArrayTable : Type := mkTable {
  InputDataArrays : list (option vtkDataArray);
  NumberOfComponentsInEachArray : list Z;       (* unsigned int *)
  NumberOfTuplesInEachArray : list Z;           (* unsigned int *)
  ColumnCounter : Z                             (* unsigned int *)
}.

(** The body of the loop over the arrays, at iteration [ArrayIterator]. *)
Definition ScanArray (InputPointData : vtkPointData) (ArrayIterator : Z)
    (t : ArrayTable) : Proc ArrayTable :=
  let p := GetArray InputPointData ArrayIterator in
  let InputDataArrays := InputDataArrays t ++ [p] in
  (match p with
   | None =>
       cerr_put "Array " ;; cerr_put (decimal ArrayIterator) ;;
       cerr_put " is NULL." ;; cerr_put endl
   | Some _ => ret tt
   end) ;;
  a <- deref p ;;
  let NumberOfComponentsInEachArray :=
    NumberOfComponentsInEachArray t ++ [to_uint (NumberOfComponents a)] in
  let NumberOfTuplesInEachArray :=
    NumberOfTuplesInEachArray t ++ [to_uint (NumberOfTuples a)] in
  (if 0 <? ArrayIterator
   then
     here <- load NumberOfTuplesInEachArray ArrayIterator ;;
     first <- load NumberOfTuplesInEachArray 0 ;;
     if negb (here =? first)
     then
       cerr_put "Inconsistent file: " ;;
       cerr_put "number of tuples in arrays are not the same." ;;
       cerr_put endl ;;
       exit 1
     else ret tt
   else ret tt) ;;
  n <- load NumberOfComponentsInEachArray ArrayIterator ;;
  let ColumnCounter := to_uint (ColumnCounter t + n) in
  m <- load NumberOfTuplesInEachArray ArrayIterator ;;
  cout_put "Array: " ;; cout_put (decimal ArrayIterator) ;;
  cout_put ", NumberOfComponents: " ;; cout_put (decimal n) ;;
  cout_put ", NumberOfTuples: " ;; cout_put (decimal m) ;;
  cout_put ", ArrayName: " ;; cout_put (c_str (Name a)) ;;
  cout_put endl ;;
  ret (mkTable InputDataArrays NumberOfComponentsInEachArray
               NumberOfTuplesInEachArray ColumnCounter).

Definition WriteArraysToOutputFile (InputPointData : vtkPointData)
    (OutputFilename : string) (BinaryOutputFile : bool) : Proc unit :=
  let NumberOfArrays := GetNumberOfArrays InputPointData in
  (if NumberOfArrays <? 1
   then cerr_put "DataSet has no array." ;; cerr_put endl ;; exit 1
   else ret tt) ;;
  t <- for_upto (to_uint NumberOfArrays) (ScanArray InputPointData)
         (mkTable [] [] [] 0) ;;
  OutputFile <- OpenFile OutputFilename BinaryOutputFile closed_stream ;;
  OutputFile <-
    (if negb BinaryOutputFile
     then WriteArraysToASCIIFile OutputFile (InputDataArrays t)
            (to_uint NumberOfArrays) (NumberOfComponentsInEachArray t)
     else WriteArraysToBinaryFile OutputFile (InputDataArrays t)
            (to_uint NumberOfArrays) (NumberOfComponentsInEachArray t)) ;;
  cout_put (decimal NumberOfArrays) ;;
  cout_put " arrays in column-wise order as above were written to: " ;;
  cout_put (c_str OutputFilename) ;; cout_put "." ;; cout_put endl ;;
  rows <- load (NumberOfTuplesInEachArray t) 0 ;;
  cout_put "Rows: " ;; cout_put (decimal rows) ;;
  cout_put ", Columns: " ;; cout_put (decimal (ColumnCounter t)) ;;
  cout_put "." ;; cout_put endl ;;
  _ <- stream_close OutputFile ;;
  ret tt.

(** ** The four readers *)

Definition ReadVTKInputFileWriteToOutputFile (InputFilename OutputFilename : string)
    (BinaryOutputFile : bool) : Proc unit :=
  InputPointData <- StructuredPointsReader InputFilename ;;
  WriteArraysToOutputFile InputPointData OutputFilename BinaryOutputFile.

Definition ReadVTIInputFileWriteToOutputFile (InputFilename OutputFilename : string)
    (BinaryOutputFile : bool) : Proc unit :=
  InputPointData <- XMLImageDataReader InputFilename ;;
  WriteArraysToOutputFile InputPointData OutputFilename BinaryOutputFile.

Definition ReadVTPInputFileWriteToOutputFile (InputFilename OutputFilename : string)
    (BinaryOutputFile : bool) : Proc unit :=
  InputPointData <- XMLPolyDataReader InputFilename ;;
  WriteArraysToOutputFile InputPointData OutputFilename BinaryOutputFile.

Definition ReadVTUInputFileWriteToOutputFile (InputFilename OutputFilename : string)
    (BinaryOutputFile : bool) : Proc unit :=
  InputPointData <- XMLUnstructuredGridReader InputFilename ;;
  WriteArraysToOutputFile InputPointData OutputFilename BinaryOutputFile.

(** ** Determine Input File Type *)

Definition DetermineInputFileType (InputFilename : string) : Proc InputFileType :=
  let InputFilenameString := c_str InputFilename in
  FileExtension <-
    match find_last_of InputFilenameString "." with
    | Some FoundLastDot =>
        let FileExtensionString :=
          substr_from InputFilenameString (FoundLastDot + 1) in
        strcpy CHAR_LENGTH FileExtensionString
    | None =>
        cerr_put "No file extension found in the Input filename." ;;
        cerr_put endl ;;
        exit 1
    end ;;
  if strcmp FileExtension "vtk" =? 0 then ret VTK
  else if strcmp FileExtension "vti" =? 0 then ret VTI
  else if negb (strcmp FileExtension "VTP" =? 0) then ret VTP
  else if negb (strcmp FileExtension "VTU" =? 0) then ret VTU
  else
    cerr_put "No valid input file extension found." ;; cerr_put endl ;;
    exit 1.

(** ** Read DataSet Write To Output *)

Definition ReadDataSetWriteToOutput (InputFilename OutputFilename : string)
    (BinaryOutputFile : bool) : Proc unit :=
  InputFile <- DetermineInputFileType InputFilename ;;
  match InputFile with
  | VTK => ReadVTKInputFileWriteToOutputFile InputFilename OutputFilename BinaryOutputFile
  | VTI => ReadVTIInputFileWriteToOutputFile InputFilename OutputFilename BinaryOutputFile
  | VTP => ReadVTPInputFileWriteToOutputFile InputFilename OutputFilename BinaryOutputFile
  | VTU => ReadVTUInputFileWriteToOutputFile InputFilename OutputFilename BinaryOutputFile
  | NUMBER_OF_INPUT_FILE_TYPES =>
      cerr_put "Invalid input file type." ;; cerr_put endl ;; exit 1
  end.

(** ** Print Usage *)

Definition PrintUsage (ExecutableName : string) : Proc unit :=
  cerr_put "Usage: " ;; cerr_put (c_str ExecutableName) ;;
  cerr_put "  InputFileName.vtk  OutputFileName.raw  BinaryOutputFile" ;;
  cerr_put endl ;;
  cerr_put "BinaryOutputFile is optional, it can be either 0 or 1." ;;
  cerr_put endl.

(** ** Main *)

Definition main (argv : list string) : Proc Z :=
  let argc := Z.of_nat (List.length argv) in
  (if argc <? 3
   then ExecutableName <- load argv 0 ;; PrintUsage ExecutableName ;; exit 0
   else ret tt) ;;
  BinaryOutputFile <-
    (if argc =? 4
     then
       arg <- load argv 3 ;;
       BinaryOutputFileInt <- deref (atoi arg) ;;
       if negb (BinaryOutputFileInt =? 0) && negb (BinaryOutputFileInt =? 1)
       then
         cerr_put "Binary option should be either 0 or 1." ;; cerr_put endl ;;
         exit 1
       else ret (negb (BinaryOutputFileInt =? 0))
     else ret false) ;;
  InputFilename <- load argv 1 ;;
  OutputFilename <- load argv 2 ;;
  ReadDataSetWriteToOutput InputFilename OutputFilename BinaryOutputFile ;;
  ret EXIT_SUCCESS.

End Program.

(** The serializer the driver calls for a mode, with the arguments it passes
    after the arrays [arrays] went through the first loop. *)
Definition serializer (host : endianness) (BinaryOutputFile : bool)
    (arrays : list vtkDataArray) (OutputFile : ofstream) : Proc ofstream :=
  if negb BinaryOutputFile
  then WriteArraysToASCIIFile OutputFile (map Some arrays)
         (Z.of_nat (List.length arrays))
         (map (fun a => to_uint (NumberOfComponents a)) arrays)
  else WriteArraysToBinaryFile host OutputFile (map Some arrays)
         (Z.of_nat (List.length arrays))
         (map (fun a => to_uint (NumberOfComponents a)) arrays).

(* ================================================================== *)
(** * The output matrix and its two renderings, in the words of the
      specification *)

Fixpoint Zseq (start : Z) (len : nat) : list Z :=
  match len with
  | O => []
  | S len' => start :: Zseq (start + 1) len'
  end.

(** The values of tuple [r] of one array, in component order. *)
Definition tuple_values (a : vtkDataArray) (r : Z) : list double :=
  map (Component a r) (Zseq 0 (Z.to_nat (NumberOfComponents a))).

(** Row [r] of the output matrix: the tuples of the arrays, in array order. *)
Definition row_values (arrays : list vtkDataArray) (r : Z) : list double :=
  flat_map (fun a => tuple_values a r) arrays.

(** The output matrix of [m] rows. *)
Definition OutputMatrix (arrays : list vtkDataArray) (m : Z) : list (list double) :=
  map (row_values arrays) (Zseq 0 (Z.to_nat m)).

Definition totalComponents (arrays : list vtkDataArray) : Z :=
  fold_right (fun a s => NumberOfComponents a + s) 0 arrays.

(** [parts] with [sep] between every two neighbours. *)
Fixpoint join {A : Type} (sep : list A) (parts : list (list A)) : list A :=
  match parts with
  | [] => []
  | p :: rest =>
      match rest with
      | [] => p
      | _ :: _ => p ++ sep ++ join sep rest
      end
  end.

Definition TAB : byte := x09.
Definition LF : byte := x0a.

(** The characters [os << v] sends for a double at precision [P]. *)
Definition field_text (P : Z) (v : double) : list byte :=
  list_byte_of_string (format_g P v).

Definition line_text (P : Z) (row : list double) : list byte :=
  join [TAB] (map (field_text P) row).

Definition text_of_matrix (P : Z) (rows : list (list double)) : list byte :=
  join [LF] (map (line_text P) rows).

Definition binary_of_matrix (host : endianness) (rows : list (list double)) : list byte :=
  flat_map (object_bytes host) (List.concat rows).

(** A character a number is printed with is neither a tab nor a line feed. *)
Definition field_char (c : ascii) : bool :=
  negb (Ascii.eqb c "009") && negb (Ascii.eqb c "010").

Fixpoint all_chars (P : ascii -> bool) (s : string) : bool :=
  match s with
  | EmptyString => true
  | String c s' => P c && all_chars P s'
  end.

(** What a reader of the text file sees: the pieces between separators. *)
Fixpoint split_on (sep : byte) (s : list byte) : list (list byte) :=
  match s with
  | [] => [[]]
  | c :: s' =>
      if Byte.eqb c sep then [] :: split_on sep s'
      else
        match split_on sep s' with
        | [] => [[c]]
        | p :: ps => (c :: p) :: ps
        end
  end.

Definition count_byte (b : byte) (s : list byte) : nat :=
  List.length (filter (Byte.eqb b) s).

(** What a reader of the binary file sees: the doubles of consecutive groups
    of eight bytes. *)
Definition Z_of_le_bytes (bs : list byte) : Z :=
  fold_right (fun b acc => Z.of_N (Byte.to_N b) + 256 * acc) 0 bs.

Definition double_of_bytes (host : endianness) (bs : list byte) : double :=
  match host with
  | LittleEndian => Z_of_le_bytes bs
  | BigEndian => Z_of_le_bytes (rev bs)
  end.

Fixpoint read_doubles (host : endianness) (count : nat) (s : list byte) : list double :=
  match count with
  | O => []
  | S count' => double_of_bytes host (firstn 8 s) :: read_doubles host count' (skipn 8 s)
  end.

(** Cut a sequence of values into rows of [n]. *)
Fixpoint rows_of {A : Type} (n : nat) (count : nat) (vs : list A) : list (list A) :=
  match count with
  | O => []
  | S count' => firstn n vs :: rows_of n count' (skipn n vs)
  end.

(** ** What the first loop of [WriteArraysToOutputFile] computes *)

(** The tables after the arrays [arrays] have been scanned. *)
Definition table_of (arrays : list vtkDataArray) : ArrayTable :=
  mkTable (map Some arrays)
          (map (fun a => to_uint (NumberOfComponents a)) arrays)
          (map (fun a => to_uint (NumberOfTuples a)) arrays)
          (fold_left (fun c a => to_uint (c + to_uint (NumberOfComponents a))) arrays 0).

(** The tuple count the loop compares with: the first array's, as an
    [unsigned int]. *)
Definition first_count (arrays : list vtkDataArray) : Z :=
  match arrays with
  | [] => 0
  | a :: _ => to_uint (NumberOfTuples a)
  end.

(** Every tuple count is, as an [unsigned int], the first array's. *)
Definition counts_agree (arrays : list vtkDataArray) : Prop :=
  Forall (fun a => to_uint (NumberOfTuples a) = first_count arrays) arrays.

(** The worlds differ in what was written to standard output only. *)
Definition only_cout (w w' : World) : Prop :=
  cerr w' = cerr w /\ disk w' = disk w /\ creatable w' = creatable w.

(** ** Inputs the engine is meant for *)

(** An array as VTK hands it out: at least one component, a tuple count that
    is not negative, each within its C type, and 64-bit values. *)
Definition well_formed (a : vtkDataArray) : Prop :=
  1 <= NumberOfComponents a <= INT_MAX /\
  0 <= NumberOfTuples a <= VTK_ID_MAX /\
  forall i j, 0 <= Component a i j < 2 ^ 64.

(** A valid ArraySet of row count [m]: at least one array, every array well
    formed and of [m] tuples. *)
Definition valid_set (arrays : list vtkDataArray) (m : Z) : Prop :=
  arrays <> [] /\
  Z.of_nat (List.length arrays) <= INT_MAX /\
  Forall (fun a => well_formed a /\ NumberOfTuples a = m) arrays.

(* ================================================================== *)
(** * Sample inputs *)

(** An array given by its tuples. *)
Definition array_of_tuples (name : string) (components : Z)
    (tuples : list (list double)) : vtkDataArray :=
  mkArray name components (Z.of_nat (List.length tuples))
          (fun i j => nth (Z.to_nat j) (nth (Z.to_nat i) tuples []) 0).

(** 1.0 to 6.0 *)
Definition dbl_1 : double := 0x3FF0000000000000.
Definition dbl_2 : double := 0x4000000000000000.
Definition dbl_3 : double := 0x4008000000000000.
Definition dbl_4 : double := 0x4010000000000000.
Definition dbl_5 : double := 0x4014000000000000.
Definition dbl_6 : double := 0x4018000000000000.

(** A = [[1,2],[3,4]] and B = [[5],[6]] *)
Definition ArrayA : vtkDataArray :=
  array_of_tuples "A" 2 [[dbl_1; dbl_2]; [dbl_3; dbl_4]].
Definition ArrayB : vtkDataArray :=
  array_of_tuples "B" 1 [[dbl_5]; [dbl_6]].

(** 0.3, and the next double above it, 0.30000000000000004 *)
Definition dbl_03 : double := 0x3FD3333333333333.
Definition dbl_03_next : double := 0x3FD3333333333334.

Definition ArrayX : vtkDataArray := array_of_tuples "X" 1 [[dbl_03]].
Definition ArrayY : vtkDataArray := array_of_tuples "Y" 1 [[dbl_03_next]].

(** An array without tuples, and one of 2^32 tuples. *)
Definition ArrayNone : vtkDataArray := mkArray "none" 1 0 (fun _ _ => 0).
Definition ArrayHuge : vtkDataArray := mkArray "huge" 1 4294967296 (fun _ _ => 0).


(** Arrays of five and of three tuples. *)
Definition ArrayFive : vtkDataArray := mkArray "five" 1 5 (fun _ _ => dbl_1).
Definition ArrayThree : vtkDataArray := mkArray "three" 1 3 (fun _ _ => dbl_1).

(** Nothing on the console, no file, every path can be created. *)
Definition fresh_world : World :=
  mkWorld EmptyString EmptyString (fun _ => None) (fun _ => true).

(** The console has been used and the output file exists already. *)
Definition used_world : World :=
  mkWorld "earlier output" "earlier errors"
          (fun q => if String.eqb q "out.raw" then Some [x41; x42] else None)
          (fun _ => true).

(** No file can be created. *)
Definition read_only_world : World :=
  mkWorld EmptyString EmptyString (fun _ => None) (fun _ => false).

(** A reader that yields the arrays A and B whatever the file. *)
Definition sample_reader : string -> Proc vtkPointData :=
  fun _ => ret [Some ArrayA; Some ArrayB].

(** The content of the output file after a conversion of [arrays] that starts
    in [fresh_world]. *)
Definition converted (host : endianness) (arrays : list vtkDataArray)
    (BinaryOutputFile : bool) : option (list byte) :=
  disk (snd (WriteArraysToOutputFile host (map Some arrays) "out.raw"
               BinaryOutputFile fresh_world)) "out.raw".

(** The binary file read as [m] rows of [n] doubles. *)
Definition read_matrix (host : endianness) (n m : Z) (data : list byte) : list (list double) :=
  rows_of (Z.to_nat n) (Z.to_nat m) (read_doubles host (Z.to_nat (m * n)) data).

(* ================================================================== *)
(** * Notions the statements use *)

(** The bytes the conversion leaves in the output file for a valid set. *)
Definition expected_output (host : endianness) (mode : bool)
    (arrays : list vtkDataArray) (m : Z) : list byte :=
  if mode
  then binary_of_matrix host (OutputMatrix arrays m)
  else text_of_matrix DECIMAL_PRECISION (OutputMatrix arrays m).

(** Two runs of a computation, started in worlds related by [R]: they end the
    same way, with the same value and in worlds related by [R'] when they
    return. *)
Definition alike {A : Type} (R R' : World -> World -> Prop) (m : Proc A) : Prop :=
  forall w1 w2, R w1 w2 ->
    match m w1, m w2 with
    | (Returns a1, w1'), (Returns a2, w2') => a1 = a2 /\ R' w1' w2'
    | (Exits s1, _), (Exits s2, _) => s1 = s2
    | (Undefined, _), (Undefined, _) => True
    | _, _ => False
    end.

(** A relation that does not look at the console. *)
Definition console_blind (R : World -> World -> Prop) : Prop :=
  forall w1 w2, R w1 w2 ->
    forall s, R (cout_append s w1) (cout_append s w2) /\
              R (cerr_append s w1) (cerr_append s w2).

(** The two worlds give the same answer when the program opens [p]. *)
Definition same_access (p : string) (w1 w2 : World) : Prop :=
  creatable w1 p = creatable w2 p.

(** ... and [p] holds the same bytes in both. *)
Definition same_file (p : string) (w1 w2 : World) : Prop :=
  creatable w1 p = creatable w2 p /\ disk w1 p = disk w2 p.

(** What [PrintUsage] leaves on standard error. *)
Definition usage_printed (ExecutableName : string) (w : World) : World :=
  cerr_append endl
    (cerr_append "BinaryOutputFile is optional, it can be either 0 or 1."
       (cerr_append endl
          (cerr_append "  InputFileName.vtk  OutputFileName.raw  BinaryOutputFile"
             (cerr_append (c_str ExecutableName) (cerr_append "Usage: " w))))).

(** ** Notions of the further properties *)

(** The ways a computation can end, seen from the world it started in:
    [Pret] relates the two worlds when it returns, [Pexit] when it calls
    [exit]; nothing is said of an execution without meaning. *)
Definition outcome {A : Type} (Pret : World -> World -> Prop)
    (Pexit : Z -> World -> World -> Prop) (p : Proc A) : Prop :=
  forall w,
    match p w with
    | (Returns _, w') => Pret w w'
    | (Exits status, w') => Pexit status w w'
    | (Undefined, _) => True
    end.

(** No call of [exit]. *)
Definition never : Z -> World -> World -> Prop := fun _ _ _ => False.

(** Any world. *)
Definition anywhere : World -> World -> Prop := fun _ _ => True.

(** The error exits of [WriteArraysToOutputFile]: status 1, one message on
    standard error, the files as they were. *)
Definition error_exit (OutputFilename : string) (status : Z) (w w' : World) : Prop :=
  status = 1 /\ disk w' = disk w /\ creatable w' = creatable w /\
  exists message,
    cerr w' = (cerr w ++ message ++ endl)%string /\
    (message = "DataSet has no array."%string \/
     message = "Inconsistent file: number of tuples in arrays are not the same."%string \/
     message = ("Can not open output file: " ++ c_str OutputFilename)%string).

(** No dot in the string. *)
Definition no_dot (s : string) : bool :=
  all_chars (fun c => negb (Ascii.eqb c ".")) s.

(** The reader [ReadDataSetWriteToOutput] ends up calling for a file whose
    extension is [ext]. *)
Definition reader_for (rVTK rVTI rVTP rVTU : string -> Proc vtkPointData)
    (ext : string) : string -> Proc vtkPointData :=
  if String.eqb ext "vtk" then rVTK
  else if String.eqb ext "vti" then rVTI
  else if String.eqb ext "VTP" then rVTU
  else rVTP.

(** The mode [main] takes from the arguments after the two file names;
    [None] when it does not go on to the conversion. *)
Definition mode_of_flags (flags : list string) : option bool :=
  match flags with
  | [flag] =>
      match atoi flag with
      | Some 0 => Some false
      | Some 1 => Some true
      | _ => None
      end
  | _ => Some false
  end.

(** A reader that finds no array. *)
Definition empty_reader : string -> Proc vtkPointData := fun _ => ret [].

(** The line the validation loop prints for array [i]; the two counts are
    printed from the [unsigned int] tables. *)
Definition array_line (i : Z) (a : vtkDataArray) : string :=
  ("Array: " ++ decimal i
   ++ ", NumberOfComponents: " ++ decimal (to_uint (NumberOfComponents a))
   ++ ", NumberOfTuples: " ++ decimal (to_uint (NumberOfTuples a))
   ++ ", ArrayName: " ++ c_str (Name a) ++ endl)%string.

Fixpoint array_lines (i : Z) (arrays : list vtkDataArray) : string :=
  match arrays with
  | [] => EmptyString
  | a :: rest => (array_line i a ++ array_lines (i + 1) rest)%string
  end.

(** Standard output of a conversion of [arrays], of [m] tuples each, to
    [OutputFilename]. *)
Definition console_log (arrays : list vtkDataArray) (m : Z) (OutputFilename : string) : string :=
  (array_lines 0 arrays
   ++ "Write to binary file." ++ endl
   ++ decimal (Z.of_nat (List.length arrays))
   ++ " arrays in column-wise order as above were written to: "
   ++ c_str OutputFilename ++ "." ++ endl
   ++ "Rows: " ++ decimal (to_uint m)
   ++ ", Columns: " ++ decimal (to_uint (totalComponents arrays)) ++ "." ++ endl)%string.

(** The array [a] with the tuples of [b] after its own. *)
Definition append_tuples (a b : vtkDataArray) : vtkDataArray :=
  mkArray (Name a) (NumberOfComponents a) (NumberOfTuples a + NumberOfTuples b)
          (fun i j =>
             if i <? NumberOfTuples a then Component a i j
             else Component b (i - NumberOfTuples a) j).

(** Two sets of arrays put end to end, array by array. *)
Fixpoint append_sets (s1 s2 : list vtkDataArray) : list vtkDataArray :=
  match s1, s2 with
  | a :: r1, b :: r2 => append_tuples a b :: append_sets r1 r2
  | _, _ => []
  end.

(** The bytes of each of the first [count] groups of eight, reversed. *)
Fixpoint swap_doubles (count : nat) (s : list byte) : list byte :=
  match count with
  | O => []
  | S count' => rev (firstn 8 s) ++ swap_doubles count' (skipn 8 s)
  end.

(** A computation on a stream that, when it returns, hands back a stream
    open on [f] and has written to standard output only. *)
Definition keeps_file (f : option string) (p : Proc ofstream) : Prop :=
  forall w,
    match p w with
    | (Returns os, w') => file os = f /\ only_cout w w'
    | _ => True
    end.

(* ================================================================== *)
(* ================================================================== *)
(** * Proofs *)

(* ================================================================== *)
(** * Lists: [Zseq], [join], [split_on] *)

Lemma Zseq_length (k : nat) : forall i, List.length (Zseq i k) = k.
Proof. induction k as [|k IH]; intros i; simpl; [reflexivity | now rewrite IH]. Qed.

Lemma Zseq_nth (k : nat) : forall i (j : nat) d,
  (j < k)%nat -> nth j (Zseq i k) d = i + Z.of_nat j.
Proof.
  induction k as [|k IH]; intros i j d Hj; [lia|].
  destruct j as [|j]; cbn [Zseq nth]; [lia|].
  rewrite IH by lia. lia.
Qed.

(** The slots of a list, read by index, are the list. *)
Lemma map_nth_Zseq {A B : Type} (f : A -> B) (d : A) (l : list A) :
  forall pre, map (fun i => f (nth (Z.to_nat i) (pre ++ l) d))
                  (Zseq (Z.of_nat (List.length pre)) (List.length l)) = map f l.
Proof.
  induction l as [|x l IH]; intros pre; [reflexivity|].
  cbn [List.length Zseq map]. f_equal.
  - rewrite Nat2Z.id, app_nth2, Nat.sub_diag by lia. reflexivity.
  - specialize (IH (pre ++ [x])). rewrite <- app_assoc in IH. cbn [app] in IH.
    rewrite length_app in IH. cbn [List.length] in IH.
    replace (Z.of_nat (List.length pre) + 1) with (Z.of_nat (List.length pre + 1)) by lia.
    exact IH.
Qed.

Lemma map_nth_Zseq0 {A B : Type} (f : A -> B) (d : A) (l : list A) :
  map (fun i => f (nth (Z.to_nat i) l d)) (Zseq 0 (List.length l)) = map f l.
Proof. exact (map_nth_Zseq f d l []). Qed.

Lemma concat_map_flat_map {A B C : Type} (f : B -> list C) (g : A -> list B) (l : list A) :
  List.concat (map (fun a => flat_map f (g a)) l) = flat_map f (flat_map g l).
Proof.
  induction l as [|a l IH]; [reflexivity|].
  cbn [map List.concat flat_map]. now rewrite flat_map_app, IH.
Qed.

Lemma join_cons {A : Type} (sep p : list A) (rest : list (list A)) :
  rest <> [] -> join sep (p :: rest) = p ++ sep ++ join sep rest.
Proof. destruct rest; [congruence | reflexivity]. Qed.

Lemma join_app {A : Type} (sep : list A) (g tl : list (list A)) :
  g <> [] -> tl <> [] ->
  join sep (g ++ tl) = join sep g ++ sep ++ join sep tl.
Proof.
  intros Hg Htl. induction g as [|p g IH]; [congruence|].
  destruct g as [|q g].
  - cbn [app]. now rewrite join_cons.
  - rewrite <- app_comm_cons, !join_cons by discriminate.
    rewrite IH by discriminate. now rewrite <- !app_assoc.
Qed.

(** Joining the joined groups is joining all the parts, when no group is
    empty. *)
Lemma join_join {A : Type} (sep : list A) (groups : list (list (list A))) :
  Forall (fun g => g <> []) groups ->
  join sep (map (join sep) groups) = join sep (List.concat groups).
Proof.
  induction groups as [|g groups IH]; intros Hne; [reflexivity|].
  inversion Hne as [|? ? Hg Hrest]; subst. specialize (IH Hrest).
  destruct groups as [|g' groups].
  - cbn. now rewrite app_nil_r.
  - cbn [map] in *. rewrite join_cons by discriminate. rewrite IH.
    change (List.concat (g :: g' :: groups))
      with (g ++ List.concat (g' :: groups)).
    rewrite join_app; auto.
    inversion Hrest; subst. destruct g'; [congruence | cbn; discriminate].
Qed.

(** A loop that sends each part, and the separator after every part but the
    last, sends the joined parts. *)
Lemma concat_pieces_join {A : Type} (sep : list A) (item : Z -> list A) (n : Z) :
  forall (k : nat) (i : Z),
    i + Z.of_nat k = n ->
    List.concat (map (fun j => item j ++ (if j <? n - 1 then sep else [])) (Zseq i k))
    = join sep (map item (Zseq i k)).
Proof.
  induction k as [|k IH]; intros i Hn; [reflexivity|].
  cbn [Zseq map List.concat]. rewrite IH by lia.
  destruct k as [|k].
  - cbn. destruct (i <? n - 1) eqn:E; [apply Z.ltb_lt in E; lia|].
    now rewrite !app_nil_r.
  - destruct (i <? n - 1) eqn:E; [|apply Z.ltb_ge in E; lia].
    cbn [Zseq map]. cbn [join]. now rewrite <- app_assoc.
Qed.

Lemma In_join {A : Type} (sep : list A) (x : A) (parts : list (list A)) :
  In x (join sep parts) -> In x sep \/ exists p, In p parts /\ In x p.
Proof.
  induction parts as [|p parts IH]; [intros []|].
  destruct parts as [|q parts].
  - cbn. intros H. right. exists p. auto.
  - rewrite join_cons by discriminate. rewrite !in_app_iff.
    intros [H | [H | H]].
    + right. exists p. split; [left; reflexivity | exact H].
    + left. exact H.
    + destruct (IH H) as [Hs | [p' [Hp' Hx]]]; [left; exact Hs|].
      right. exists p'. split; [right; exact Hp' | exact Hx].
Qed.

Lemma join_ends_with_last {A : Type} (sep : list A) (parts : list (list A)) (d : list A) :
  parts <> [] -> exists front, join sep parts = front ++ last parts d.
Proof.
  induction parts as [|p parts IH]; [congruence|]. intros _.
  destruct parts as [|q parts].
  - exists []. reflexivity.
  - destruct IH as [front Hf]; [discriminate|].
    exists (p ++ sep ++ front). rewrite join_cons by discriminate.
    rewrite Hf. now rewrite <- !app_assoc.
Qed.

Lemma split_on_nosep (sep : byte) (p : list byte) :
  ~ In sep p -> split_on sep p = [p].
Proof.
  induction p as [|c p IH]; intros Hn; [reflexivity|].
  cbn [split_on]. destruct (Byte.eqb c sep) eqn:E.
  - apply Byte.byte_dec_bl in E. subst. exfalso. apply Hn. now left.
  - rewrite IH; [reflexivity|]. intros H. apply Hn. now right.
Qed.

Lemma split_on_app_sep (sep : byte) (p s : list byte) :
  ~ In sep p -> split_on sep (p ++ sep :: s) = p :: split_on sep s.
Proof.
  induction p as [|c p IH]; intros Hn.
  - cbn [app split_on]. now rewrite Byte.byte_dec_lb.
  - cbn [app split_on]. destruct (Byte.eqb c sep) eqn:E.
    + apply Byte.byte_dec_bl in E. subst. exfalso. apply Hn. now left.
    + rewrite IH; [reflexivity|]. intros H. apply Hn. now right.
Qed.

(** Splitting the joined parts gives the parts back, when no part holds the
    separator. *)
Lemma split_on_join (sep : byte) (parts : list (list byte)) :
  parts <> [] -> Forall (fun p => ~ In sep p) parts ->
  split_on sep (join [sep] parts) = parts.
Proof.
  induction parts as [|p parts IH]; [congruence|]. intros _ Hall.
  inversion Hall as [|? ? Hp Hrest]; subst.
  destruct parts as [|q parts].
  - cbn [join]. now apply split_on_nosep.
  - rewrite join_cons by discriminate. cbn [app].
    rewrite split_on_app_sep by exact Hp. f_equal.
    apply IH; [discriminate | exact Hrest].
Qed.

Lemma count_byte_app (b : byte) (s t : list byte) :
  count_byte b (s ++ t) = (count_byte b s + count_byte b t)%nat.
Proof. unfold count_byte. now rewrite filter_app, length_app. Qed.

Lemma count_byte_absent (b : byte) (s : list byte) :
  ~ In b s -> count_byte b s = 0%nat.
Proof.
  unfold count_byte. induction s as [|c s IH]; intros Hn; [reflexivity|].
  cbn [filter]. destruct (Byte.eqb b c) eqn:E.
  - apply Byte.byte_dec_bl in E. subst. exfalso. apply Hn. now left.
  - apply IH. intros H. apply Hn. now right.
Qed.

Lemma count_byte_join (sep : byte) (parts : list (list byte)) :
  Forall (fun p => ~ In sep p) parts ->
  count_byte sep (join [sep] parts) = (List.length parts - 1)%nat.
Proof.
  induction parts as [|p parts IH]; [reflexivity|]. intros Hall.
  inversion Hall as [|? ? Hp Hrest]; subst.
  destruct parts as [|q parts].
  - cbn [join List.length]. now rewrite count_byte_absent.
  - rewrite join_cons by discriminate. rewrite !count_byte_app.
    rewrite IH by exact Hrest. rewrite count_byte_absent by exact Hp.
    unfold count_byte at 1. cbn [filter]. rewrite Byte.byte_dec_lb by reflexivity.
    cbn [List.length]. lia.
Qed.

(** A byte other than the separator that is in none of the parts is not in
    the joined parts. *)
Lemma join_avoids (sep x : byte) (parts : list (list byte)) :
  x <> sep -> Forall (fun p => ~ In x p) parts -> ~ In x (join [sep] parts).
Proof.
  intros Hx Hall Hin. apply In_join in Hin. destruct Hin as [[H | []] | [p [Hp Hin]]].
  - congruence.
  - rewrite Forall_forall in Hall. exact (Hall p Hp Hin).
Qed.

(* ================================================================== *)
(** * The characters of a printed double *)

Lemma all_chars_app (P : ascii -> bool) (s t : string) :
  all_chars P (s ++ t) = all_chars P s && all_chars P t.
Proof.
  induction s as [|c s IH]; [reflexivity|].
  cbn [append all_chars]. now rewrite IH, andb_assoc.
Qed.

Lemma all_chars_substring (P : ascii -> bool) (s : string) :
  all_chars P s = true -> forall n m, all_chars P (substring n m s) = true.
Proof.
  induction s as [|c s IH]; intros H n m.
  - destruct n, m; reflexivity.
  - cbn [all_chars] in H. apply andb_true_iff in H. destruct H as [Hc Hs].
    destruct n as [|n]; destruct m as [|m]; cbn [substring all_chars]; auto.
    rewrite Hc. apply IH. exact Hs.
Qed.

Lemma all_chars_strip_zeros (P : ascii -> bool) (s : string) :
  all_chars P s = true -> all_chars P (strip_zeros s) = true.
Proof.
  induction s as [|c s IH]; intros H; [reflexivity|].
  cbn [all_chars] in H. apply andb_true_iff in H. destruct H as [Hc Hs].
  cbn [strip_zeros]. specialize (IH Hs).
  destruct (strip_zeros s) as [|c' t].
  - destruct (Ascii.eqb c "0"); cbn [all_chars]; [reflexivity | now rewrite Hc].
  - cbn [all_chars] in *. now rewrite Hc, IH.
Qed.

Lemma all_chars_zeros (n : nat) : all_chars field_char (zeros n) = true.
Proof. induction n as [|n IH]; [reflexivity | exact IH]. Qed.

Lemma all_chars_uint (d : Decimal.uint) :
  all_chars field_char (NilEmpty.string_of_uint d) = true.
Proof. induction d; cbn [NilEmpty.string_of_uint all_chars]; auto. Qed.

Lemma all_chars_decimal (n : Z) : all_chars field_char (decimal n) = true.
Proof.
  unfold decimal, NilZero.string_of_int, NilZero.string_of_uint.
  destruct (Z.to_int n) as [d | d]; destruct d; cbn [all_chars field_char];
    try reflexivity; apply all_chars_uint.
Qed.

Lemma decimal_nonempty (n : Z) : decimal n <> EmptyString.
Proof.
  unfold decimal, NilZero.string_of_int, NilZero.string_of_uint.
  destruct (Z.to_int n) as [d | d]; destruct d; discriminate.
Qed.

Lemma all_chars_with_fraction (i f : string) :
  all_chars field_char i = true -> all_chars field_char f = true ->
  all_chars field_char (with_fraction i f) = true.
Proof.
  intros Hi Hf. unfold with_fraction.
  pose proof (all_chars_strip_zeros field_char f Hf) as Hs.
  destruct (strip_zeros f) as [|c t]; [exact Hi|].
  rewrite !all_chars_app, Hi, Hs. reflexivity.
Qed.

Lemma all_chars_exponent_text (X : Z) :
  all_chars field_char (exponent_text X) = true.
Proof.
  unfold exponent_text. rewrite !all_chars_app, all_chars_decimal.
  destruct (X <? 0), (Z.abs X <? 10); reflexivity.
Qed.

Lemma all_chars_format_g_finite (P m e : Z) :
  all_chars field_char (format_g_finite P m e) = true.
Proof.
  unfold format_g_finite.
  destruct (significand P _ _) as [D X].
  pose proof (all_chars_decimal D) as HD.
  destruct ((X <? -4) || (P <=? X)); [|destruct (0 <=? X)].
  - rewrite all_chars_app, all_chars_exponent_text, andb_true_r.
    apply all_chars_with_fraction; now apply all_chars_substring.
  - apply all_chars_with_fraction; now apply all_chars_substring.
  - apply all_chars_with_fraction; [reflexivity|].
    now rewrite all_chars_app, all_chars_zeros, HD.
Qed.

(** No tab and no line feed in the text of a double. *)
Lemma all_chars_format_g (P : Z) (d : double) :
  all_chars field_char (format_g P d) = true.
Proof.
  unfold format_g. rewrite all_chars_app.
  apply andb_true_iff. split; [destruct (sign_bit d); reflexivity|].
  destruct (fpclassify d); try reflexivity. apply all_chars_format_g_finite.
Qed.

Lemma append_nonempty_r (s t : string) : t <> EmptyString -> (s ++ t)%string <> EmptyString.
Proof. destruct s; [trivial | discriminate]. Qed.

Lemma append_nonempty_l (s t : string) : s <> EmptyString -> (s ++ t)%string <> EmptyString.
Proof. destruct s; [congruence | discriminate]. Qed.

Lemma with_fraction_nonempty (i f : string) :
  i <> EmptyString -> with_fraction i f <> EmptyString.
Proof.
  intros Hi. unfold with_fraction. destruct (strip_zeros f); [exact Hi|].
  now apply append_nonempty_l.
Qed.

Lemma substring_nonempty (s : string) (m : nat) :
  s <> EmptyString -> substring 0 (S m) s <> EmptyString.
Proof. destruct s; [congruence | discriminate]. Qed.

Lemma format_g_finite_nonempty (P m e : Z) : format_g_finite P m e <> EmptyString.
Proof.
  unfold format_g_finite.
  destruct (significand P _ _) as [D X].
  destruct ((X <? -4) || (P <=? X)); [|destruct (0 <=? X) eqn:E].
  - apply append_nonempty_r. unfold exponent_text.
    destruct (X <? 0); discriminate.
  - apply with_fraction_nonempty. apply Z.leb_le in E.
    replace (Z.to_nat (X + 1)) with (S (Z.to_nat X)) by lia.
    apply substring_nonempty, decimal_nonempty.
  - apply with_fraction_nonempty. discriminate.
Qed.

(** A double is never printed as the empty text. *)
Lemma format_g_nonempty (P : Z) (d : double) : format_g P d <> EmptyString.
Proof.
  unfold format_g. apply append_nonempty_r.
  destruct (fpclassify d); try discriminate. apply format_g_finite_nonempty.
Qed.

Lemma list_byte_of_string_cons (c : ascii) (s : string) :
  list_byte_of_string (String c s) = byte_of_ascii c :: list_byte_of_string s.
Proof. reflexivity. Qed.

Lemma field_char_bytes (s : string) :
  all_chars field_char s = true ->
  ~ In TAB (list_byte_of_string s) /\ ~ In LF (list_byte_of_string s).
Proof.
  induction s as [|c s IH]; intros H; [split; intros []|].
  cbn [all_chars] in H. apply andb_true_iff in H. destruct H as [Hc Hs].
  destruct (IH Hs) as [HT HL]. rewrite list_byte_of_string_cons.
  unfold field_char in Hc. apply andb_true_iff in Hc. destruct Hc as [H9 H10].
  apply negb_true_iff, Ascii.eqb_neq in H9, H10.
  split; intros [Heq | Hin]; auto.
  - apply H9. rewrite <- (ascii_of_byte_of_ascii c), Heq. reflexivity.
  - apply H10. rewrite <- (ascii_of_byte_of_ascii c), Heq. reflexivity.
Qed.

Lemma field_text_no_TAB (P : Z) (v : double) : ~ In TAB (field_text P v).
Proof. apply field_char_bytes, all_chars_format_g. Qed.

Lemma field_text_no_LF (P : Z) (v : double) : ~ In LF (field_text P v).
Proof. apply field_char_bytes, all_chars_format_g. Qed.

Lemma field_text_nonempty (P : Z) (v : double) : field_text P v <> [].
Proof.
  unfold field_text. pose proof (format_g_nonempty P v) as H.
  destruct (format_g P v); [congruence|].
  rewrite list_byte_of_string_cons. discriminate.
Qed.

(* ================================================================== *)
(** * The process monad and the stream *)

Lemma bind_returns {A B : Type} (m : Proc A) (k : A -> Proc B) (w w' : World) (a : A) :
  m w = (Returns a, w') -> bind m k w = k a w'.
Proof. intros H. unfold bind. now rewrite H. Qed.

Lemma bind_ret_l {A B : Type} (a : A) (k : A -> Proc B) (w : World) :
  bind (ret a) k w = k a w.
Proof. reflexivity. Qed.

Lemma bind_assoc {A B C : Type} (m : Proc A) (f : A -> Proc B) (g : B -> Proc C) (w : World) :
  bind (bind m f) g w = bind m (fun x => bind (f x) g) w.
Proof. unfold bind. destruct (m w) as [[a | status |] w']; reflexivity. Qed.

Lemma bind_ext {A B : Type} (m : Proc A) (k1 k2 : A -> Proc B) (w : World) :
  (forall a w', k1 a w' = k2 a w') -> bind m k1 w = bind m k2 w.
Proof. intros H. unfold bind. destruct (m w) as [[a | status |] w']; auto. Qed.

Lemma bind_cout_put {B : Type} (s : string) (k : unit -> Proc B) (w : World) :
  bind (cout_put s) k w = k tt (cout_append s w).
Proof. reflexivity. Qed.

Lemma bind_cerr_put {B : Type} (s : string) (k : unit -> Proc B) (w : World) :
  bind (cerr_put s) k w = k tt (cerr_append s w).
Proof. reflexivity. Qed.

Lemma bind_exits {A B : Type} (m : Proc A) (k : A -> Proc B) (w w' : World) (s : Z) :
  m w = (Exits s, w') -> bind m k w = (Exits s, w').
Proof. intros H. unfold bind. now rewrite H. Qed.

Lemma bind_undefined {A B : Type} (m : Proc A) (k : A -> Proc B) (w w' : World) :
  m w = (Undefined, w') -> bind m k w = (Undefined, w').
Proof. intros H. unfold bind. now rewrite H. Qed.

Lemma load_returns {A : Type} (l : list A) (i : Z) (x : A) (w : World) :
  0 <= i -> nth_error l (Z.to_nat i) = Some x -> load l i w = (Returns x, w).
Proof.
  intros Hi Hx. unfold load. destruct (i <? 0) eqn:E; [apply Z.ltb_lt in E; lia|].
  now rewrite Hx.
Qed.

Lemma GetComponent_returns (a : vtkDataArray) (i j : Z) (w : World) :
  0 <= i < NumberOfTuples a -> 0 <= j < NumberOfComponents a ->
  GetComponent a i j w = (Returns (Component a i j), w).
Proof.
  intros Hi Hj. unfold GetComponent.
  replace (0 <=? i) with true by (symmetry; apply Z.leb_le; lia).
  replace (i <? NumberOfTuples a) with true by (symmetry; apply Z.ltb_lt; lia).
  replace (0 <=? j) with true by (symmetry; apply Z.leb_le; lia).
  replace (j <? NumberOfComponents a) with true by (symmetry; apply Z.ltb_lt; lia).
  reflexivity.
Qed.

Lemma stream_write_nil (os : ofstream) : stream_write os [] = os.
Proof.
  unfold stream_write. destruct (is_open os); [|reflexivity].
  destruct os. cbn. now rewrite app_nil_r.
Qed.

Lemma stream_write_app (os : ofstream) (a b : list byte) :
  stream_write (stream_write os a) b = stream_write os (a ++ b).
Proof.
  unfold stream_write, is_open. destruct os as [[path|] P wr]; cbn; [|reflexivity].
  now rewrite app_assoc.
Qed.

Lemma precision_stream_write (os : ofstream) (a : list byte) :
  precision (stream_write os a) = precision os.
Proof. unfold stream_write. destruct (is_open os); reflexivity. Qed.

(** A loop whose body sends [piece i] at iteration [i] sends the pieces one
    after the other. *)
Lemma for_loop_writes (P : Z) (piece : Z -> list byte)
    (body : Z -> ofstream -> Proc ofstream) (hi : Z) :
  (forall i os w, 0 <= i < hi -> precision os = P ->
     body i os w = (Returns (stream_write os (piece i)), w)) ->
  forall (k : nat) (i : Z) os w,
    0 <= i -> i + Z.of_nat k <= hi -> precision os = P ->
    for_loop k i body os w
    = (Returns (stream_write os (List.concat (map piece (Zseq i k)))), w).
Proof.
  intros Hbody. induction k as [|k IH]; intros i os w Hi Hk HP.
  - cbn. now rewrite stream_write_nil.
  - cbn [for_loop]. rewrite (bind_returns _ _ _ _ _ (Hbody i os w ltac:(lia) HP)).
    rewrite IH by (rewrite ?precision_stream_write; lia).
    cbn [Zseq map List.concat]. now rewrite stream_write_app.
Qed.

(* ================================================================== *)
(** * The serializers on a valid set *)

Lemma to_uint_small (x : Z) : 0 <= x < 2 ^ 32 -> to_uint x = x.
Proof. intros H. unfold to_uint. now apply Z.mod_small. Qed.

Lemma to_ullong_small (x : Z) : 0 <= x < 2 ^ 64 -> to_ullong x = x.
Proof. intros H. unfold to_ullong. now apply Z.mod_small. Qed.

Lemma nth_error_nth_Z {A : Type} (l : list A) (d : A) (i : Z) :
  0 <= i < Z.of_nat (List.length l) ->
  nth_error l (Z.to_nat i) = Some (nth (Z.to_nat i) l d).
Proof. intros H. apply nth_error_nth'. lia. Qed.

Lemma tuple_values_length (a : vtkDataArray) (r : Z) :
  List.length (tuple_values a r) = Z.to_nat (NumberOfComponents a).
Proof. unfold tuple_values. now rewrite length_map, Zseq_length. Qed.

Section ValidSet.

Variable arrays : list vtkDataArray.
Variable m : Z.
Hypothesis Hvalid : valid_set arrays m.

Lemma valid_count : 1 <= Z.of_nat (List.length arrays) <= INT_MAX.
Proof.
  destruct Hvalid as (Hne & Hlen & _). split; [|exact Hlen].
  destruct arrays; [congruence | cbn [List.length]; lia].
Qed.

Lemma valid_nth (d : vtkDataArray) (i : Z) :
  0 <= i < Z.of_nat (List.length arrays) ->
  well_formed (nth (Z.to_nat i) arrays d) /\
  NumberOfTuples (nth (Z.to_nat i) arrays d) = m.
Proof.
  intros Hi. destruct Hvalid as (_ & _ & Hall). rewrite Forall_forall in Hall.
  apply Hall, nth_In. lia.
Qed.

Lemma valid_rows : 0 <= m <= VTK_ID_MAX.
Proof.
  destruct Hvalid as (Hne & _ & Hall). destruct arrays as [|a l]; [congruence|].
  inversion Hall as [|? ? [(_ & Ht & _) Hm] _]; subst. exact Ht.
Qed.

Lemma load_array (d : vtkDataArray) (i : Z) (w : World) :
  0 <= i < Z.of_nat (List.length arrays) ->
  load (map Some arrays) i w = (Returns (Some (nth (Z.to_nat i) arrays d)), w).
Proof.
  intros Hi. apply load_returns; [lia|].
  rewrite nth_error_map, (nth_error_nth_Z _ d) by exact Hi. reflexivity.
Qed.

Lemma load_count (d : vtkDataArray) (i : Z) (w : World) :
  0 <= i < Z.of_nat (List.length arrays) ->
  load (map (fun a => to_uint (NumberOfComponents a)) arrays) i w
  = (Returns (NumberOfComponents (nth (Z.to_nat i) arrays d)), w).
Proof.
  intros Hi. apply load_returns; [lia|].
  rewrite nth_error_map, (nth_error_nth_Z _ d) by exact Hi. cbn [option_map].
  destruct (valid_nth d i Hi) as [(Hc & _) _]. unfold INT_MAX in Hc.
  rewrite to_uint_small by lia. reflexivity.
Qed.

(** The text of one tuple of one array. *)
Lemma text_components (d : vtkDataArray) (r i : Z) (os : ofstream) (w : World) :
  0 <= r < m -> 0 <= i < Z.of_nat (List.length arrays) ->
  let a := nth (Z.to_nat i) arrays d in
  let n := NumberOfComponents a in
  for_upto n
    (fun ComponentIterator OutputFile =>
       p <- load (map Some arrays) i ;;
       a <- deref p ;;
       v <- GetComponent a r ComponentIterator ;;
       let OutputFile := put_double OutputFile v in
       if ComponentIterator <? to_uint (n - 1)
       then ret (put_string OutputFile (String "009" EmptyString))
       else ret OutputFile) os w
  = (Returns (stream_write os (line_text (precision os) (tuple_values a r))), w).
Proof.
  intros Hr Hi a n.
  destruct (valid_nth d i Hi) as [(Hc & _) Hm]. fold a in Hc, Hm. fold n in Hc.
  unfold INT_MAX in Hc. unfold for_upto.
  rewrite (for_loop_writes (precision os)
             (fun c => field_text (precision os) (Component a r c)
                       ++ (if c <? n - 1 then [TAB] else [])) _ n).
  - rewrite concat_pieces_join by lia. unfold line_text, tuple_values.
    now rewrite map_map.
  - intros c os' w' Hc' HP.
    rewrite (bind_returns _ _ _ _ _ (load_array d i w' Hi)). cbn [deref].
    rewrite bind_ret_l.
    rewrite (bind_returns _ _ _ _ _ (GetComponent_returns a r c w' ltac:(lia) ltac:(lia))).
    rewrite to_uint_small by lia. cbv zeta.
    unfold put_double, put_string. rewrite HP. fold (field_text (precision os) (Component a r c)).
    destruct (c <? n - 1); cbn [ret].
    + rewrite stream_write_app. reflexivity.
    + now rewrite app_nil_r.
  - lia.
  - lia.
  - reflexivity.
Qed.

Lemma groups_nonempty (P : Z) (r : Z) :
  Forall (fun g : list (list byte) => g <> [])
         (map (fun a => map (field_text P) (tuple_values a r)) arrays).
Proof.
  destruct Hvalid as (_ & _ & Hall). rewrite Forall_forall in *.
  intros g Hg. apply in_map_iff in Hg. destruct Hg as (a & <- & Ha).
  destruct (Hall a Ha) as [(Hc & _) _]. intros Hnil.
  apply (f_equal (@List.length _)) in Hnil.
  rewrite length_map, tuple_values_length in Hnil. cbn in Hnil. lia.
Qed.

(** The text of one row: the tuples of the arrays with one tab between every
    two fields, also between two arrays. *)
Lemma text_row (r : Z) (os : ofstream) (w : World) :
  0 <= r < m ->
  let NumberOfArrays := Z.of_nat (List.length arrays) in
  let counts := map (fun a => to_uint (NumberOfComponents a)) arrays in
  for_upto NumberOfArrays
    (fun ArrayIterator OutputFile =>
       n <- load counts ArrayIterator ;;
       OutputFile <-
         for_upto n
           (fun ComponentIterator OutputFile =>
              p <- load (map Some arrays) ArrayIterator ;;
              a <- deref p ;;
              v <- GetComponent a r ComponentIterator ;;
              let OutputFile := put_double OutputFile v in
              if ComponentIterator <? to_uint (n - 1)
              then ret (put_string OutputFile (String "009" EmptyString))
              else ret OutputFile) OutputFile ;;
       if ArrayIterator <? to_uint (NumberOfArrays - 1)
       then ret (put_string OutputFile (String "009" EmptyString))
       else ret OutputFile) os w
  = (Returns (stream_write os (line_text (precision os) (row_values arrays r))), w).
Proof.
  intros Hr N counts. pose proof valid_count as HN. fold N in HN.
  unfold INT_MAX in HN.
  set (d := mkArray EmptyString 0 0 (fun _ _ => 0)).
  unfold for_upto at 1.
  rewrite (for_loop_writes (precision os)
             (fun i => line_text (precision os) (tuple_values (nth (Z.to_nat i) arrays d) r)
                       ++ (if i <? N - 1 then [TAB] else [])) _ N).
  - rewrite concat_pieces_join by lia. f_equal. f_equal.
    unfold N. rewrite Nat2Z.id.
    rewrite (map_nth_Zseq0 (fun a => line_text (precision os) (tuple_values a r)) d arrays).
    unfold line_text at 1.
    rewrite <- (map_map (fun a => map (field_text (precision os)) (tuple_values a r))
                        (join [TAB])).
    rewrite join_join by apply groups_nonempty.
    unfold line_text, row_values. f_equal.
    rewrite flat_map_concat_map, concat_map, map_map. reflexivity.
  - intros i os' w' Hi HP.
    rewrite (bind_returns _ _ _ _ _ (load_count d i w' Hi)).
    rewrite (bind_returns _ _ _ _ _ (text_components d r i os' w' Hr Hi)).
    rewrite to_uint_small by lia. rewrite HP.
    destruct (i <? N - 1); cbn [ret]; unfold put_string.
    + rewrite stream_write_app. reflexivity.
    + now rewrite app_nil_r.
  - lia.
  - lia.
  - reflexivity.
Qed.

(** ** The text serializer writes the rows of the output matrix, one line
    each. *)
Lemma WriteArraysToASCIIFile_valid (os : ofstream) (w : World) :
  WriteArraysToASCIIFile os (map Some arrays) (Z.of_nat (List.length arrays))
    (map (fun a => to_uint (NumberOfComponents a)) arrays) w
  = (Returns (stream_write os (text_of_matrix (precision os) (OutputMatrix arrays m))),
     cout_append endl (cout_append "Write to binary file." w)).
Proof.
  pose proof valid_count as HN. pose proof valid_rows as Hm.
  unfold INT_MAX in HN. unfold VTK_ID_MAX in Hm.
  set (d := mkArray EmptyString 0 0 (fun _ _ => 0)).
  unfold WriteArraysToASCIIFile.
  rewrite !bind_cout_put.
  rewrite (bind_returns _ _ _ _ _ (load_array d 0 _ ltac:(lia))).
  cbn [deref]. rewrite bind_ret_l. cbv zeta.
  destruct (valid_nth d 0 ltac:(lia)) as [_ Hm0]. rewrite Hm0.
  rewrite to_ullong_small by lia.
  unfold for_upto at 1.
  rewrite (for_loop_writes (precision os)
             (fun r => line_text (precision os) (row_values arrays r)
                       ++ (if r <? m - 1 then [LF] else [])) _ m).
  - rewrite concat_pieces_join by lia. unfold text_of_matrix, OutputMatrix.
    now rewrite map_map.
  - intros r os' w' Hr HP.
    rewrite (bind_returns _ _ _ _ _ (text_row r os' w' Hr)).
    rewrite to_ullong_small by lia. rewrite HP.
    destruct (r <? m - 1); cbn [ret]; unfold put_endl, put_string.
    + rewrite stream_write_app. reflexivity.
    + now rewrite app_nil_r.
  - lia.
  - lia.
  - reflexivity.
Qed.

Variable host : endianness.

Lemma binary_components (d : vtkDataArray) (r i : Z) (os : ofstream) (w : World) :
  0 <= r < m -> 0 <= i < Z.of_nat (List.length arrays) ->
  let a := nth (Z.to_nat i) arrays d in
  for_upto (NumberOfComponents a)
    (fun ComponentIterator OutputFile =>
       p <- load (map Some arrays) i ;;
       a <- deref p ;;
       Value <- GetComponent a r ComponentIterator ;;
       ret (write_double host OutputFile Value)) os w
  = (Returns (stream_write os (flat_map (object_bytes host) (tuple_values a r))), w).
Proof.
  intros Hr Hi a.
  destruct (valid_nth d i Hi) as [(Hc & _) Hm]. fold a in Hc, Hm.
  unfold for_upto.
  rewrite (for_loop_writes (precision os)
             (fun c => object_bytes host (Component a r c)) _ (NumberOfComponents a)).
  - unfold tuple_values. now rewrite flat_map_concat_map, map_map.
  - intros c os' w' Hc' HP.
    rewrite (bind_returns _ _ _ _ _ (load_array d i w' Hi)).
    cbn [deref]. rewrite bind_ret_l.
    rewrite (bind_returns _ _ _ _ _ (GetComponent_returns a r c w' ltac:(lia) ltac:(lia))).
    reflexivity.
  - lia.
  - lia.
  - reflexivity.
Qed.

Lemma binary_row (r : Z) (os : ofstream) (w : World) :
  0 <= r < m ->
  for_upto (Z.of_nat (List.length arrays))
    (fun ArrayIterator OutputFile =>
       n <- load (map (fun a => to_uint (NumberOfComponents a)) arrays) ArrayIterator ;;
       for_upto n
         (fun ComponentIterator OutputFile =>
            p <- load (map Some arrays) ArrayIterator ;;
            a <- deref p ;;
            Value <- GetComponent a r ComponentIterator ;;
            ret (write_double host OutputFile Value)) OutputFile) os w
  = (Returns (stream_write os (flat_map (object_bytes host) (row_values arrays r))), w).
Proof.
  intros Hr.
  set (d := mkArray EmptyString 0 0 (fun _ _ => 0)).
  unfold for_upto at 1.
  rewrite (for_loop_writes (precision os)
             (fun i => flat_map (object_bytes host)
                         (tuple_values (nth (Z.to_nat i) arrays d) r))
             _ (Z.of_nat (List.length arrays))).
  - rewrite Nat2Z.id.
    rewrite (map_nth_Zseq0 (fun a => flat_map (object_bytes host) (tuple_values a r)) d arrays).
    unfold row_values. now rewrite concat_map_flat_map.
  - intros i os' w' Hi HP.
    rewrite (bind_returns _ _ _ _ _ (load_count d i w' Hi)).
    apply binary_components; assumption.
  - lia.
  - lia.
  - reflexivity.
Qed.

(** ** The binary serializer writes the doubles of the output matrix, row
    after row, and nothing else. *)
Lemma WriteArraysToBinaryFile_valid (os : ofstream) (w : World) :
  WriteArraysToBinaryFile host os (map Some arrays) (Z.of_nat (List.length arrays))
    (map (fun a => to_uint (NumberOfComponents a)) arrays) w
  = (Returns (stream_write os (binary_of_matrix host (OutputMatrix arrays m))),
     cout_append endl (cout_append "Write to binary file." w)).
Proof.
  pose proof valid_count as HN. pose proof valid_rows as Hm.
  unfold INT_MAX in HN. unfold VTK_ID_MAX in Hm.
  set (d := mkArray EmptyString 0 0 (fun _ _ => 0)).
  unfold WriteArraysToBinaryFile.
  rewrite !bind_cout_put.
  rewrite (bind_returns _ _ _ _ _ (load_array d 0 _ ltac:(lia))).
  cbn [deref]. rewrite bind_ret_l. cbv zeta.
  destruct (valid_nth d 0 ltac:(lia)) as [_ Hm0]. rewrite Hm0.
  rewrite to_ullong_small by lia.
  unfold for_upto at 1.
  rewrite (for_loop_writes (precision os)
             (fun r => flat_map (object_bytes host) (row_values arrays r)) _ m).
  - unfold binary_of_matrix, OutputMatrix.
    rewrite concat_map_flat_map.
    now rewrite (flat_map_concat_map (row_values arrays)).
  - intros r os' w' Hr HP. apply binary_row. exact Hr.
  - lia.
  - lia.
  - reflexivity.
Qed.

End ValidSet.

(* ================================================================== *)
(** * The shape of the two renderings *)

Lemma OutputMatrix_length (arrays : list vtkDataArray) (m : Z) :
  List.length (OutputMatrix arrays m) = Z.to_nat m.
Proof. unfold OutputMatrix. now rewrite length_map, Zseq_length. Qed.

Lemma OutputMatrix_nth (arrays : list vtkDataArray) (m r : Z) (d : list double) :
  0 <= r < m ->
  nth (Z.to_nat r) (OutputMatrix arrays m) d = row_values arrays r.
Proof.
  intros Hr. unfold OutputMatrix.
  rewrite (nth_indep _ d (row_values arrays 0))
    by (rewrite length_map, Zseq_length; lia).
  rewrite (map_nth (row_values arrays)), Zseq_nth by lia. f_equal. lia.
Qed.

Lemma row_values_length (arrays : list vtkDataArray) (r : Z) :
  Forall (fun a => 0 <= NumberOfComponents a) arrays ->
  Z.of_nat (List.length (row_values arrays r)) = totalComponents arrays.
Proof.
  unfold row_values. induction arrays as [|a l IH]; intros Hall; [reflexivity|].
  inversion Hall; subst. cbn [flat_map totalComponents fold_right].
  rewrite length_app, Nat2Z.inj_add, tuple_values_length, IH by assumption.
  fold (totalComponents l). lia.
Qed.

Lemma valid_components_nonneg (arrays : list vtkDataArray) (m : Z) :
  valid_set arrays m -> Forall (fun a => 0 <= NumberOfComponents a) arrays.
Proof.
  intros (_ & _ & Hall). eapply Forall_impl; [|exact Hall].
  intros a [(Hc & _) _]. lia.
Qed.

Lemma totalComponents_nonneg (arrays : list vtkDataArray) :
  Forall (fun a => 0 <= NumberOfComponents a) arrays -> 0 <= totalComponents arrays.
Proof.
  induction arrays as [|a l IH]; intros Hall; [cbn; lia|].
  inversion Hall as [|? ? Ha Hl]; subst.
  cbn [totalComponents fold_right]. fold (totalComponents l).
  specialize (IH Hl). lia.
Qed.

Lemma valid_total_positive (arrays : list vtkDataArray) (m : Z) :
  valid_set arrays m -> 1 <= totalComponents arrays.
Proof.
  intros Hv. pose proof (valid_components_nonneg _ _ Hv) as Hnn.
  destruct Hv as (Hne & _ & Hall). destruct arrays as [|a l]; [congruence|].
  inversion Hall as [|? ? [(Hc & _) _] _]; subst.
  inversion Hnn as [|? ? _ Hl]; subst.
  cbn [totalComponents fold_right]. fold (totalComponents l).
  pose proof (totalComponents_nonneg l Hl). lia.
Qed.

Lemma object_bytes_length (host : endianness) (d : double) :
  List.length (object_bytes host d) = 8%nat.
Proof. destruct host; cbn; reflexivity. Qed.

Lemma flat_map_object_bytes_length (host : endianness) (vs : list double) :
  List.length (flat_map (object_bytes host) vs) = (8 * List.length vs)%nat.
Proof.
  induction vs as [|v vs IH]; [reflexivity|].
  cbn [flat_map]. rewrite length_app, object_bytes_length, IH. cbn [List.length]. lia.
Qed.

Lemma concat_rows_length {A : Type} (n : nat) (rows : list (list A)) :
  Forall (fun row => List.length row = n) rows ->
  List.length (List.concat rows) = (List.length rows * n)%nat.
Proof.
  induction rows as [|row rows IH]; intros Hall; [reflexivity|].
  inversion Hall; subst. cbn [List.concat List.length].
  rewrite length_app, IH by assumption. lia.
Qed.

Lemma line_text_no_LF (P : Z) (row : list double) : ~ In LF (line_text P row).
Proof.
  unfold line_text. apply join_avoids; [discriminate|].
  apply Forall_forall. intros f Hf. apply in_map_iff in Hf.
  destruct Hf as (v & <- & _). apply field_text_no_LF.
Qed.

Lemma line_text_nonempty (P : Z) (row : list double) :
  row <> [] -> line_text P row <> [].
Proof.
  destruct row as [|v row]; [congruence|]. intros _. unfold line_text.
  pose proof (field_text_nonempty P v) as Hv. cbn [map].
  destruct (map (field_text P) row).
  - exact Hv.
  - rewrite join_cons by discriminate. destruct (field_text P v); [congruence | discriminate].
Qed.

(** A reader cutting a line at the tabs gets the printed values. *)
Lemma split_line_text (P : Z) (row : list double) :
  row <> [] -> split_on TAB (line_text P row) = map (field_text P) row.
Proof.
  intros Hne. unfold line_text. apply split_on_join.
  - destruct row; [congruence | discriminate].
  - apply Forall_forall. intros f Hf. apply in_map_iff in Hf.
    destruct Hf as (v & <- & _). apply field_text_no_TAB.
Qed.

Lemma count_TAB_line_text (P : Z) (row : list double) :
  count_byte TAB (line_text P row) = (List.length row - 1)%nat.
Proof.
  unfold line_text. rewrite count_byte_join, length_map; [reflexivity|].
  apply Forall_forall. intros f Hf. apply in_map_iff in Hf.
  destruct Hf as (v & <- & _). apply field_text_no_TAB.
Qed.

(** A reader cutting the text at the line feeds gets the lines. *)
Lemma split_text_of_matrix (P : Z) (rows : list (list double)) :
  rows <> [] -> split_on LF (text_of_matrix P rows) = map (line_text P) rows.
Proof.
  intros Hne. unfold text_of_matrix. apply split_on_join.
  - destruct rows; [congruence | discriminate].
  - apply Forall_forall. intros l Hl. apply in_map_iff in Hl.
    destruct Hl as (row & <- & _). apply line_text_no_LF.
Qed.

Lemma count_LF_text_of_matrix (P : Z) (rows : list (list double)) :
  count_byte LF (text_of_matrix P rows) = (List.length rows - 1)%nat.
Proof.
  unfold text_of_matrix. rewrite count_byte_join, length_map; [reflexivity|].
  apply Forall_forall. intros l Hl. apply in_map_iff in Hl.
  destruct Hl as (row & <- & _). apply line_text_no_LF.
Qed.

(** The text does not end with a line feed: its last line is not empty. *)
Lemma text_of_matrix_no_trailing_LF (P : Z) (rows : list (list double)) :
  Forall (fun row => row <> []) rows ->
  forall front, text_of_matrix P rows <> front ++ [LF].
Proof.
  intros Hrows front Heq.
  destruct rows as [|row0 rows'] eqn:Erows.
  { cbn in Heq. destruct front; discriminate. }
  rewrite <- Erows in *. assert (Hne : rows <> []) by (subst; discriminate).
  unfold text_of_matrix in Heq.
  destruct (join_ends_with_last [LF] (map (line_text P) rows) [])
    as [pre Hpre]; [subst; discriminate|].
  rewrite Hpre in Heq.
  assert (Hlast : exists row, In row rows /\ last (map (line_text P) rows) [] = line_text P row).
  { exists (last rows []). split.
    - destruct (exists_last Hne) as (l & x & ->). rewrite last_last.
      apply in_or_app. right. now left.
    - clear - Hne. induction rows as [|x l IH]; [congruence|].
      destruct l; [reflexivity|]. cbn [map last] in *. apply IH. discriminate. }
  destruct Hlast as (row & Hin & Hl). rewrite Hl in Heq.
  rewrite Forall_forall in Hrows.
  pose proof (line_text_nonempty P row (Hrows row Hin)) as Hnonempty.
  pose proof (line_text_no_LF P row) as HnoLF.
  destruct (exists_last Hnonempty) as (q & c & Hq). rewrite Hq in Heq, HnoLF.
  rewrite app_assoc in Heq. apply app_inj_tail in Heq. destruct Heq as [_ Hc].
  apply HnoLF. apply in_or_app. right. left. exact Hc.
Qed.

(* ================================================================== *)
(** * Reading the bytes of a double back *)

Lemma to_N_byte_of_Z (z : Z) : Z.of_N (Byte.to_N (byte_of_Z z)) = z mod 256.
Proof.
  unfold byte_of_Z.
  assert (Hr : 0 <= z mod 256 < 256) by (apply Z.mod_pos_bound; lia).
  destruct (Byte.of_N (Z.to_N (z mod 256))) as [b|] eqn:E.
  - apply Byte.to_of_N in E. rewrite E. lia.
  - apply Byte.of_N_None_iff in E. lia.
Qed.

Lemma Z_of_le_bytes_shift (n : nat) : forall x : Z,
  0 <= x < 256 ^ Z.of_nat n ->
  Z_of_le_bytes (map (fun k => byte_of_Z (Z.shiftr x (8 * Z.of_nat k))) (seq 0 n)) = x.
Proof.
  induction n as [|n IH]; intros x Hx.
  - cbn in *. lia.
  - cbn [seq map Z_of_le_bytes fold_right].
    rewrite to_N_byte_of_Z. change (8 * Z.of_nat 0) with 0. rewrite Z.shiftr_0_r.
    rewrite <- seq_shift, map_map.
    rewrite (map_ext _ (fun k => byte_of_Z (Z.shiftr (x / 256) (8 * Z.of_nat k)))).
    + fold (Z_of_le_bytes (map (fun k => byte_of_Z (Z.shiftr (x / 256) (8 * Z.of_nat k))) (seq 0 n))).
      rewrite IH.
      * pose proof (Z.div_mod x 256 ltac:(lia)). lia.
      * rewrite Nat2Z.inj_succ, Z.pow_succ_r in Hx by lia.
        split; [apply Z.div_pos; lia | apply Z.div_lt_upper_bound; lia].
    + intros k. f_equal. rewrite !Z.shiftr_div_pow2 by lia.
      rewrite Z.div_div by lia. f_equal.
      replace (8 * Z.of_nat (S k)) with (8 + 8 * Z.of_nat k) by lia.
      rewrite Z.pow_add_r by lia. reflexivity.
Qed.

Lemma double_of_object_bytes (host : endianness) (d : double) :
  0 <= d < 2 ^ 64 -> double_of_bytes host (object_bytes host d) = d.
Proof.
  intros Hd. assert (H : Z_of_le_bytes (le_bytes d) = d).
  { apply (Z_of_le_bytes_shift 8). exact Hd. }
  destruct host; cbn [double_of_bytes object_bytes]; [|rewrite rev_involutive]; exact H.
Qed.

(** Reading back the doubles one wrote gives the same doubles. *)
Lemma read_doubles_written (host : endianness) (vs : list double) :
  Forall (fun v => 0 <= v < 2 ^ 64) vs ->
  read_doubles host (List.length vs) (flat_map (object_bytes host) vs) = vs.
Proof.
  induction vs as [|v vs IH]; intros Hall; [reflexivity|].
  inversion Hall as [|? ? Hv Hvs]; subst.
  pose proof (object_bytes_length host v) as Hlen.
  change (read_doubles host (List.length (v :: vs)) (flat_map (object_bytes host) (v :: vs)))
    with (double_of_bytes host (firstn 8 (object_bytes host v ++ flat_map (object_bytes host) vs))
          :: read_doubles host (List.length vs)
               (skipn 8 (object_bytes host v ++ flat_map (object_bytes host) vs))).
  rewrite firstn_app, skipn_app, Hlen, Nat.sub_diag.
  rewrite (firstn_all2 (n := 8) (object_bytes host v)) by lia.
  rewrite (skipn_all2 (n := 8) (object_bytes host v)) by lia.
  rewrite firstn_O, skipn_O, app_nil_r. cbn [app].
  rewrite double_of_object_bytes by exact Hv. f_equal. apply IH. exact Hvs.
Qed.

Lemma rows_of_concat {A : Type} (n : nat) (rows : list (list A)) :
  Forall (fun row => List.length row = n) rows ->
  rows_of n (List.length rows) (List.concat rows) = rows.
Proof.
  induction rows as [|row rows IH]; intros Hall; [reflexivity|].
  inversion Hall as [|? ? Hrow Hrows]; subst.
  cbn [List.length rows_of List.concat].
  rewrite firstn_app, skipn_app, Nat.sub_diag.
  rewrite firstn_all, skipn_all, firstn_O, skipn_O, app_nil_r. cbn [app].
  f_equal. apply IH. exact Hrows.
Qed.

(* ================================================================== *)
(** * The validation pass *)

Lemma for_loop_app {St : Type} (body : Z -> St -> Proc St) (k1 k2 : nat) :
  forall (i : Z) (s : St) (w : World),
    for_loop (k1 + k2) i body s w
    = (s' <- for_loop k1 i body s ;; for_loop k2 (i + Z.of_nat k1) body s') w.
Proof.
  induction k1 as [|k1 IH]; intros i s w.
  - cbn. now rewrite Z.add_0_r.
  - cbn [Nat.add for_loop]. rewrite bind_assoc. apply bind_ext.
    intros s1 w1. rewrite IH.
    replace (i + 1 + Z.of_nat k1) with (i + Z.of_nat (S k1)) by lia.
    reflexivity.
Qed.

Lemma only_cout_refl (w : World) : only_cout w w.
Proof. repeat split. Qed.

Lemma only_cout_trans (w1 w2 w3 : World) :
  only_cout w1 w2 -> only_cout w2 w3 -> only_cout w1 w3.
Proof. unfold only_cout. intros (-> & -> & ->) (-> & -> & ->). repeat split. Qed.

Lemma only_cout_append (s : string) (w : World) : only_cout w (cout_append s w).
Proof. repeat split. Qed.

Lemma GetArray_app_tail (arrays : list vtkDataArray) (p : option vtkDataArray) (tail : vtkPointData) :
  GetArray (map Some arrays ++ p :: tail) (Z.of_nat (List.length arrays)) = p.
Proof.
  unfold GetArray. destruct (Z.of_nat (List.length arrays) <? 0) eqn:E; [apply Z.ltb_lt in E; lia|].
  rewrite Nat2Z.id, app_nth2 by (rewrite length_map; lia).
  now rewrite length_map, Nat.sub_diag.
Qed.

Lemma table_of_snoc (pre : list vtkDataArray) (a : vtkDataArray) :
  table_of (pre ++ [a])
  = mkTable (InputDataArrays (table_of pre) ++ [Some a])
            (NumberOfComponentsInEachArray (table_of pre) ++ [to_uint (NumberOfComponents a)])
            (NumberOfTuplesInEachArray (table_of pre) ++ [to_uint (NumberOfTuples a)])
            (to_uint (ColumnCounter (table_of pre) + to_uint (NumberOfComponents a))).
Proof. unfold table_of. cbn [InputDataArrays NumberOfComponentsInEachArray NumberOfTuplesInEachArray ColumnCounter].
  now rewrite !map_app, fold_left_app. Qed.

Lemma load_snoc {A : Type} (l : list A) (x : A) (n : nat) (w : World) :
  List.length l = n -> load (l ++ [x]) (Z.of_nat n) w = (Returns x, w).
Proof.
  intros <-. apply load_returns; [lia|].
  rewrite Nat2Z.id, nth_error_app2, Nat.sub_diag by lia. reflexivity.
Qed.

Lemma load_first_count (pre : list vtkDataArray) (a : vtkDataArray) (w : World) :
  load (map (fun a => to_uint (NumberOfTuples a)) pre ++ [to_uint (NumberOfTuples a)]) 0 w
  = (Returns (first_count (pre ++ [a])), w).
Proof. apply load_returns; [lia|]. destruct pre; reflexivity. Qed.

(** One iteration on an array that is there: the process ends when its tuple
    count is not the first array's, and the tables grow by one slot when it
    is. *)
Lemma ScanArray_step (pd : vtkPointData) (pre : list vtkDataArray) (a : vtkDataArray) (w : World) :
  GetArray pd (Z.of_nat (List.length pre)) = Some a ->
  if (0 <? Z.of_nat (List.length pre))
     && negb (to_uint (NumberOfTuples a) =? first_count (pre ++ [a]))
  then ScanArray pd (Z.of_nat (List.length pre)) (table_of pre) w
       = (Exits 1,
          cerr_append endl
            (cerr_append "number of tuples in arrays are not the same."
               (cerr_append "Inconsistent file: " w)))
  else exists w',
       ScanArray pd (Z.of_nat (List.length pre)) (table_of pre) w
       = (Returns (table_of (pre ++ [a])), w') /\ only_cout w w'.
Proof.
  intros Hget.
  assert (Ht : forall x w0,
             load (map (fun a0 => to_uint (NumberOfTuples a0)) pre ++ [x])
                  (Z.of_nat (List.length pre)) w0 = (Returns x, w0))
    by (intros; apply load_snoc, length_map).
  assert (Hc : forall x w0,
             load (map (fun a0 => to_uint (NumberOfComponents a0)) pre ++ [x])
                  (Z.of_nat (List.length pre)) w0 = (Returns x, w0))
    by (intros; apply load_snoc, length_map).
  unfold ScanArray. rewrite Hget. cbv zeta.
  rewrite bind_ret_l. cbn [deref]. rewrite bind_ret_l.
  cbn [NumberOfTuplesInEachArray NumberOfComponentsInEachArray InputDataArrays
       ColumnCounter table_of].
  destruct (0 <? Z.of_nat (List.length pre)) eqn:Epos; cbn [andb].
  - rewrite bind_assoc, (bind_returns _ _ _ _ _ (Ht _ _)).
    rewrite bind_assoc, (bind_returns _ _ _ _ _ (load_first_count _ _ _)).
    destruct (to_uint (NumberOfTuples a) =? first_count (pre ++ [a])) eqn:Eeq; cbn [negb].
    + rewrite bind_ret_l.
      rewrite (bind_returns _ _ _ _ _ (Hc _ _)), (bind_returns _ _ _ _ _ (Ht _ _)).
      rewrite !bind_cout_put. unfold ret. rewrite table_of_snoc.
      eexists. split; [reflexivity | repeat split].
    + rewrite !bind_assoc, !bind_cerr_put. reflexivity.
  - rewrite bind_ret_l.
    rewrite (bind_returns _ _ _ _ _ (Hc _ _)), (bind_returns _ _ _ _ _ (Ht _ _)).
    rewrite !bind_cout_put. unfold ret. rewrite table_of_snoc.
    eexists. split; [reflexivity | repeat split].
Qed.

Lemma first_count_app (l l' : list vtkDataArray) :
  l <> [] -> first_count (l ++ l') = first_count l.
Proof. destruct l; [congruence | reflexivity]. Qed.

(** The iterations over arrays that are there and agree on the tuple count
    fill the tables and write to standard output only. *)
Lemma scan_agreeing (pd : vtkPointData) (mid : list vtkDataArray) :
  forall (pre : list vtkDataArray) (tail : vtkPointData) (w : World),
    pd = map Some (pre ++ mid) ++ tail ->
    counts_agree (pre ++ mid) ->
    exists w',
      for_loop (List.length mid) (Z.of_nat (List.length pre)) (ScanArray pd) (table_of pre) w
      = (Returns (table_of (pre ++ mid)), w') /\ only_cout w w'.
Proof.
  induction mid as [|a mid IH]; intros pre tail w Hpd Hagree.
  - exists w. rewrite app_nil_r. split; [reflexivity | apply only_cout_refl].
  - assert (Hget : GetArray pd (Z.of_nat (List.length pre)) = Some a).
    { rewrite Hpd, map_app. cbn [map]. rewrite <- app_assoc. cbn [app].
      rewrite <- (length_map Some pre) at 1.
      pose proof (GetArray_app_tail pre (Some a) (map Some mid ++ tail)) as G.
      rewrite length_map. exact G. }
    pose proof (ScanArray_step pd pre a w Hget) as Hstep.
    replace (pre ++ a :: mid) with ((pre ++ [a]) ++ mid) in *
      by (rewrite <- app_assoc; reflexivity).
    assert (Heq : to_uint (NumberOfTuples a) = first_count (pre ++ [a])).
    { rewrite <- (first_count_app (pre ++ [a]) mid) by (destruct pre; discriminate).
      unfold counts_agree in Hagree. rewrite Forall_forall in Hagree.
      apply Hagree. apply in_or_app. left. apply in_or_app. right. now left. }
    rewrite Heq, Z.eqb_refl, andb_false_r in Hstep.
    destruct Hstep as (w1 & Hs & Hw1).
    destruct (IH (pre ++ [a]) tail w1 Hpd Hagree) as (w' & Hl & Hw').
    exists w'. split; [|eapply only_cout_trans; eassumption].
    cbn [List.length for_loop]. rewrite (bind_returns _ _ _ _ _ Hs).
    rewrite length_app in Hl. cbn [List.length] in Hl.
    replace (Z.of_nat (List.length pre) + 1) with (Z.of_nat (List.length pre + 1)) by lia.
    exact Hl.
Qed.

(** An iteration on a slot that is NULL: the message, then the null pointer
    is dereferenced. *)
Lemma ScanArray_null (pd : vtkPointData) (i : Z) (t : ArrayTable) (w : World) :
  GetArray pd i = None ->
  ScanArray pd i t w
  = (Undefined,
     cerr_append endl
       (cerr_append " is NULL." (cerr_append (decimal i) (cerr_append "Array " w)))).
Proof.
  intros Hget. unfold ScanArray. rewrite Hget. cbv zeta.
  rewrite !bind_assoc, !bind_cerr_put. reflexivity.
Qed.

Lemma scan_null (good : list vtkDataArray) (tail : vtkPointData) (k : nat) (w : World) :
  counts_agree good ->
  exists w1,
    only_cout w w1 /\
    for_loop (List.length good + S k) 0
             (ScanArray (map Some good ++ None :: tail)) (table_of []) w
    = (Undefined,
       cerr_append endl
         (cerr_append " is NULL."
            (cerr_append (decimal (Z.of_nat (List.length good)))
               (cerr_append "Array " w1)))).
Proof.
  intros Hagree.
  destruct (scan_agreeing (map Some good ++ None :: tail) good [] (None :: tail) w
              eq_refl Hagree) as (w1 & Hl & Hw1).
  exists w1. split; [exact Hw1|].
  rewrite for_loop_app. cbn [List.length Z.of_nat] in Hl.
  rewrite (bind_returns _ _ _ _ _ Hl). cbn [for_loop app].
  apply bind_undefined. rewrite Z.add_0_l. apply ScanArray_null.
  apply GetArray_app_tail.
Qed.

Lemma scan_mismatch (good : list vtkDataArray) (bad : vtkDataArray)
    (tail : vtkPointData) (k : nat) (w : World) :
  good <> [] -> counts_agree good ->
  to_uint (NumberOfTuples bad) <> first_count good ->
  exists w1,
    only_cout w w1 /\
    for_loop (List.length good + S k) 0
             (ScanArray (map Some good ++ Some bad :: tail)) (table_of []) w
    = (Exits 1,
       cerr_append endl
         (cerr_append "number of tuples in arrays are not the same."
            (cerr_append "Inconsistent file: " w1))).
Proof.
  intros Hne Hagree Hbad.
  set (pd := map Some good ++ Some bad :: tail).
  destruct (scan_agreeing pd good [] (Some bad :: tail) w eq_refl Hagree)
    as (w1 & Hl & Hw1).
  exists w1. split; [exact Hw1|].
  rewrite for_loop_app. cbn [List.length Z.of_nat app] in Hl.
  rewrite (bind_returns _ _ _ _ _ Hl). cbn [for_loop].
  apply bind_exits. rewrite Z.add_0_l.
  assert (Hget : GetArray pd (Z.of_nat (List.length good)) = Some bad)
    by apply GetArray_app_tail.
  pose proof (ScanArray_step pd good bad w1 Hget) as Hstep.
  rewrite first_count_app in Hstep by exact Hne.
  replace (0 <? Z.of_nat (List.length good)) with true in Hstep
    by (symmetry; apply Z.ltb_lt; destruct good; [congruence | cbn [List.length]; lia]).
  replace (to_uint (NumberOfTuples bad) =? first_count good) with false in Hstep
    by (symmetry; now apply Z.eqb_neq).
  exact Hstep.
Qed.

(** Every point data is of one of three kinds: all its arrays are there and
    agree; or the first slot the loop stops at is NULL; or it is an array
    whose tuple count is not the first array's. *)
Lemma point_data_cases (pd : vtkPointData) :
  (exists arrays, pd = map Some arrays /\ counts_agree arrays) \/
  (exists good tail, pd = map Some good ++ None :: tail /\ counts_agree good) \/
  (exists good bad tail,
      pd = map Some good ++ Some bad :: tail /\ good <> [] /\ counts_agree good /\
      to_uint (NumberOfTuples bad) <> first_count good).
Proof.
  induction pd as [|p pd' IH] using rev_ind.
  - left. exists []. split; [reflexivity | constructor].
  - destruct IH as [(arrays & -> & Hagree) | [(good & tail & -> & Hagree)
                   | (good & bad & tail & -> & Hne & Hagree & Hbad)]].
    + destruct p as [a|].
      * destruct arrays as [|a0 arrays'] eqn:E.
        { left. exists [a]. split; [reflexivity|]. constructor; [reflexivity | constructor]. }
        rewrite <- E in *. assert (Hne : arrays <> []) by (subst; discriminate).
        destruct (Z.eq_dec (to_uint (NumberOfTuples a)) (first_count arrays)) as [Heq | Hneq].
        { left. exists (arrays ++ [a]). split; [now rewrite map_app|].
          unfold counts_agree in *. rewrite first_count_app by exact Hne.
          apply Forall_app. split; [exact Hagree | constructor; [exact Heq | constructor]]. }
        { right. right. exists arrays, a, []. auto. }
      * right. left. exists arrays, []. auto.
    + right. left. exists good, (tail ++ [p]). split; [|exact Hagree].
      now rewrite <- app_assoc.
    + right. right. exists good, bad, (tail ++ [p]). repeat split; auto.
      now rewrite <- app_assoc.
Qed.

(* ================================================================== *)
(** * The whole conversion *)

Lemma scan_count (pd : vtkPointData) :
  Z.of_nat (List.length pd) <= INT_MAX ->
  Z.to_nat (to_uint (GetNumberOfArrays pd)) = List.length pd.
Proof.
  intros H. unfold GetNumberOfArrays, INT_MAX in *.
  rewrite to_uint_small by lia. apply Nat2Z.id.
Qed.

Lemma OpenFile_creatable (path : string) (mode : bool) (w : World) :
  creatable w (c_str path) = true ->
  OpenFile path mode closed_stream w
  = (Returns (mkStream (Some (c_str path)) DECIMAL_PRECISION []),
     file_stored (c_str path) [] w).
Proof.
  intros H. unfold OpenFile, bind, stream_open. destruct mode; cbn [negb]; now rewrite H.
Qed.

Lemma OpenFile_refused (path : string) (mode : bool) (w : World) :
  creatable w (c_str path) = false ->
  OpenFile path mode closed_stream w
  = (Exits 1,
     cerr_append endl
       (cerr_append (c_str path) (cerr_append "Can not open output file: " w))).
Proof.
  intros H. unfold OpenFile, bind, stream_open. destruct mode; cbn [negb]; now rewrite H.
Qed.

Lemma store_file_same (path : string) (data : list byte) (d : string -> option (list byte)) :
  store_file path data d path = Some data.
Proof. unfold store_file. now rewrite String.eqb_refl. Qed.

Lemma store_file_other (path q : string) (data : list byte) (d : string -> option (list byte)) :
  q <> path -> store_file path data d q = d q.
Proof. intros H. unfold store_file. apply String.eqb_neq in H. now rewrite H. Qed.

(** When the validation pass goes through and the serializer sends [data],
    the conversion returns and the output file holds [data]. *)
Lemma conversion_stores (host : endianness) (arrays : list vtkDataArray)
    (path : string) (mode : bool) (data : list byte) (w : World) :
  arrays <> [] ->
  Z.of_nat (List.length arrays) <= INT_MAX ->
  counts_agree arrays ->
  creatable w (c_str path) = true ->
  (forall w1, exists w2,
      serializer host mode arrays (mkStream (Some (c_str path)) DECIMAL_PRECISION []) w1
      = (Returns (mkStream (Some (c_str path)) DECIMAL_PRECISION data), w2)
      /\ only_cout w1 w2) ->
  exists w',
    WriteArraysToOutputFile host (map Some arrays) path mode w = (Returns tt, w') /\
    disk w' (c_str path) = Some data /\
    (forall q, q <> c_str path -> disk w' q = disk w q) /\
    cerr w' = cerr w /\ creatable w' = creatable w.
Proof.
  intros Hne Hlen Hagree Hopen Hser.
  assert (Hpos : 1 <= Z.of_nat (List.length arrays))
    by (destruct arrays; [congruence | cbn [List.length]; lia]).
  assert (Hrows : forall w0,
             load (map (fun a => to_uint (NumberOfTuples a)) arrays) 0 w0
             = (Returns (first_count arrays), w0)).
  { intros w0. apply load_returns; [lia|]. destruct arrays; [congruence | reflexivity]. }
  unfold WriteArraysToOutputFile. cbv zeta.
  assert (HN : GetNumberOfArrays (map Some arrays) = Z.of_nat (List.length arrays))
    by (unfold GetNumberOfArrays; now rewrite length_map).
  rewrite HN.
  replace (Z.of_nat (List.length arrays) <? 1) with false
    by (symmetry; apply Z.ltb_ge; lia).
  rewrite bind_ret_l. unfold for_upto.
  unfold INT_MAX in Hlen. rewrite to_uint_small by lia. rewrite Nat2Z.id.
  destruct (scan_agreeing (map Some arrays) arrays [] [] w
              (eq_sym (app_nil_r _)) Hagree) as (w1 & Hscan & (Hc1 & Hd1 & Hp1)).
  cbn [List.length Z.of_nat app] in Hscan.
  change (mkTable [] [] [] 0) with (table_of []).
  rewrite (bind_returns _ _ _ _ _ Hscan).
  rewrite (bind_returns _ _ _ _ _ (OpenFile_creatable path mode w1
                                     ltac:(rewrite Hp1; exact Hopen))).
  destruct (Hser (file_stored (c_str path) [] w1)) as (w2 & Hw & (Hc2 & Hd2 & Hp2)).
  unfold serializer in Hw. cbn [table_of InputDataArrays NumberOfComponentsInEachArray
                                 NumberOfTuplesInEachArray ColumnCounter].
  rewrite (bind_returns _ _ _ _ _ Hw).
  rewrite !bind_cout_put.
  rewrite (bind_returns _ _ _ _ _ (Hrows _)).
  rewrite !bind_cout_put.
  unfold bind, stream_close, ret. cbn [file precision written].
  eexists. split; [reflexivity|].
  cbn [disk cerr creatable file_stored cout_append].
  rewrite Hc2, Hp2, Hd2. cbn [disk cerr creatable file_stored]. rewrite Hc1, Hp1, Hd1.
  repeat split.
  - apply store_file_same.
  - intros q Hq. now rewrite !store_file_other by exact Hq.
Qed.

Lemma valid_counts_agree (arrays : list vtkDataArray) (m : Z) :
  valid_set arrays m -> counts_agree arrays.
Proof.
  intros (Hne & _ & Hall). unfold counts_agree.
  destruct arrays as [|a0 l]; [constructor|].
  inversion Hall as [|? ? [_ Hm0] _]; subst.
  eapply Forall_impl; [|exact Hall]. cbn beta. intros a [_ Hm].
  cbn [first_count]. now rewrite Hm.
Qed.

(** ** On a valid set the conversion returns, and the output file holds the
    output matrix rendered in the chosen mode. *)
Lemma conversion_valid (host : endianness) (arrays : list vtkDataArray) (m : Z)
    (path : string) (mode : bool) (w : World) :
  valid_set arrays m ->
  creatable w (c_str path) = true ->
  exists w',
    WriteArraysToOutputFile host (map Some arrays) path mode w = (Returns tt, w') /\
    disk w' (c_str path) = Some (expected_output host mode arrays m) /\
    (forall q, q <> c_str path -> disk w' q = disk w q) /\
    cerr w' = cerr w /\ creatable w' = creatable w.
Proof.
  intros Hvalid Hopen.
  pose proof (valid_counts_agree _ _ Hvalid) as Hagree.
  destruct Hvalid as (Hne & Hlen & Hall) eqn:E. clear E.
  apply conversion_stores; auto.
  intros w1. eexists. split; [|apply only_cout_trans with (cout_append "Write to binary file." w1);
                                 apply only_cout_append].
  unfold serializer, expected_output. destruct mode; cbn [negb].
  - rewrite (WriteArraysToBinaryFile_valid arrays m (conj Hne (conj Hlen Hall))).
    reflexivity.
  - rewrite (WriteArraysToASCIIFile_valid arrays m (conj Hne (conj Hlen Hall))).
    reflexivity.
Qed.

(** ** No array at all: the error message and [exit(1)], before the output
    file is opened. *)
Lemma conversion_empty (host : endianness) (path : string) (mode : bool) (w : World) :
  WriteArraysToOutputFile host [] path mode w
  = (Exits 1, cerr_append endl (cerr_append "DataSet has no array." w)).
Proof. reflexivity. Qed.

(** ** A tuple count that is not, as an [unsigned int], the first array's:
    the error message and [exit(1)], before the output file is opened. *)
Lemma conversion_mismatch (host : endianness) (good : list vtkDataArray)
    (bad : vtkDataArray) (tail : vtkPointData) (path : string) (mode : bool) (w : World) :
  good <> [] -> counts_agree good ->
  to_uint (NumberOfTuples bad) <> first_count good ->
  Z.of_nat (List.length (map Some good ++ Some bad :: tail)) <= INT_MAX ->
  exists w1,
    only_cout w w1 /\
    WriteArraysToOutputFile host (map Some good ++ Some bad :: tail) path mode w
    = (Exits 1,
       cerr_append endl
         (cerr_append "number of tuples in arrays are not the same."
            (cerr_append "Inconsistent file: " w1))).
Proof.
  intros Hne Hagree Hbad Hlen.
  destruct (scan_mismatch good bad tail (List.length tail) w Hne Hagree Hbad)
    as (w1 & Hw1 & Hscan).
  exists w1. split; [exact Hw1|].
  unfold WriteArraysToOutputFile. cbv zeta.
  pose proof (scan_count _ Hlen) as Hcount. unfold for_upto. rewrite Hcount.
  unfold GetNumberOfArrays. rewrite length_app, length_map. cbn [List.length].
  replace (Z.of_nat (List.length good + S (List.length tail)) <? 1) with false
    by (symmetry; apply Z.ltb_ge; lia).
  rewrite bind_ret_l. change (mkTable [] [] [] 0) with (table_of []).
  apply bind_exits. exact Hscan.
Qed.

(** ** A slot that is NULL: the message, and then the execution is not
    defined; the output file has not been opened. *)
Lemma conversion_null (host : endianness) (good : list vtkDataArray)
    (tail : vtkPointData) (path : string) (mode : bool) (w : World) :
  counts_agree good ->
  Z.of_nat (List.length (map Some good ++ None :: tail)) <= INT_MAX ->
  exists w1,
    only_cout w w1 /\
    WriteArraysToOutputFile host (map Some good ++ None :: tail) path mode w
    = (Undefined,
       cerr_append endl
         (cerr_append " is NULL."
            (cerr_append (decimal (Z.of_nat (List.length good)))
               (cerr_append "Array " w1)))).
Proof.
  intros Hagree Hlen.
  destruct (scan_null good tail (List.length tail) w Hagree) as (w1 & Hw1 & Hscan).
  exists w1. split; [exact Hw1|].
  unfold WriteArraysToOutputFile. cbv zeta.
  pose proof (scan_count _ Hlen) as Hcount. unfold for_upto. rewrite Hcount.
  unfold GetNumberOfArrays. rewrite length_app, length_map. cbn [List.length].
  replace (Z.of_nat (List.length good + S (List.length tail)) <? 1) with false
    by (symmetry; apply Z.ltb_ge; lia).
  rewrite bind_ret_l. change (mkTable [] [] [] 0) with (table_of []).
  apply bind_undefined. exact Hscan.
Qed.

(** ** The first loop returns only on point data whose arrays are all there
    and agree on the tuple count. *)
Lemma scan_returns_inv (pd : vtkPointData) (t : ArrayTable) (w w1 : World) :
  for_loop (List.length pd) 0 (ScanArray pd) (table_of []) w = (Returns t, w1) ->
  exists arrays, pd = map Some arrays /\ counts_agree arrays.
Proof.
  intros Hret.
  destruct (point_data_cases pd) as [Hok | [(good & tail & Hpd & Hagree)
                                   | (good & bad & tail & Hpd & Hne & Hagree & Hbad)]].
  - exact Hok.
  - exfalso. destruct (scan_null good tail (List.length tail) w Hagree) as (w2 & _ & Hscan).
    rewrite <- Hpd in Hscan.
    assert (Hk : List.length pd = (List.length good + S (List.length tail))%nat)
      by (rewrite Hpd, length_app, length_map; reflexivity).
    rewrite <- Hk in Hscan. congruence.
  - exfalso. destruct (scan_mismatch good bad tail (List.length tail) w Hne Hagree Hbad)
      as (w2 & _ & Hscan).
    rewrite <- Hpd in Hscan.
    assert (Hk : List.length pd = (List.length good + S (List.length tail))%nat)
      by (rewrite Hpd, length_app, length_map; reflexivity).
    rewrite <- Hk in Hscan. congruence.
Qed.

Lemma load_head {A : Type} (x : A) (l : list A) (w : World) :
  load (x :: l) 0 w = (Returns x, w).
Proof. reflexivity. Qed.

(** With no tuple in the first array neither serializer sends a byte. *)
Lemma serializer_zero (host : endianness) (mode : bool) (a0 : vtkDataArray)
    (rest : list vtkDataArray) (os : ofstream) (w : World) :
  NumberOfTuples a0 = 0 ->
  serializer host mode (a0 :: rest) os w
  = (Returns os, cout_append endl (cout_append "Write to binary file." w)).
Proof.
  intros H0. unfold serializer.
  destruct mode; cbn [negb]; unfold WriteArraysToBinaryFile, WriteArraysToASCIIFile;
    rewrite !bind_cout_put; cbn [map];
    rewrite (bind_returns _ _ _ _ _ (load_head _ _ _));
    cbn [deref]; rewrite bind_ret_l; cbv zeta; rewrite H0; reflexivity.
Qed.

(* ================================================================== *)
(** * Two runs side by side *)

Section Alike.

Variable R : World -> World -> Prop.
Hypothesis R_blind : console_blind R.

Lemma alike_ret {A : Type} (a : A) : alike R R (ret a).
Proof. intros w1 w2 H. cbn. auto. Qed.

Lemma alike_exit {A : Type} (R' : World -> World -> Prop) (s : Z) :
  alike R R' (@exit A s).
Proof. intros w1 w2 H. reflexivity. Qed.

Lemma alike_undefined {A : Type} (R' : World -> World -> Prop) :
  alike R R' (@undefined A).
Proof. intros w1 w2 H. exact I. Qed.

Lemma alike_cout_put (s : string) : alike R R (cout_put s).
Proof. intros w1 w2 H. cbn. split; [reflexivity | apply R_blind, H]. Qed.

Lemma alike_cerr_put (s : string) : alike R R (cerr_put s).
Proof. intros w1 w2 H. cbn. split; [reflexivity | apply R_blind, H]. Qed.

Lemma alike_deref {A : Type} (p : option A) : alike R R (deref p).
Proof. destruct p; [apply alike_ret | apply alike_undefined]. Qed.

Lemma alike_load {A : Type} (l : list A) (i : Z) : alike R R (load l i).
Proof. unfold load. destruct (i <? 0); [apply alike_undefined | apply alike_deref]. Qed.

Lemma alike_GetComponent (a : vtkDataArray) (i j : Z) : alike R R (GetComponent a i j).
Proof.
  unfold GetComponent.
  destruct (_ && _); [apply alike_ret | apply alike_undefined].
Qed.

End Alike.

Lemma alike_bind {A B : Type} (R R' R'' : World -> World -> Prop)
    (m : Proc A) (k : A -> Proc B) :
  alike R R' m -> (forall a, alike R' R'' (k a)) -> alike R R'' (bind m k).
Proof.
  intros Hm Hk w1 w2 H. specialize (Hm w1 w2 H). unfold bind.
  destruct (m w1) as [[a1 | s1 |] w1'], (m w2) as [[a2 | s2 |] w2']; try contradiction; auto.
  destruct Hm as [-> HR']. apply Hk. exact HR'.
Qed.

Lemma alike_for_loop {St : Type} (R : World -> World -> Prop)
    (body : Z -> St -> Proc St) :
  (forall i s, alike R R (body i s)) ->
  forall (n : nat) (i : Z) (s : St), alike R R (for_loop n i body s).
Proof.
  intros Hbody. induction n as [|n IH]; intros i s.
  - intros w1 w2 H. cbn. auto.
  - cbn [for_loop]. eapply alike_bind; [apply Hbody | intros s'; apply IH].
Qed.

Ltac alike_step :=
  cbv beta zeta;
  lazymatch goal with
  | |- alike _ _ (for_loop _ _ _ _) => apply alike_for_loop; intros ? ?
  | |- alike _ _ (bind _ _) => eapply alike_bind; [|intros ?]
  | |- alike _ _ (ret _) => apply alike_ret
  | |- alike _ _ (exit _) => apply alike_exit
  | |- alike _ _ undefined => apply alike_undefined
  | |- alike _ _ (cout_put _) => apply alike_cout_put; assumption
  | |- alike _ _ (cerr_put _) => apply alike_cerr_put; assumption
  | |- alike _ _ (deref _) => apply alike_deref
  | |- alike _ _ (load _ _) => apply alike_load
  | |- alike _ _ (GetComponent _ _ _) => apply alike_GetComponent
  | |- alike _ _ (for_upto _ _ _) => unfold for_upto; apply alike_for_loop; intros ? ?
  | |- alike _ _ (if ?c then _ else _) => destruct c
  | |- alike _ _ (match ?p with Some _ => _ | None => _ end) => destruct p
  end.

Section Serializers.

Variable R : World -> World -> Prop.
Hypothesis R_blind : console_blind R.

Lemma alike_WriteArraysToASCIIFile (os : ofstream) (arrays : list (option vtkDataArray))
    (n : Z) (counts : list Z) :
  alike R R (WriteArraysToASCIIFile os arrays n counts).
Proof. unfold WriteArraysToASCIIFile. repeat alike_step. Qed.

Lemma alike_WriteArraysToBinaryFile (host : endianness) (os : ofstream)
    (arrays : list (option vtkDataArray)) (n : Z) (counts : list Z) :
  alike R R (WriteArraysToBinaryFile host os arrays n counts).
Proof. unfold WriteArraysToBinaryFile. repeat alike_step. Qed.

Lemma alike_ScanArray (pd : vtkPointData) (i : Z) (t : ArrayTable) :
  alike R R (ScanArray pd i t).
Proof. unfold ScanArray. repeat alike_step. Qed.

End Serializers.

Lemma same_access_blind (p : string) : console_blind (same_access p).
Proof. intros w1 w2 H s. split; exact H. Qed.

Lemma same_file_blind (p : string) : console_blind (same_file p).
Proof. intros w1 w2 H s. split; exact H. Qed.

Lemma alike_OpenFile (path : string) (mode : bool) :
  alike (same_access (c_str path)) (same_file (c_str path))
        (OpenFile path mode closed_stream).
Proof.
  intros w1 w2 H. unfold same_access in H.
  destruct (creatable w1 (c_str path)) eqn:E1.
  - rewrite (OpenFile_creatable path mode w1 E1).
    rewrite (OpenFile_creatable path mode w2 (eq_sym H)).
    split; [reflexivity|]. split; cbn; [congruence|].
    now rewrite !store_file_same.
  - rewrite (OpenFile_refused path mode w1 E1).
    rewrite (OpenFile_refused path mode w2 (eq_sym H)). reflexivity.
Qed.

Lemma alike_stream_close (p : string) (os : ofstream) :
  alike (same_file p) (same_file p) (stream_close os).
Proof.
  intros w1 w2 [Hc Hd]. unfold stream_close.
  destruct (file os) as [path|]; (split; [reflexivity|]); [|split; assumption].
  split; cbn; [exact Hc|]. unfold store_file.
  destruct (String.eqb p path); [reflexivity | exact Hd].
Qed.

(** Two conversions of the same point data in the same mode, in whatever
    worlds that treat the output path alike. *)
Lemma alike_WriteArraysToOutputFile (host : endianness) (pd : vtkPointData)
    (path : string) (mode : bool) :
  alike (same_access (c_str path)) (same_file (c_str path))
        (WriteArraysToOutputFile host pd path mode).
Proof.
  pose proof (same_access_blind (c_str path)) as B0.
  pose proof (same_file_blind (c_str path)) as B1.
  unfold WriteArraysToOutputFile. cbv zeta.
  apply alike_bind with (R' := same_access (c_str path)).
  { destruct (GetNumberOfArrays pd <? 1); [|apply alike_ret].
    apply alike_bind with (R' := same_access (c_str path));
      [apply alike_cerr_put; exact B0 | intros _].
    apply alike_bind with (R' := same_access (c_str path));
      [apply alike_cerr_put; exact B0 | intros _].
    apply alike_exit. }
  intros _.
  apply alike_bind with (R' := same_access (c_str path)).
  { unfold for_upto. apply alike_for_loop. intros i t. apply alike_ScanArray. exact B0. }
  intros t.
  apply alike_bind with (R' := same_file (c_str path)); [apply alike_OpenFile|].
  intros os.
  apply alike_bind with (R' := same_file (c_str path)).
  { destruct (negb mode);
      [apply alike_WriteArraysToASCIIFile | apply alike_WriteArraysToBinaryFile]; exact B1. }
  intros os'.
  repeat (apply alike_bind with (R' := same_file (c_str path));
          [first [apply alike_cout_put; exact B1 | apply alike_load
                 | apply alike_stream_close] | intros ?]).
  apply alike_ret.
Qed.

(* ================================================================== *)
(** * C strings *)

Lemma uchar_inj (c d : ascii) : uchar c = uchar d -> c = d.
Proof.
  unfold uchar. intros H. apply N2Z.inj in H.
  rewrite <- (ascii_N_embedding c), <- (ascii_N_embedding d). now rewrite H.
Qed.

Lemma uchar_NUL (c : ascii) : uchar c = 0 -> c = NUL.
Proof. intros H. apply uchar_inj. exact H. Qed.

Lemma c_str_idempotent (s : string) : c_str (c_str s) = c_str s.
Proof.
  induction s as [|c s IH]; [reflexivity|].
  cbn [c_str]. destruct (Ascii.eqb c NUL) eqn:E; [reflexivity|].
  cbn [c_str]. now rewrite E, IH.
Qed.

(** [strcmp] is 0 exactly on equal C strings. *)
Lemma strcmp_zero (a : string) : forall b, strcmp a b = 0 <-> c_str a = c_str b.
Proof.
  induction a as [|c a IH]; intros [|d b]; cbn [strcmp c_str].
  - tauto.
  - destruct (Ascii.eqb d NUL) eqn:E.
    + apply Ascii.eqb_eq in E. subst. cbn. tauto.
    + apply Ascii.eqb_neq in E. split; [|discriminate].
      intros H. exfalso. apply E, uchar_NUL. lia.
  - destruct (Ascii.eqb c NUL) eqn:E.
    + apply Ascii.eqb_eq in E. subst. cbn. tauto.
    + apply Ascii.eqb_neq in E. split; [|discriminate].
      intros H. exfalso. apply E, uchar_NUL. lia.
  - destruct (Ascii.eqb c d) eqn:Ecd.
    + apply Ascii.eqb_eq in Ecd. subst d.
      destruct (Ascii.eqb c NUL); [tauto|].
      rewrite IH. split; [intros ->; reflexivity | intros H; now inversion H].
    + apply Ascii.eqb_neq in Ecd. split.
      * intros H. exfalso. apply Ecd, uchar_inj. lia.
      * intros H. exfalso.
        destruct (Ascii.eqb c NUL) eqn:Ec, (Ascii.eqb d NUL) eqn:Ed;
          try discriminate.
        -- apply Ascii.eqb_eq in Ec, Ed. congruence.
        -- inversion H. congruence.
Qed.

Lemma c_str_substring (s : string) :
  c_str s = s -> forall n m, c_str (substring n m s) = substring n m s.
Proof.
  induction s as [|c s IH]; intros H n m.
  - destruct n, m; reflexivity.
  - cbn [c_str] in H. destruct (Ascii.eqb c NUL) eqn:E; [discriminate|].
    inversion H as [Hs]. rewrite Hs.
    destruct n as [|n]; destruct m as [|m]; cbn [substring c_str]; auto.
    now rewrite E, IH.
Qed.

(** The extension read off a file name is a C string. *)
Lemma c_str_extension (f : string) (pos : nat) :
  c_str (substr_from (c_str f) pos) = substr_from (c_str f) pos.
Proof. unfold substr_from. apply c_str_substring, c_str_idempotent. Qed.

Lemma strcmp_literal (ext lit : string) :
  c_str ext = ext -> c_str lit = lit ->
  (strcmp ext lit =? 0) = String.eqb ext lit.
Proof.
  intros He Hl. destruct (String.eqb ext lit) eqn:E.
  - apply String.eqb_eq in E. apply Z.eqb_eq, strcmp_zero. congruence.
  - apply String.eqb_neq in E. apply Z.eqb_neq. rewrite strcmp_zero. congruence.
Qed.

(* ================================================================== *)
(** * The dispatch on the extension *)

Lemma DetermineInputFileType_dotted (InputFilename : string) (FoundLastDot : nat) (w : World) :
  find_last_of (c_str InputFilename) "." = Some FoundLastDot ->
  let ext := substr_from (c_str InputFilename) (FoundLastDot + 1) in
  Z.of_nat (String.length ext) < CHAR_LENGTH ->
  DetermineInputFileType InputFilename w
  = (Returns (if String.eqb ext "vtk" then VTK
              else if String.eqb ext "vti" then VTI
              else if String.eqb ext "VTP" then VTU
              else VTP), w).
Proof.
  intros Hdot ext Hfit. unfold DetermineInputFileType. cbv zeta. rewrite Hdot.
  fold ext. pose proof (c_str_extension InputFilename (FoundLastDot + 1)) as Hc.
  fold ext in Hc.
  assert (Hcpy : strcpy CHAR_LENGTH ext w = (Returns ext, w)).
  { unfold strcpy. rewrite Hc.
    destruct (Z.of_nat (String.length ext) <? CHAR_LENGTH) eqn:E;
      [reflexivity | apply Z.ltb_ge in E; lia]. }
  rewrite (bind_returns _ _ _ _ _ Hcpy).
  rewrite !(strcmp_literal ext) by (exact Hc || reflexivity).
  destruct (String.eqb ext "vtk"); [reflexivity|].
  destruct (String.eqb ext "vti"); [reflexivity|].
  destruct (String.eqb ext "VTP") eqn:E; cbn [negb]; [|reflexivity].
  apply String.eqb_eq in E. rewrite E. reflexivity.
Qed.

(* ================================================================== *)
(** * The command line *)

Section CommandLine.

Variable host : endianness.
Variables rVTK rVTI rVTP rVTU : string -> Proc vtkPointData.

Lemma main_usage (exe : string) (rest : list string) (w : World) :
  (List.length rest < 2)%nat ->
  main host rVTK rVTI rVTP rVTU (exe :: rest) w = (Exits 0, usage_printed exe w).
Proof.
  intros Hlen. unfold main. cbv zeta.
  replace (Z.of_nat (List.length (exe :: rest)) <? 3) with true
    by (symmetry; apply Z.ltb_lt; cbn [List.length]; lia).
  rewrite !bind_assoc. rewrite (bind_returns _ _ _ _ _ (load_head _ _ _)).
  unfold PrintUsage. rewrite !bind_assoc, !bind_cerr_put. reflexivity.
Qed.

Lemma main_flag (exe input output flag : string) (v : Z) (w : World) :
  atoi flag = Some v ->
  main host rVTK rVTI rVTP rVTU [exe; input; output; flag] w
  = if negb (v =? 0) && negb (v =? 1)
    then (Exits 1,
          cerr_append endl (cerr_append "Binary option should be either 0 or 1." w))
    else (ReadDataSetWriteToOutput host rVTK rVTI rVTP rVTU input output (negb (v =? 0)) ;;
          ret EXIT_SUCCESS) w.
Proof.
  intros Hv. unfold main. cbv zeta. cbn [List.length Z.of_nat Pos.of_succ_nat Pos.succ Z.ltb Z.eqb
                                          Z.compare Pos.compare Pos.compare_cont Pos.eqb].
  rewrite bind_ret_l. rewrite !bind_assoc.
  rewrite (bind_returns _ _ _ _ _ (load_returns [exe; input; output; flag] 3 flag _ ltac:(lia) eq_refl)).
  rewrite Hv. cbn [deref]. rewrite !bind_assoc, bind_ret_l.
  destruct (negb (v =? 0) && negb (v =? 1)).
  - rewrite !bind_assoc, !bind_cerr_put. reflexivity.
  - rewrite bind_ret_l.
    rewrite (bind_returns _ _ _ _ _ (load_returns [exe; input; output; flag] 1 input _ ltac:(lia) eq_refl)).
    rewrite (bind_returns _ _ _ _ _ (load_returns [exe; input; output; flag] 2 output _ ltac:(lia) eq_refl)).
    reflexivity.
Qed.

Lemma main_default (exe input output : string) (rest : list string) (w : World) :
  List.length rest <> 1%nat ->
  main host rVTK rVTI rVTP rVTU (exe :: input :: output :: rest) w
  = (ReadDataSetWriteToOutput host rVTK rVTI rVTP rVTU input output false ;;
     ret EXIT_SUCCESS) w.
Proof.
  intros Hlen. unfold main. cbv zeta.
  replace (Z.of_nat (List.length (exe :: input :: output :: rest)) <? 3) with false
    by (symmetry; apply Z.ltb_ge; cbn [List.length]; lia).
  replace (Z.of_nat (List.length (exe :: input :: output :: rest)) =? 4) with false
    by (symmetry; apply Z.eqb_neq; cbn [List.length]; lia).
  rewrite !bind_ret_l.
  rewrite (bind_returns _ _ _ _ _ (load_returns (exe :: input :: output :: rest) 1 input _ ltac:(lia) eq_refl)).
  rewrite (bind_returns _ _ _ _ _ (load_returns (exe :: input :: output :: rest) 2 output _ ltac:(lia) eq_refl)).
  reflexivity.
Qed.

End CommandLine.

(* ================================================================== *)
(** * Sample inputs are valid *)

Lemma array_of_tuples_well_formed (name : string) (n : Z) (tuples : list (list double)) :
  1 <= n <= INT_MAX ->
  Z.of_nat (List.length tuples) <= VTK_ID_MAX ->
  Forall (Forall (fun v => 0 <= v < 2 ^ 64)) tuples ->
  well_formed (array_of_tuples name n tuples).
Proof.
  intros Hn Hm Hall. unfold well_formed, array_of_tuples.
  cbn [NumberOfComponents NumberOfTuples Component].
  split; [exact Hn|]. split; [lia|]. intros i j.
  destruct (nth_in_or_default (Z.to_nat i) tuples []) as [Hin | ->].
  - rewrite Forall_forall in Hall. specialize (Hall _ Hin).
    destruct (nth_in_or_default (Z.to_nat j) (nth (Z.to_nat i) tuples []) 0) as [Hin' | ->].
    + rewrite Forall_forall in Hall. exact (Hall _ Hin').
    + lia.
  - destruct (Z.to_nat j); cbn; lia.
Qed.

Lemma valid_AB : valid_set [ArrayA; ArrayB] 2.
Proof.
  unfold valid_set. split; [discriminate|]. split; [cbn; unfold INT_MAX; lia|].
  repeat constructor; try (apply array_of_tuples_well_formed);
    unfold INT_MAX, VTK_ID_MAX, dbl_1, dbl_2, dbl_3, dbl_4, dbl_5, dbl_6;
    cbn [List.length Z.of_nat]; repeat constructor; try lia.
Qed.

Lemma valid_single (name : string) (v : double) :
  0 <= v < 2 ^ 64 -> valid_set [array_of_tuples name 1 [[v]]] 1.
Proof.
  intros Hv. unfold valid_set. split; [discriminate|]. split; [cbn; unfold INT_MAX; lia|].
  repeat constructor; try (apply array_of_tuples_well_formed);
    unfold INT_MAX, VTK_ID_MAX; cbn [List.length Z.of_nat]; repeat constructor; try lia.
Qed.

(* ================================================================== *)
(** * The statements of the specification, C1 to C10 *)

(** C1. For a valid ArraySet of [m] tuples per array and [n] components in
    all, the text serializer sends [m] lines with [m - 1] line feeds between
    them and none after the last; cutting line [r] at the tabs gives exactly
    the [n] printed values of row [r], so there is one tab between every two
    neighbouring fields, with nothing else at the boundary of two arrays.
    Nothing is sent when [m = 0]. *)
Theorem C1_text_lines_and_fields (arrays : list vtkDataArray) (m : Z)
    (os : ofstream) (w : World) :
  valid_set arrays m -> is_open os = true ->
  exists text,
    WriteArraysToASCIIFile os (map Some arrays) (Z.of_nat (List.length arrays))
      (map (fun a => to_uint (NumberOfComponents a)) arrays) w
    = (Returns (mkStream (file os) (precision os) (written os ++ text)),
       cout_append endl (cout_append "Write to binary file." w)) /\
    (m = 0 -> text = []) /\
    (0 < m ->
     Z.of_nat (List.length (split_on LF text)) = m /\
     Z.of_nat (count_byte LF text) = m - 1 /\
     (forall front, text <> front ++ [LF]) /\
     forall r, 0 <= r < m ->
       let line := nth (Z.to_nat r) (split_on LF text) [] in
       split_on TAB line = map (field_text (precision os)) (row_values arrays r) /\
       Z.of_nat (List.length (split_on TAB line)) = totalComponents arrays /\
       Z.of_nat (count_byte TAB line) = totalComponents arrays - 1).
Proof.
  intros Hvalid Hopen.
  exists (text_of_matrix (precision os) (OutputMatrix arrays m)).
  pose proof (valid_components_nonneg _ _ Hvalid) as Hnn.
  pose proof (valid_total_positive _ _ Hvalid) as Hn.
  split; [|split].
  - rewrite (WriteArraysToASCIIFile_valid arrays m Hvalid).
    unfold stream_write. now rewrite Hopen.
  - intros ->. reflexivity.
  - intros Hm.
    assert (Hrows : OutputMatrix arrays m <> []).
    { intros E. apply (f_equal (@List.length _)) in E.
      rewrite OutputMatrix_length in E. cbn in E. lia. }
    assert (Hrow : forall r, row_values arrays r <> []).
    { intros r E. apply (f_equal (@List.length _)) in E.
      pose proof (row_values_length arrays r Hnn) as Hlen.
      rewrite E in Hlen. cbn in Hlen. lia. }
    rewrite split_text_of_matrix by exact Hrows.
    rewrite length_map, OutputMatrix_length, count_LF_text_of_matrix, OutputMatrix_length.
    split; [lia|]. split; [lia|]. split.
    + apply text_of_matrix_no_trailing_LF. apply Forall_forall.
      intros row Hin. unfold OutputMatrix in Hin. apply in_map_iff in Hin.
      destruct Hin as (r & <- & _). apply Hrow.
    + intros r Hr line. subst line.
      rewrite (nth_indep _ [] (line_text (precision os) []))
        by (rewrite length_map, OutputMatrix_length; lia).
      rewrite (map_nth (line_text (precision os))), OutputMatrix_nth by exact Hr.
      rewrite split_line_text by apply Hrow.
      rewrite length_map, count_TAB_line_text, row_values_length by exact Hnn.
      split; [reflexivity|]. split; [reflexivity|].
      pose proof (row_values_length arrays r Hnn) as Hlen. lia.
Qed.

(** C1 on the arrays A and B: two lines of three fields. *)
Lemma C1_text_lines_and_fields_witness :
  exists text,
    fst (WriteArraysToASCIIFile (mkStream (Some "out.raw"%string) 16 [])
           [Some ArrayA; Some ArrayB] 2 [2; 1] fresh_world)
    = Returns (mkStream (Some "out.raw"%string) 16 text) /\
    List.length (split_on LF text) = 2%nat /\ count_byte LF text = 1%nat.
Proof.
  destruct (C1_text_lines_and_fields [ArrayA; ArrayB] 2
              (mkStream (Some "out.raw"%string) 16 []) fresh_world valid_AB eq_refl)
    as (text & Hrun & _ & Hshape).
  exists text. destruct (Hshape ltac:(lia)) as (Hl & Hc & _).
  split; [|split; lia].
  change (map Some [ArrayA; ArrayB]) with [Some ArrayA; Some ArrayB] in Hrun.
  change (Z.of_nat (List.length [ArrayA; ArrayB])) with 2 in Hrun.
  change (map (fun a => to_uint (NumberOfComponents a)) [ArrayA; ArrayB]) with [2; 1] in Hrun.
  rewrite Hrun. reflexivity.
Defined.

Lemma valid_values_in_range (arrays : list vtkDataArray) (m : Z) :
  valid_set arrays m ->
  Forall (fun v => 0 <= v < 2 ^ 64) (List.concat (OutputMatrix arrays m)).
Proof.
  intros (_ & _ & Hall). apply Forall_forall. intros v Hin.
  apply in_concat in Hin. destruct Hin as (row & Hrow & Hv).
  unfold OutputMatrix in Hrow. apply in_map_iff in Hrow. destruct Hrow as (r & <- & _).
  unfold row_values in Hv. apply in_flat_map in Hv. destruct Hv as (a & Ha & Hv).
  unfold tuple_values in Hv. apply in_map_iff in Hv. destruct Hv as (c & <- & _).
  rewrite Forall_forall in Hall. destruct (Hall a Ha) as [(_ & _ & Hrange) _].
  apply Hrange.
Qed.

Lemma OutputMatrix_row_lengths (arrays : list vtkDataArray) (m : Z) :
  Forall (fun a => 0 <= NumberOfComponents a) arrays ->
  Forall (fun row => List.length row = Z.to_nat (totalComponents arrays))
         (OutputMatrix arrays m).
Proof.
  intros Hnn. apply Forall_forall. intros row Hin.
  unfold OutputMatrix in Hin. apply in_map_iff in Hin. destruct Hin as (r & <- & _).
  rewrite <- (row_values_length arrays r Hnn). now rewrite Nat2Z.id.
Qed.

(** Reading the binary rendering of the output matrix back, as rows of
    [totalComponents] doubles, gives the output matrix. *)
Lemma read_binary_of_matrix (host : endianness) (arrays : list vtkDataArray) (m : Z) :
  valid_set arrays m ->
  rows_of (Z.to_nat (totalComponents arrays)) (Z.to_nat m)
    (read_doubles host (Z.to_nat (m * totalComponents arrays))
       (binary_of_matrix host (OutputMatrix arrays m)))
  = OutputMatrix arrays m.
Proof.
  intros Hvalid.
  pose proof (valid_components_nonneg _ _ Hvalid) as Hnn.
  pose proof (valid_total_positive _ _ Hvalid) as Hn.
  pose proof (valid_rows arrays m Hvalid) as Hm.
  pose proof (OutputMatrix_row_lengths arrays m Hnn) as Hlens.
  pose proof (concat_rows_length _ _ Hlens) as Hcat.
  rewrite OutputMatrix_length in Hcat.
  replace (Z.to_nat (m * totalComponents arrays))
    with (List.length (List.concat (OutputMatrix arrays m)))
    by (rewrite Hcat; lia).
  unfold binary_of_matrix.
  rewrite read_doubles_written by (eapply valid_values_in_range; exact Hvalid).
  rewrite <- (OutputMatrix_length arrays m) at 1.
  apply rows_of_concat. exact Hlens.
Qed.

(** C2. For a valid ArraySet of [m] tuples per array and [n] components in
    all, the binary serializer sends [m * n * 8] bytes: the eight bytes of
    each double in the byte order of the host, the rows of the output matrix
    one after the other, and nothing else.  Read back as rows of [n] doubles
    they are the output matrix, whose row [r] printed is line [r] of what the
    text serializer sends: the two orders of values are the same. *)
Theorem C2_binary_doubles_in_text_order (host : endianness)
    (arrays : list vtkDataArray) (m : Z) (os : ofstream) (w : World) :
  valid_set arrays m -> is_open os = true ->
  exists data text,
    WriteArraysToBinaryFile host os (map Some arrays) (Z.of_nat (List.length arrays))
      (map (fun a => to_uint (NumberOfComponents a)) arrays) w
    = (Returns (mkStream (file os) (precision os) (written os ++ data)),
       cout_append endl (cout_append "Write to binary file." w)) /\
    WriteArraysToASCIIFile os (map Some arrays) (Z.of_nat (List.length arrays))
      (map (fun a => to_uint (NumberOfComponents a)) arrays) w
    = (Returns (mkStream (file os) (precision os) (written os ++ text)),
       cout_append endl (cout_append "Write to binary file." w)) /\
    Z.of_nat (List.length data) = m * totalComponents arrays * 8 /\
    data = flat_map (object_bytes host) (List.concat (OutputMatrix arrays m)) /\
    let values :=
      rows_of (Z.to_nat (totalComponents arrays)) (Z.to_nat m)
        (read_doubles host (Z.to_nat (m * totalComponents arrays)) data) in
    values = OutputMatrix arrays m /\
    forall r, 0 <= r < m ->
      nth (Z.to_nat r) values [] = row_values arrays r /\
      split_on TAB (nth (Z.to_nat r) (split_on LF text) [])
      = map (field_text (precision os)) (nth (Z.to_nat r) values []).
Proof.
  intros Hvalid Hopen.
  exists (binary_of_matrix host (OutputMatrix arrays m)),
         (text_of_matrix (precision os) (OutputMatrix arrays m)).
  pose proof (valid_components_nonneg _ _ Hvalid) as Hnn.
  pose proof (valid_total_positive _ _ Hvalid) as Hn.
  pose proof (valid_rows arrays m Hvalid) as Hm.
  split; [|split; [|split; [|split; [|split]]]].
  - rewrite (WriteArraysToBinaryFile_valid arrays m Hvalid).
    unfold stream_write. now rewrite Hopen.
  - rewrite (WriteArraysToASCIIFile_valid arrays m Hvalid).
    unfold stream_write. now rewrite Hopen.
  - unfold binary_of_matrix. rewrite flat_map_object_bytes_length.
    rewrite (concat_rows_length _ _ (OutputMatrix_row_lengths arrays m Hnn)).
    rewrite OutputMatrix_length. lia.
  - reflexivity.
  - apply read_binary_of_matrix. exact Hvalid.
  - intros r Hr. rewrite (read_binary_of_matrix host arrays m Hvalid).
    rewrite OutputMatrix_nth by exact Hr. split; [reflexivity|].
    rewrite split_text_of_matrix.
    + rewrite (nth_indep _ [] (line_text (precision os) []))
        by (rewrite length_map, OutputMatrix_length; lia).
      rewrite (map_nth (line_text (precision os))), OutputMatrix_nth by exact Hr.
      apply split_line_text. intros E. apply (f_equal (@List.length _)) in E.
      pose proof (row_values_length arrays r Hnn) as Hlen.
      rewrite E in Hlen. cbn in Hlen. lia.
    + intros E. apply (f_equal (@List.length _)) in E.
      rewrite OutputMatrix_length in E. cbn in E. lia.
Qed.

(** C2 on the arrays A and B: 48 bytes. *)
Lemma C2_binary_doubles_in_text_order_witness :
  exists data,
    fst (WriteArraysToBinaryFile LittleEndian (mkStream (Some "out.raw"%string) 16 [])
           [Some ArrayA; Some ArrayB] 2 [2; 1] fresh_world)
    = Returns (mkStream (Some "out.raw"%string) 16 data) /\
    List.length data = 48%nat.
Proof.
  destruct (C2_binary_doubles_in_text_order LittleEndian [ArrayA; ArrayB] 2
              (mkStream (Some "out.raw"%string) 16 []) fresh_world valid_AB eq_refl)
    as (data & text & Hrun & _ & Hlen & _).
  exists data. split.
  - change (map Some [ArrayA; ArrayB]) with [Some ArrayA; Some ArrayB] in Hrun.
    change (Z.of_nat (List.length [ArrayA; ArrayB])) with 2 in Hrun.
    change (map (fun a => to_uint (NumberOfComponents a)) [ArrayA; ArrayB]) with [2; 1] in Hrun.
    rewrite Hrun. reflexivity.
  - change (totalComponents [ArrayA; ArrayB]) with 3 in Hlen. lia.
Defined.

(** C3. The arrays A = [[1,2],[3,4]] and B = [[5],[6]]: the text file holds
    the eleven characters 1 TAB 2 TAB 5 LF 3 TAB 4 TAB 6, with no line feed at
    the end, and the binary file the 48 bytes of the doubles 1, 2, 5, 3, 4, 6
    in this order (on a little-endian host each as 00 .. 00 f0 3f and so on). *)
Theorem C3_arrays_A_and_B (host : endianness) (path : string) (w : World) :
  creatable w (c_str path) = true ->
  (exists w',
     WriteArraysToOutputFile host [Some ArrayA; Some ArrayB] path false w = (Returns tt, w') /\
     disk w' (c_str path)
     = Some [x31; x09; x32; x09; x35; x0a; x33; x09; x34; x09; x36]) /\
  (exists w',
     WriteArraysToOutputFile host [Some ArrayA; Some ArrayB] path true w = (Returns tt, w') /\
     disk w' (c_str path)
     = Some (flat_map (object_bytes host) [dbl_1; dbl_2; dbl_5; dbl_3; dbl_4; dbl_6])) /\
  List.length (flat_map (object_bytes host) [dbl_1; dbl_2; dbl_5; dbl_3; dbl_4; dbl_6]) = 48%nat /\
  flat_map (object_bytes LittleEndian) [dbl_1; dbl_2; dbl_5; dbl_3; dbl_4; dbl_6]
  = [x00; x00; x00; x00; x00; x00; xf0; x3f;  x00; x00; x00; x00; x00; x00; x00; x40;
     x00; x00; x00; x00; x00; x00; x14; x40;  x00; x00; x00; x00; x00; x00; x08; x40;
     x00; x00; x00; x00; x00; x00; x10; x40;  x00; x00; x00; x00; x00; x00; x18; x40].
Proof.
  intros Hopen. split; [|split; [|split]].
  - destruct (conversion_valid host [ArrayA; ArrayB] 2 path false w valid_AB Hopen)
      as (w' & Hrun & Hdisk & _).
    exists w'. split; [exact Hrun|]. rewrite Hdisk. f_equal.
  - destruct (conversion_valid host [ArrayA; ArrayB] 2 path true w valid_AB Hopen)
      as (w' & Hrun & Hdisk & _).
    exists w'. split; [exact Hrun|]. rewrite Hdisk. f_equal.
  - destruct host; reflexivity.
  - reflexivity.
Qed.

(** C3 in a world where nothing has been written yet. *)
Lemma C3_arrays_A_and_B_witness :
  exists w',
    WriteArraysToOutputFile LittleEndian [Some ArrayA; Some ArrayB] "out.raw" false fresh_world
    = (Returns tt, w') /\
    disk w' "out.raw"%string = Some [x31; x09; x32; x09; x35; x0a; x33; x09; x34; x09; x36].
Proof.
  exact (proj1 (C3_arrays_A_and_B LittleEndian "out.raw" fresh_world eq_refl)).
Defined.

(** C4, where the code departs from the specification: the tuple counts are
    kept as [unsigned int], so an array of 2^32 tuples after one of none is
    not reported; the conversion returns, with nothing on standard error and
    an empty output file. *)
Theorem C4_tuple_counts_compared_as_unsigned_int :
  NumberOfTuples ArrayHuge <> NumberOfTuples ArrayNone /\
  forall host mode,
    let run := WriteArraysToOutputFile host [Some ArrayNone; Some ArrayHuge] "out.raw" mode
                 fresh_world in
    fst run = Returns tt /\ cerr (snd run) = EmptyString /\
    disk (snd run) "out.raw"%string = Some [].
Proof.
  split; [discriminate|]. intros host mode. destruct host, mode; vm_compute; auto.
Qed.

(** C5, refuted as the specification states it: 0.3 and the next double above
    it are printed alike with 16 significant digits, so the text files of the
    two one-value sets are the same three characters [0.3] while the binary
    files hold different doubles; no way of parsing the text gives back, for
    every valid set, the doubles of the binary file. *)
Lemma C5_counterexample :
  valid_set [ArrayX] 1 /\ valid_set [ArrayY] 1 /\
  converted LittleEndian [ArrayX] false = Some [x30; x2e; x33] /\
  converted LittleEndian [ArrayY] false = Some [x30; x2e; x33] /\
  option_map (read_matrix LittleEndian 1 1) (converted LittleEndian [ArrayX] true)
  = Some [[dbl_03]] /\
  option_map (read_matrix LittleEndian 1 1) (converted LittleEndian [ArrayY] true)
  = Some [[dbl_03_next]] /\
  dbl_03 <> dbl_03_next /\
  ~ (exists parse : list byte -> list (list double),
       forall arrays m, valid_set arrays m ->
         option_map parse (converted LittleEndian arrays false)
         = option_map (read_matrix LittleEndian (totalComponents arrays) m)
                      (converted LittleEndian arrays true)).
Proof.
  assert (HX : valid_set [ArrayX] 1) by (apply valid_single; unfold dbl_03; lia).
  assert (HY : valid_set [ArrayY] 1) by (apply valid_single; unfold dbl_03_next; lia).
  assert (HtX : converted LittleEndian [ArrayX] false = Some [x30; x2e; x33])
    by (vm_compute; reflexivity).
  assert (HtY : converted LittleEndian [ArrayY] false = Some [x30; x2e; x33])
    by (vm_compute; reflexivity).
  assert (HbX : option_map (read_matrix LittleEndian 1 1) (converted LittleEndian [ArrayX] true)
                = Some [[dbl_03]]) by (vm_compute; reflexivity).
  assert (HbY : option_map (read_matrix LittleEndian 1 1) (converted LittleEndian [ArrayY] true)
                = Some [[dbl_03_next]]) by (vm_compute; reflexivity).
  repeat (split; [assumption|]). split; [discriminate|].
  intros (parse & Hparse).
  pose proof (Hparse [ArrayX] 1 HX) as H1. pose proof (Hparse [ArrayY] 1 HY) as H2.
  change (totalComponents [ArrayX]) with 1 in H1.
  change (totalComponents [ArrayY]) with 1 in H2.
  rewrite HbX, HtX in H1. rewrite HbY, HtY in H2. cbn [option_map] in H1, H2.
  rewrite H1 in H2. discriminate.
Qed.

(** C5, amended: for a valid set the text file is the binary file printed.
    Reading the binary file as rows of [totalComponents] doubles and printing
    every double with 16 significant digits, a tab between two fields and a
    line feed between two rows, gives the text file byte for byte: same
    values, same order.  (Two doubles can be printed alike, as above.) *)
Theorem C5_text_is_binary_printed (host : endianness) (arrays : list vtkDataArray)
    (m : Z) (path : string) (w : World) :
  valid_set arrays m ->
  creatable w (c_str path) = true ->
  exists wt wb text data,
    WriteArraysToOutputFile host (map Some arrays) path false w = (Returns tt, wt) /\
    disk wt (c_str path) = Some text /\
    WriteArraysToOutputFile host (map Some arrays) path true w = (Returns tt, wb) /\
    disk wb (c_str path) = Some data /\
    text = text_of_matrix 16 (read_matrix host (totalComponents arrays) m data).
Proof.
  intros Hvalid Hopen.
  destruct (conversion_valid host arrays m path false w Hvalid Hopen)
    as (wt & Hrt & Hdt & _).
  destruct (conversion_valid host arrays m path true w Hvalid Hopen)
    as (wb & Hrb & Hdb & _).
  exists wt, wb, (expected_output host false arrays m), (expected_output host true arrays m).
  repeat (split; [assumption|]).
  unfold expected_output, read_matrix.
  now rewrite (read_binary_of_matrix host arrays m Hvalid).
Qed.

(** C5 amended, on the arrays A and B. *)
Lemma C5_text_is_binary_printed_witness :
  exists text data,
    disk (snd (WriteArraysToOutputFile LittleEndian [Some ArrayA; Some ArrayB]
                 "out.raw" false fresh_world)) "out.raw"%string = Some text /\
    disk (snd (WriteArraysToOutputFile LittleEndian [Some ArrayA; Some ArrayB]
                 "out.raw" true fresh_world)) "out.raw"%string = Some data /\
    text = text_of_matrix 16 (read_matrix LittleEndian 3 2 data).
Proof.
  destruct (C5_text_is_binary_printed LittleEndian [ArrayA; ArrayB] 2 "out.raw"
              fresh_world valid_AB eq_refl)
    as (wt & wb & text & data & Hrt & Hdt & Hrb & Hdb & Heq).
  exists text, data.
  change (map Some [ArrayA; ArrayB]) with [Some ArrayA; Some ArrayB] in Hrt, Hrb.
  rewrite Hrt, Hrb. cbn [snd]. auto.
Defined.


(** C7, where the code departs from the specification: a slot that is NULL is
    reported on standard error, but the process does not end there; the null
    pointer is dereferenced next.  No output file has been opened. *)
Theorem C7_null_slot_is_dereferenced :
  forall host mode,
    let run := WriteArraysToOutputFile host [Some ArrayA; None] "out.raw" mode fresh_world in
    fst run = Undefined /\
    cerr (snd run) = ("Array 1 is NULL." ++ endl)%string /\
    disk (snd run) "out.raw"%string = None.
Proof. intros host mode. destruct host, mode; vm_compute; auto. Qed.

(** C8, refuted as the specification states it, on three counts: with an
    argument missing the usage message is printed but the exit status is 0;
    with an argument too many nothing fails, the conversion runs in text mode
    and [main] returns 0; and a flag that is neither 0 nor 1 ends the program
    with status 1 but with another message than the usage. *)
Lemma C8_counterexample :
  main LittleEndian sample_reader sample_reader sample_reader sample_reader
       ["vtk2raw"; "in.vtk"]%string fresh_world
  = (Exits 0, usage_printed "vtk2raw" fresh_world) /\
  (let run := main LittleEndian sample_reader sample_reader sample_reader sample_reader
                   ["vtk2raw"; "in.vtk"; "out.raw"; "1"; "extra"]%string fresh_world in
   fst run = Returns 0 /\ cerr (snd run) = EmptyString /\
   disk (snd run) "out.raw"%string
   = Some [x31; x09; x32; x09; x35; x0a; x33; x09; x34; x09; x36]) /\
  main LittleEndian sample_reader sample_reader sample_reader sample_reader
       ["vtk2raw"; "in.vtk"; "out.raw"; "2"]%string fresh_world
  = (Exits 1,
     cerr_append endl (cerr_append "Binary option should be either 0 or 1." fresh_world)).
Proof.
  split; [|split].
  - reflexivity.
  - vm_compute. auto.
  - reflexivity.
Qed.

(** C8, amended: the flag is read, with [atoi], only when there are exactly
    three arguments, and has to read as 0 or 1; the mode is text when it
    reads as 0 and whenever it is not read.  With fewer than two arguments
    the usage message is printed and the exit status is 0.  A flag that reads
    as another number ends the program with the message "Binary option should
    be either 0 or 1." and status 1.  With three arguments and a flag that
    reads as 0 or 1, or with two arguments, or with more than three (the flag
    is then not looked at), the conversion runs and [main] returns what it
    leaves, then 0. *)
Theorem C8_command_line (host : endianness)
    (rVTK rVTI rVTP rVTU : string -> Proc vtkPointData)
    (exe : string) (args : list string) (w : World) :
  let main := main host rVTK rVTI rVTP rVTU in
  let convert := ReadDataSetWriteToOutput host rVTK rVTI rVTP rVTU in
  ((List.length args < 2)%nat ->
   main (exe :: args) w = (Exits 0, usage_printed exe w)) /\
  (forall input output flag v,
     args = [input; output; flag] -> atoi flag = Some v -> v <> 0 -> v <> 1 ->
     main (exe :: args) w
     = (Exits 1, cerr_append endl (cerr_append "Binary option should be either 0 or 1." w))) /\
  (forall input output flag v,
     args = [input; output; flag] -> atoi flag = Some v -> v = 0 \/ v = 1 ->
     main (exe :: args) w = (convert input output (v =? 1) ;; ret 0) w) /\
  (forall input output rest,
     args = input :: output :: rest -> List.length rest <> 1%nat ->
     main (exe :: args) w = (convert input output false ;; ret 0) w).
Proof.
  intros main' convert. subst main' convert.
  split; [|split; [|split]].
  - apply main_usage.
  - intros input output flag v -> Hv H0 H1.
    rewrite (main_flag host rVTK rVTI rVTP rVTU exe input output flag v w Hv).
    apply Z.eqb_neq in H0, H1. now rewrite H0, H1.
  - intros input output flag v -> Hv [-> | ->];
      rewrite (main_flag host rVTK rVTI rVTP rVTU exe input output flag _ w Hv);
      reflexivity.
  - intros input output rest -> Hrest. now apply main_default.
Qed.

(** C8 amended, on four command lines. *)
Lemma C8_command_line_witness :
  let main := main LittleEndian sample_reader sample_reader sample_reader sample_reader in
  fst (main ["vtk2raw"]%string fresh_world) = Exits 0 /\
  fst (main ["vtk2raw"; "in.vtk"; "out.raw"; "7"]%string fresh_world) = Exits 1 /\
  fst (main ["vtk2raw"; "in.vtk"; "out.raw"; "1"]%string fresh_world) = Returns 0 /\
  fst (main ["vtk2raw"; "in.vtk"; "out.raw"]%string fresh_world) = Returns 0.
Proof.
  cbv zeta. split; [|split; [|split]].
  - rewrite (proj1 (C8_command_line LittleEndian sample_reader sample_reader sample_reader
                      sample_reader "vtk2raw" [] fresh_world) ltac:(cbn; lia)).
    reflexivity.
  - rewrite (proj1 (proj2 (C8_command_line LittleEndian sample_reader sample_reader
                             sample_reader sample_reader "vtk2raw"
                             ["in.vtk"; "out.raw"; "7"]%string fresh_world))
               "in.vtk"%string "out.raw"%string "7"%string 7 eq_refl eq_refl
               ltac:(lia) ltac:(lia)).
    reflexivity.
  - rewrite (proj1 (proj2 (proj2 (C8_command_line LittleEndian sample_reader sample_reader
                                    sample_reader sample_reader "vtk2raw"
                                    ["in.vtk"; "out.raw"; "1"]%string fresh_world)))
               "in.vtk"%string "out.raw"%string "1"%string 1 eq_refl eq_refl
               ltac:(right; reflexivity)).
    vm_compute. reflexivity.
  - rewrite (proj2 (proj2 (proj2 (C8_command_line LittleEndian sample_reader sample_reader
                                    sample_reader sample_reader "vtk2raw"
                                    ["in.vtk"; "out.raw"]%string fresh_world)))
               "in.vtk"%string "out.raw"%string [] eq_refl ltac:(discriminate)).
    vm_compute. reflexivity.
Defined.

(** C9, where the code departs from the specification: an extension is not
    any string.  One of 255 characters is given the type VTP; one of 256
    characters does not fit the buffer [FileExtension], which is filled by
    [strcpy] without a look at the length, and the call has no defined
    result. *)
Theorem C9_long_extension_is_not_classified :
  forall w,
    DetermineInputFileType ("mesh." ++ zeros 255) w = (Returns VTP, w) /\
    DetermineInputFileType ("mesh." ++ zeros 256) w = (Undefined, w).
Proof. intros w. split; vm_compute; reflexivity. Qed.

(** C10. When the first loop of [WriteArraysToOutputFile] goes through (the
    validation passes) and the first array has no tuple, the conversion
    returns in either mode and leaves an empty output file: neither
    serializer sends a byte. *)
Theorem C10_no_tuples_empty_file (host : endianness) (a0 : vtkDataArray)
    (rest : vtkPointData) (path : string) (mode : bool) (t : ArrayTable) (w w1 : World) :
  let pd := Some a0 :: rest in
  NumberOfTuples a0 = 0 ->
  Z.of_nat (List.length pd) <= INT_MAX ->
  for_upto (to_uint (GetNumberOfArrays pd)) (ScanArray pd) (mkTable [] [] [] 0) w
  = (Returns t, w1) ->
  creatable w (c_str path) = true ->
  exists w',
    WriteArraysToOutputFile host pd path mode w = (Returns tt, w') /\
    disk w' (c_str path) = Some [].
Proof.
  intros pd H0 Hlen Hscan Hopen.
  unfold for_upto in Hscan. rewrite (scan_count pd Hlen) in Hscan.
  change (mkTable [] [] [] 0) with (table_of []) in Hscan.
  destruct (scan_returns_inv pd t w w1 Hscan) as (arrays & Hpd & Hagree).
  destruct arrays as [|a arrays]; [discriminate|].
  subst pd. cbn [map] in Hpd. injection Hpd as Ha Hrest. subst a0.
  destruct (conversion_stores host (a :: arrays) path mode [] w) as (w' & Hrun & Hd & _);
    try assumption; try discriminate.
  - rewrite Hrest in Hlen. cbn [List.length] in *. rewrite length_map in Hlen. exact Hlen.
  - intros w2. eexists. split; [apply serializer_zero; exact H0|].
    apply only_cout_trans with (cout_append "Write to binary file." w2);
      apply only_cout_append.
  - exists w'. rewrite Hrest. auto.
Qed.

(** C10 on an array without tuples, in both modes. *)
Lemma C10_no_tuples_empty_file_witness :
  (exists w',
      WriteArraysToOutputFile LittleEndian [Some ArrayNone] "out.raw" false used_world
      = (Returns tt, w') /\ disk w' "out.raw"%string = Some []) /\
  (exists w',
      WriteArraysToOutputFile LittleEndian [Some ArrayNone] "out.raw" true used_world
      = (Returns tt, w') /\ disk w' "out.raw"%string = Some []).
Proof.
  split.
  - exact (C10_no_tuples_empty_file LittleEndian ArrayNone [] "out.raw" false _ used_world _
             eq_refl ltac:(unfold INT_MAX; cbn; lia) eq_refl eq_refl).
  - exact (C10_no_tuples_empty_file LittleEndian ArrayNone [] "out.raw" true _ used_world _
             eq_refl ltac:(unfold INT_MAX; cbn; lia) eq_refl eq_refl).
Defined.

(* ================================================================== *)
(** * Further properties of the conversion *)

(** The empty point data: [DataSet has no array.] on standard error and
    [exit(1)]; no file is touched. *)
Theorem empty_input_is_an_error (host : endianness) (path : string) (mode : bool) (w : World) :
  WriteArraysToOutputFile host [] path mode w
  = (Exits 1, cerr_append endl (cerr_append "DataSet has no array." w)).
Proof. apply conversion_empty. Qed.

(** The first array whose tuple count is not, as an [unsigned int], that of
    array 0 ends the conversion: the message on standard error and
    [exit(1)], with the files as they were.  The comparison is with array 0,
    not with the array before. *)
Theorem inconsistent_tuple_counts_are_an_error (host : endianness)
    (good : list vtkDataArray) (bad : vtkDataArray) (tail : vtkPointData)
    (path : string) (mode : bool) (w : World) :
  good <> [] -> counts_agree good ->
  to_uint (NumberOfTuples bad) <> first_count good ->
  Z.of_nat (List.length (map Some good ++ Some bad :: tail)) <= INT_MAX ->
  exists w',
    WriteArraysToOutputFile host (map Some good ++ Some bad :: tail) path mode w
    = (Exits 1, w') /\
    disk w' = disk w /\
    cerr w' = (cerr w ++ "Inconsistent file: "
                 ++ "number of tuples in arrays are not the same." ++ endl)%string.
Proof.
  intros Hne Hagree Hbad Hlen.
  destruct (conversion_mismatch host good bad tail path mode w Hne Hagree Hbad Hlen)
    as (w1 & (Hc & Hd & _) & Hrun).
  eexists. split; [exact Hrun|]. cbn [disk cerr cerr_append]. rewrite Hc, Hd.
  split; [reflexivity|].
  generalize (cerr w). intros s. induction s as [|c s IH]; [reflexivity|].
  cbn [append] in *. now rewrite IH.
Qed.

(** Tuple counts 5, 5, 3. *)
Lemma inconsistent_tuple_counts_are_an_error_witness :
  exists w',
    WriteArraysToOutputFile LittleEndian [Some ArrayFive; Some ArrayFive; Some ArrayThree]
      "out.raw" false used_world = (Exits 1, w') /\
    disk w' = disk used_world.
Proof.
  destruct (inconsistent_tuple_counts_are_an_error LittleEndian [ArrayFive; ArrayFive]
              ArrayThree [] "out.raw" false used_world
              ltac:(discriminate) ltac:(repeat constructor) ltac:(discriminate)
              ltac:(unfold INT_MAX; cbn; lia))
    as (w' & Hrun & Hd & _).
  exists w'. split; [exact Hrun | exact Hd].
Defined.

(** When the output file cannot be opened, a valid set is converted to
    nothing: the message on standard error and [exit(1)]. *)
Theorem unwritable_output_is_an_error (host : endianness) (arrays : list vtkDataArray)
    (m : Z) (path : string) (mode : bool) (w : World) :
  valid_set arrays m ->
  creatable w (c_str path) = false ->
  exists w',
    WriteArraysToOutputFile host (map Some arrays) path mode w = (Exits 1, w') /\
    disk w' = disk w /\
    cerr w' = (((cerr w ++ "Can not open output file: ") ++ c_str path) ++ endl)%string.
Proof.
  intros Hvalid Hopen.
  pose proof (valid_counts_agree _ _ Hvalid) as Hagree.
  pose proof (valid_count arrays m Hvalid) as HN. unfold INT_MAX in HN.
  unfold WriteArraysToOutputFile. cbv zeta.
  unfold GetNumberOfArrays. rewrite length_map.
  replace (Z.of_nat (List.length arrays) <? 1) with false
    by (symmetry; apply Z.ltb_ge; lia).
  rewrite bind_ret_l. unfold for_upto. rewrite to_uint_small, Nat2Z.id by lia.
  destruct (scan_agreeing (map Some arrays) arrays [] [] w
              (eq_sym (app_nil_r _)) Hagree) as (w1 & Hscan & (Hc1 & Hd1 & Hp1)).
  cbn [List.length Z.of_nat app] in Hscan.
  change (mkTable [] [] [] 0) with (table_of []).
  rewrite (bind_returns _ _ _ _ _ Hscan).
  rewrite (bind_exits _ _ _ _ _ (OpenFile_refused path mode w1
                                   ltac:(rewrite Hp1; exact Hopen))).
  eexists. split; [reflexivity|]. cbn [disk cerr cerr_append]. now rewrite Hc1, Hd1.
Qed.

(** The arrays A and B where no file can be created. *)
Lemma unwritable_output_is_an_error_witness :
  exists w',
    WriteArraysToOutputFile LittleEndian [Some ArrayA; Some ArrayB] "out.raw" true
      read_only_world = (Exits 1, w') /\
    cerr w' = ("Can not open output file: out.raw" ++ endl)%string.
Proof.
  destruct (unwritable_output_is_an_error LittleEndian [ArrayA; ArrayB] 2 "out.raw" true
              read_only_world valid_AB eq_refl) as (w' & Hrun & _ & Hc).
  exists w'. split; [exact Hrun | exact Hc].
Defined.

Lemma row_values_app (l1 l2 : list vtkDataArray) (r : Z) :
  row_values (l1 ++ l2) r = row_values l1 r ++ row_values l2 r.
Proof. unfold row_values. apply flat_map_app. Qed.

(** Column order.  In the binary file of a valid set, read as rows of
    [totalComponents] doubles, the column of component [c] of an array is the
    sum of the component counts of the arrays before it, plus [c]: the
    double there, in row [r], is component [c] of tuple [r] of that array. *)
Theorem column_of_a_component (host : endianness) (before after : list vtkDataArray)
    (a : vtkDataArray) (m : Z) (path : string) (w : World) (r c : Z) :
  valid_set (before ++ a :: after) m ->
  creatable w (c_str path) = true ->
  0 <= r < m -> 0 <= c < NumberOfComponents a ->
  exists w' data,
    WriteArraysToOutputFile host (map Some (before ++ a :: after)) path true w
    = (Returns tt, w') /\
    disk w' (c_str path) = Some data /\
    nth (Z.to_nat (totalComponents before + c))
        (nth (Z.to_nat r)
             (read_matrix host (totalComponents (before ++ a :: after)) m data) []) 0
    = Component a r c.
Proof.
  intros Hvalid Hopen Hr Hc.
  destruct (conversion_valid host _ m path true w Hvalid Hopen) as (w' & Hrun & Hd & _).
  exists w', (expected_output host true (before ++ a :: after) m).
  split; [exact Hrun|]. split; [exact Hd|].
  unfold expected_output, read_matrix.
  rewrite (read_binary_of_matrix host _ m Hvalid), OutputMatrix_nth by exact Hr.
  pose proof (valid_components_nonneg _ _ Hvalid) as Hnn.
  apply Forall_app in Hnn. destruct Hnn as [Hbefore _].
  pose proof (row_values_length before r Hbefore) as Hlen.
  pose proof (totalComponents_nonneg before Hbefore) as Hpos.
  rewrite row_values_app. rewrite app_nth2 by lia.
  replace (Z.to_nat (totalComponents before + c) - List.length (row_values before r))%nat
    with (Z.to_nat c) by lia.
  change (row_values (a :: after) r) with (tuple_values a r ++ row_values after r).
  rewrite app_nth1 by (rewrite tuple_values_length; lia).
  unfold tuple_values.
  rewrite (nth_indep _ 0 (Component a r 0)) by (rewrite length_map, Zseq_length; lia).
  rewrite (map_nth (Component a r)), Zseq_nth by lia. f_equal. lia.
Qed.

(** The component of B in the arrays A and B is column 2. *)
Lemma column_of_a_component_witness :
  exists data,
    disk (snd (WriteArraysToOutputFile LittleEndian [Some ArrayA; Some ArrayB] "out.raw" true
                 fresh_world)) "out.raw"%string = Some data /\
    nth 2 (nth 1 (read_matrix LittleEndian 3 2 data) []) 0 = dbl_6.
Proof.
  destruct (column_of_a_component LittleEndian [ArrayA] [] ArrayB 2 "out.raw" fresh_world 1 0
              valid_AB eq_refl ltac:(lia) ltac:(cbn; lia))
    as (w' & data & Hrun & Hd & Hcol).
  exists data.
  change (map Some ([ArrayA] ++ [ArrayB])) with [Some ArrayA; Some ArrayB] in Hrun.
  rewrite Hrun. split; [exact Hd | exact Hcol].
Defined.

(** On a valid set the conversion returns; the output file holds the output
    matrix rendered in the mode asked for, every other file is as it was and
    nothing has gone to standard error. *)
Theorem valid_set_is_converted (host : endianness) (arrays : list vtkDataArray) (m : Z)
    (path : string) (mode : bool) (w : World) :
  valid_set arrays m ->
  creatable w (c_str path) = true ->
  exists w',
    WriteArraysToOutputFile host (map Some arrays) path mode w = (Returns tt, w') /\
    disk w' (c_str path)
    = Some (if mode
            then binary_of_matrix host (OutputMatrix arrays m)
            else text_of_matrix DECIMAL_PRECISION (OutputMatrix arrays m)) /\
    (forall q, q <> c_str path -> disk w' q = disk w q) /\
    cerr w' = cerr w.
Proof.
  intros Hvalid Hopen.
  destruct (conversion_valid host arrays m path mode w Hvalid Hopen)
    as (w' & Hrun & Hd & Hothers & Hc & _).
  exists w'. auto.
Qed.

(** The arrays A and B where the output file exists already: it is
    overwritten. *)
Lemma valid_set_is_converted_witness :
  exists w',
    WriteArraysToOutputFile LittleEndian [Some ArrayA; Some ArrayB] "out.raw" false used_world
    = (Returns tt, w') /\
    disk w' "out.raw"%string
    = Some [x31; x09; x32; x09; x35; x0a; x33; x09; x34; x09; x36] /\
    cerr w' = cerr used_world.
Proof.
  destruct (valid_set_is_converted LittleEndian [ArrayA; ArrayB] 2 "out.raw" false
              used_world valid_AB eq_refl) as (w' & Hrun & Hd & _ & Hc).
  exists w'. split; [exact Hrun|]. split; [exact Hd | exact Hc].
Defined.

(* ================================================================== *)
(** * What the model prints for some doubles *)

Example format_one : format_g 16 dbl_1 = "1"%string.
Proof. reflexivity. Qed.

(** 0.1, 1/3, pi *)
Example format_fractions :
  map (format_g 16) [0x3FB999999999999A; 0x3FD5555555555555; 0x400921FB54442D18]
  = ["0.1"; "0.3333333333333333"; "3.141592653589793"]%string.
Proof. reflexivity. Qed.

(** 1e15 is printed in full, 1e16 and 1e22 with an exponent, as are 1e-5 and
    the smallest and the largest finite doubles; 1e-4 is not. *)
Example format_exponents :
  map (format_g 16)
      [0x430C6BF526340000; 0x4341C37937E08000; 0x4480F0CF064DD592; 0x3EE4F8B588E368F1;
       0x3F1A36E2EB1C432D; 0x0000000000000001; 0x7FEFFFFFFFFFFFFF]
  = ["1000000000000000"; "1e+16"; "1e+22"; "1e-05"; "0.0001";
     "4.940656458412465e-324"; "1.797693134862316e+308"]%string.
Proof. vm_compute. reflexivity. Qed.

(** -2, -0, the infinities and a NaN *)
Example format_specials :
  map (format_g 16)
      [0xC000000000000000; 0x8000000000000000; 0x7FF0000000000000; 0xFFF0000000000000;
       0x7FF8000000000000]
  = ["-2"; "-0"; "inf"; "-inf"; "nan"]%string.
Proof. reflexivity. Qed.

(** The default precision of a stream, 6: pi, 1e-5, 1e6, 123456.789 *)
Example format_precision_6 :
  map (format_g 6)
      [0x400921FB54442D18; 0x3EE4F8B588E368F1; 0x412E848000000000; 0x40FE240C9FBE76C9]
  = ["3.14159"; "1e-05"; "1e+06"; "123457"]%string.
Proof. reflexivity. Qed.

Example atoi_examples :
  map atoi [" 12x"; "abc"; "-7"; "+1"; ""; "99999999999"]%string
  = [Some 12; Some 0; Some (-7); Some 1; Some 0; None].
Proof. reflexivity. Qed.

(* ================================================================== *)
(** * How a call can end *)

Lemma string_app_assoc (a b c : string) : ((a ++ b) ++ c = a ++ (b ++ c))%string.
Proof. induction a as [|x a IH]; [reflexivity|]. cbn [append]. now rewrite IH. Qed.

Lemma string_app_nil_r (a : string) : (a ++ "" = a)%string.
Proof. induction a as [|x a IH]; [reflexivity|]. cbn [append]. now rewrite IH. Qed.

Lemma outcome_weaken {A : Type} (Pret Pret' : World -> World -> Prop)
    (Pexit Pexit' : Z -> World -> World -> Prop) (p : Proc A) :
  outcome Pret Pexit p ->
  (forall w w', Pret w w' -> Pret' w w') ->
  (forall s w w', Pexit s w w' -> Pexit' s w w') ->
  outcome Pret' Pexit' p.
Proof.
  intros H Hr He w. specialize (H w). destruct (p w) as [[a|s|] w']; auto.
Qed.

Lemma outcome_bind {A B : Type} (Pr1 Pr2 Pr : World -> World -> Prop)
    (Pe1 Pe2 Pe : Z -> World -> World -> Prop) (m : Proc A) (k : A -> Proc B) :
  outcome Pr1 Pe1 m ->
  (forall a, outcome Pr2 Pe2 (k a)) ->
  (forall w w1 w2, Pr1 w w1 -> Pr2 w1 w2 -> Pr w w2) ->
  (forall s w w1, Pe1 s w w1 -> Pe s w w1) ->
  (forall s w w1 w2, Pr1 w w1 -> Pe2 s w1 w2 -> Pe s w w2) ->
  outcome Pr Pe (bind m k).
Proof.
  intros Hm Hk Hrr He Hre w. unfold bind. specialize (Hm w).
  destruct (m w) as [[a|s|] w1]; auto.
  specialize (Hk a w1). destruct (k a w1) as [[b|s|] w2]; eauto.
Qed.

(** Computations that write to standard output only before they return. *)
Section Quiet.

Variable Pexit : Z -> World -> World -> Prop.
Hypothesis Pexit_later :
  forall s w w1 w2, only_cout w w1 -> Pexit s w1 w2 -> Pexit s w w2.

Lemma quiet_bind {A B : Type} (m : Proc A) (k : A -> Proc B) :
  outcome only_cout Pexit m -> (forall a, outcome only_cout Pexit (k a)) ->
  outcome only_cout Pexit (bind m k).
Proof.
  intros Hm Hk. eapply outcome_bind; eauto using only_cout_trans.
Qed.

Lemma quiet_ret {A : Type} (a : A) : outcome only_cout Pexit (ret a).
Proof. intros w. apply only_cout_refl. Qed.

Lemma quiet_undefined {A : Type} : outcome only_cout Pexit (@undefined A).
Proof. intros w. exact I. Qed.

Lemma quiet_cout_put (s : string) : outcome only_cout Pexit (cout_put s).
Proof. intros w. apply only_cout_append. Qed.

Lemma quiet_deref {A : Type} (p : option A) : outcome only_cout Pexit (deref p).
Proof. destruct p; [apply quiet_ret | apply quiet_undefined]. Qed.

Lemma quiet_load {A : Type} (l : list A) (i : Z) : outcome only_cout Pexit (load l i).
Proof. unfold load. destruct (i <? 0); [apply quiet_undefined | apply quiet_deref]. Qed.

Lemma quiet_GetComponent (a : vtkDataArray) (i j : Z) :
  outcome only_cout Pexit (GetComponent a i j).
Proof.
  unfold GetComponent.
  destruct ((0 <=? i) && (i <? NumberOfTuples a) && (0 <=? j) && (j <? NumberOfComponents a));
    [apply quiet_ret | apply quiet_undefined].
Qed.

Lemma quiet_for_loop {St : Type} (body : Z -> St -> Proc St) :
  (forall i s, outcome only_cout Pexit (body i s)) ->
  forall (n : nat) (i : Z) (s : St), outcome only_cout Pexit (for_loop n i body s).
Proof.
  intros Hbody. induction n as [|n IH]; intros i s; cbn [for_loop].
  - apply quiet_ret.
  - apply quiet_bind; [apply Hbody | intros s'; apply IH].
Qed.

End Quiet.

Ltac quiet_step :=
  cbv beta zeta;
  lazymatch goal with
  | |- outcome _ _ (for_loop _ _ _ _) => apply quiet_for_loop; [assumption|]; intros ? ?
  | |- outcome _ _ (for_upto _ _ _) =>
      unfold for_upto; apply quiet_for_loop; [assumption|]; intros ? ?
  | |- outcome _ _ (bind _ _) => apply quiet_bind; [assumption| |intros ?]
  | |- outcome _ _ (ret _) => apply quiet_ret
  | |- outcome _ _ undefined => apply quiet_undefined
  | |- outcome _ _ (cout_put _) => apply quiet_cout_put
  | |- outcome _ _ (deref _) => apply quiet_deref
  | |- outcome _ _ (load _ _) => apply quiet_load
  | |- outcome _ _ (GetComponent _ _ _) => apply quiet_GetComponent
  | |- outcome _ _ (if ?c then _ else _) => destruct c
  end.

Lemma never_later (s : Z) (w w1 w2 : World) : only_cout w w1 -> never s w1 w2 -> never s w w2.
Proof. intros _ H. exact H. Qed.

(** The serializers write to standard output and to the stream they are
    given: they open no file and never call [exit]. *)
Lemma WriteArraysToASCIIFile_quiet (os : ofstream) (arrays : list (option vtkDataArray))
    (n : Z) (counts : list Z) :
  outcome only_cout never (WriteArraysToASCIIFile os arrays n counts).
Proof.
  pose proof never_later as Hl.
  unfold WriteArraysToASCIIFile. repeat quiet_step.
Qed.

Lemma WriteArraysToBinaryFile_quiet (host : endianness) (os : ofstream)
    (arrays : list (option vtkDataArray)) (n : Z) (counts : list Z) :
  outcome only_cout never (WriteArraysToBinaryFile host os arrays n counts).
Proof.
  pose proof never_later as Hl.
  unfold WriteArraysToBinaryFile. repeat quiet_step.
Qed.

Lemma error_exit_later (path : string) (s : Z) (w w1 w2 : World) :
  only_cout w w1 -> error_exit path s w1 w2 -> error_exit path s w w2.
Proof.
  intros (Hc & Hd & Hp) (Hs & Hd' & Hp' & msg & Hm & Hcases).
  repeat split; try congruence. exists msg. split; [congruence | exact Hcases].
Qed.

(** One iteration of the validation loop, whatever the point data and the
    tables: it returns with standard output written to, or it ends the
    program on a tuple count that is not the first array's. *)
Lemma ScanArray_outcome (path : string) (pd : vtkPointData) (i : Z) (t : ArrayTable) :
  outcome only_cout (error_exit path) (ScanArray pd i t).
Proof.
  pose proof (error_exit_later path) as Hl.
  destruct (GetArray pd i) as [a|] eqn:Hget.
  - unfold ScanArray. rewrite Hget. cbv zeta.
    apply quiet_bind; [assumption | apply quiet_ret | intros _].
    apply quiet_bind; [assumption | apply quiet_deref | intros a'].
    apply quiet_bind; [assumption | | intros _; repeat quiet_step].
    destruct (0 <? i); [|apply quiet_ret].
    apply quiet_bind; [assumption | apply quiet_load | intros here].
    apply quiet_bind; [assumption | apply quiet_load | intros first].
    destruct (negb (here =? first)); [|apply quiet_ret].
    intros w. rewrite !bind_cerr_put. unfold exit.
    repeat split.
    exists "Inconsistent file: number of tuples in arrays are not the same."%string.
    split; [|auto]. cbn [cerr cerr_append]. now rewrite !string_app_assoc.
  - intros w. now rewrite (ScanArray_null pd i t w Hget).
Qed.

(** Opening the output file either succeeds or ends the program. *)
Lemma OpenFile_outcome (path : string) (mode : bool) :
  outcome anywhere (error_exit path) (OpenFile path mode closed_stream).
Proof.
  intros w. destruct (creatable w (c_str path)) eqn:E.
  - now rewrite (OpenFile_creatable path mode w E).
  - rewrite (OpenFile_refused path mode w E). repeat split.
    exists ("Can not open output file: " ++ c_str path)%string. split; [|auto].
    cbn [cerr cerr_append]. now rewrite !string_app_assoc.
Qed.

Lemma stream_close_outcome (os : ofstream) : outcome anywhere never (stream_close os).
Proof. intros w. unfold stream_close. destruct (file os); exact I. Qed.

Lemma WriteArraysToOutputFile_outcome (host : endianness) (pd : vtkPointData)
    (path : string) (mode : bool) :
  outcome anywhere (error_exit path) (WriteArraysToOutputFile host pd path mode).
Proof.
  pose proof (error_exit_later path) as Hl.
  unfold WriteArraysToOutputFile. cbv zeta.
  apply outcome_bind with (Pr1 := only_cout) (Pr2 := anywhere)
                          (Pe1 := error_exit path) (Pe2 := error_exit path);
    [| intros _ | easy | easy | exact Hl].
  { destruct (GetNumberOfArrays pd <? 1); [|apply quiet_ret].
    intros w. rewrite !bind_cerr_put. unfold exit. repeat split.
    exists "DataSet has no array."%string. split; [|auto].
    cbn [cerr cerr_append]. now rewrite !string_app_assoc. }
  apply outcome_bind with (Pr1 := only_cout) (Pr2 := anywhere)
                          (Pe1 := error_exit path) (Pe2 := error_exit path);
    [| intros t | easy | easy | exact Hl].
  { unfold for_upto. apply quiet_for_loop; [exact Hl|]. intros i t.
    apply ScanArray_outcome. }
  apply outcome_bind with (Pr1 := anywhere) (Pr2 := anywhere)
                          (Pe1 := error_exit path) (Pe2 := never);
    [apply OpenFile_outcome | intros os | easy | easy | easy].
  assert (Hq : forall A (p : Proc A), outcome only_cout never p -> outcome anywhere never p)
    by (intros A p Hp; eapply outcome_weaken; [exact Hp | easy | easy]).
  pose proof never_later as Hn.
  apply outcome_bind with (Pr1 := anywhere) (Pr2 := anywhere) (Pe1 := never) (Pe2 := never);
    [| intros os' | easy | easy | easy].
  { apply Hq. destruct (negb mode);
      [apply WriteArraysToASCIIFile_quiet | apply WriteArraysToBinaryFile_quiet]. }
  repeat (apply outcome_bind with (Pr1 := anywhere) (Pr2 := anywhere)
                                  (Pe1 := never) (Pe2 := never);
          [first [apply stream_close_outcome | apply Hq; quiet_step]
          | intros ? | easy | easy | easy]).
  apply Hq. apply quiet_ret.
Qed.

(* ================================================================== *)
(** * Error exits *)

(** Whatever the point data, when [WriteArraysToOutputFile] ends the program
    the status is 1, no file has been created or changed and standard error
    has received one line, one of three: no array in the data set, a tuple
    count that is not the first array's, or an output file that cannot be
    opened.  The checks come before the output file is opened, and nothing
    calls [exit] once it is. *)
Theorem an_error_exit_changes_no_file (host : endianness) (pd : vtkPointData)
    (path : string) (mode : bool) (w w' : World) (status : Z) :
  WriteArraysToOutputFile host pd path mode w = (Exits status, w') ->
  status = 1 /\ disk w' = disk w /\
  exists message,
    cerr w' = (cerr w ++ message ++ endl)%string /\
    (message = "DataSet has no array."%string \/
     message = "Inconsistent file: number of tuples in arrays are not the same."%string \/
     message = ("Can not open output file: " ++ c_str path)%string).
Proof.
  intros Hrun. pose proof (WriteArraysToOutputFile_outcome host pd path mode w) as H.
  rewrite Hrun in H. destruct H as (Hs & Hd & _ & Hmsg). auto.
Qed.

(** Tuple counts 5 and 3, the output file being there already. *)
Lemma an_error_exit_changes_no_file_witness :
  let run := WriteArraysToOutputFile LittleEndian [Some ArrayFive; Some ArrayThree]
               "out.raw" true used_world in
  fst run = Exits 1 /\ disk (snd run) = disk used_world.
Proof.
  cbv zeta.
  destruct (WriteArraysToOutputFile LittleEndian [Some ArrayFive; Some ArrayThree]
              "out.raw" true used_world) as [r w'] eqn:Hrun.
  assert (Hr : r = Exits 1) by (apply (f_equal fst) in Hrun; vm_compute in Hrun; congruence).
  subst r.
  destruct (an_error_exit_changes_no_file _ _ _ _ _ _ _ Hrun) as (_ & Hd & _).
  split; [reflexivity | exact Hd].
Defined.

(* ================================================================== *)
(** * File names *)

Lemma find_last_of_from_no_dot (s : string) :
  no_dot s = true -> forall i, find_last_of_from i s "." = None.
Proof.
  induction s as [|c s IH]; intros H i; [reflexivity|].
  unfold no_dot in H. cbn [all_chars] in H. apply andb_true_iff in H. destruct H as [Hc Hs].
  cbn [find_last_of_from]. rewrite (IH Hs). cbn [mem_char].
  apply negb_true_iff in Hc. now rewrite Hc.
Qed.

Lemma find_last_of_from_app (base ext : string) :
  no_dot ext = true ->
  forall i, find_last_of_from i (base ++ String "." ext) "." = Some (i + String.length base)%nat.
Proof.
  intros Hext. induction base as [|c base IH]; intros i.
  - cbn [append find_last_of_from String.length].
    rewrite (find_last_of_from_no_dot ext Hext). cbn. f_equal. lia.
  - cbn [append find_last_of_from String.length]. rewrite IH. f_equal. lia.
Qed.

Lemma c_str_app (a b : string) : c_str a = a -> c_str (a ++ b) = (a ++ c_str b)%string.
Proof.
  induction a as [|c a IH]; intros H; [reflexivity|].
  cbn [c_str append] in *. destruct (Ascii.eqb c NUL); [discriminate|].
  inversion H as [Ha]. rewrite Ha. now rewrite (IH Ha).
Qed.

Lemma c_str_dotted (base ext : string) :
  c_str base = base -> c_str ext = ext ->
  c_str (base ++ "." ++ ext) = (base ++ "." ++ ext)%string.
Proof.
  intros Hb He. rewrite (c_str_app _ _ Hb). f_equal.
  change ("." ++ ext)%string with (String "." ext). cbn [c_str].
  change (Ascii.eqb "." NUL) with false. cbn iota. now rewrite He.
Qed.

Lemma string_length_app (a b : string) :
  String.length (a ++ b) = (String.length a + String.length b)%nat.
Proof. induction a as [|c a IH]; [reflexivity|]. cbn [append String.length]. now rewrite IH. Qed.

Lemma substring_all (s : string) : substring 0 (String.length s) s = s.
Proof. induction s as [|c s IH]; [reflexivity|]. cbn [String.length substring]. now rewrite IH. Qed.

Lemma substring_app_r (a b : string) :
  substring (String.length a) (String.length b) (a ++ b) = b.
Proof.
  induction a as [|c a IH]; [apply substring_all|].
  cbn [String.length append substring]. exact IH.
Qed.

(** What [DetermineInputFileType] finds in a name with an extension: the
    position of the last dot and the text after it. *)
Lemma extension_found (base ext : string) :
  c_str base = base -> c_str ext = ext -> no_dot ext = true ->
  find_last_of (c_str (base ++ "." ++ ext)) "." = Some (String.length base) /\
  substr_from (c_str (base ++ "." ++ ext)) (String.length base + 1) = ext.
Proof.
  intros Hb He Hd. rewrite (c_str_dotted base ext Hb He). split.
  - unfold find_last_of. change ("." ++ ext)%string with (String "." ext).
    now rewrite (find_last_of_from_app base ext Hd).
  - unfold substr_from. rewrite string_length_app.
    change ("." ++ ext)%string with (String "." ext). cbn [String.length].
    replace (String.length base + S (String.length ext) - (String.length base + 1))%nat
      with (String.length ext) by lia.
    replace (base ++ String "." ext)%string with ((base ++ ".") ++ ext)%string
      by (rewrite string_app_assoc; reflexivity).
    replace (String.length base + 1)%nat with (String.length (base ++ "."))
      by (rewrite string_length_app; reflexivity).
    apply substring_app_r.
Qed.

Section Dispatch.

Variable host : endianness.
Variables rVTK rVTI rVTP rVTU : string -> Proc vtkPointData.

Lemma ReadDataSetWriteToOutput_dotted (base ext output : string) (mode : bool) (w : World) :
  c_str base = base -> c_str ext = ext -> no_dot ext = true ->
  Z.of_nat (String.length ext) < CHAR_LENGTH ->
  ReadDataSetWriteToOutput host rVTK rVTI rVTP rVTU (base ++ "." ++ ext) output mode w
  = (InputPointData <- reader_for rVTK rVTI rVTP rVTU ext (base ++ "." ++ ext) ;;
     WriteArraysToOutputFile host InputPointData output mode) w.
Proof.
  intros Hb He Hd Hfit.
  destruct (extension_found base ext Hb He Hd) as [Hdot Hext].
  pose proof (DetermineInputFileType_dotted (base ++ "." ++ ext) (String.length base) w Hdot)
    as Htype.
  cbv zeta in Htype. rewrite Hext in Htype. specialize (Htype Hfit).
  unfold ReadDataSetWriteToOutput. rewrite (bind_returns _ _ _ _ _ Htype).
  unfold reader_for.
  destruct (String.eqb ext "vtk"); [reflexivity|].
  destruct (String.eqb ext "vti"); [reflexivity|].
  destruct (String.eqb ext "VTP"); reflexivity.
Qed.

End Dispatch.

(** A file name without a dot: [No file extension found in the Input
    filename.] on standard error and [exit(1)], before any reader is run;
    nothing else has changed. *)
Theorem no_extension_is_an_error (host : endianness)
    (rVTK rVTI rVTP rVTU : string -> Proc vtkPointData)
    (input output : string) (mode : bool) (w : World) :
  no_dot (c_str input) = true ->
  ReadDataSetWriteToOutput host rVTK rVTI rVTP rVTU input output mode w
  = (Exits 1,
     cerr_append endl (cerr_append "No file extension found in the Input filename." w)).
Proof.
  intros Hd. unfold ReadDataSetWriteToOutput, DetermineInputFileType. cbv zeta.
  unfold find_last_of. rewrite (find_last_of_from_no_dot _ Hd).
  rewrite !bind_assoc, !bind_cerr_put. reflexivity.
Qed.

(** The file name [mesh], with a reader that would succeed. *)
Lemma no_extension_is_an_error_witness :
  ReadDataSetWriteToOutput LittleEndian sample_reader sample_reader sample_reader
    sample_reader "mesh" "out.raw" false fresh_world
  = (Exits 1,
     mkWorld "" ("No file extension found in the Input filename." ++ endl)
             (fun _ => None) (fun _ => true)).
Proof.
  exact (no_extension_is_an_error LittleEndian sample_reader sample_reader sample_reader
           sample_reader "mesh" "out.raw" false fresh_world eq_refl).
Defined.

(** The text after the last dot of the file name selects the reader, and
    the conversion is that reader followed by [WriteArraysToOutputFile]:
    [vtk] the structured points reader, [vti] the image data reader, [VTP]
    the unstructured grid reader and every other extension ([vtp], [vtu],
    [VTU], [VTK], [txt], the empty one) the poly data reader.  The
    comparison is case sensitive and dots before the last one belong to the
    name. *)
Theorem the_extension_selects_the_reader (host : endianness)
    (rVTK rVTI rVTP rVTU : string -> Proc vtkPointData)
    (base ext output : string) (mode : bool) (w : World) :
  c_str base = base -> c_str ext = ext -> no_dot ext = true ->
  Z.of_nat (String.length ext) < CHAR_LENGTH ->
  let input := (base ++ "." ++ ext)%string in
  let reader :=
    if String.eqb ext "vtk" then rVTK
    else if String.eqb ext "vti" then rVTI
    else if String.eqb ext "VTP" then rVTU
    else rVTP in
  ReadDataSetWriteToOutput host rVTK rVTI rVTP rVTU input output mode w
  = (InputPointData <- reader input ;;
     WriteArraysToOutputFile host InputPointData output mode) w.
Proof.
  intros Hb He Hd Hfit. cbv zeta.
  exact (ReadDataSetWriteToOutput_dotted host rVTK rVTI rVTP rVTU base ext output mode w
           Hb He Hd Hfit).
Qed.

(** [grid.v2.vtu] goes to the poly data reader and [grid.VTP] to the
    unstructured grid reader. *)
Lemma the_extension_selects_the_reader_witness :
  ReadDataSetWriteToOutput LittleEndian empty_reader empty_reader sample_reader
    empty_reader "grid.v2.vtu" "out.raw" false fresh_world
  = WriteArraysToOutputFile LittleEndian [Some ArrayA; Some ArrayB] "out.raw" false fresh_world /\
  ReadDataSetWriteToOutput LittleEndian empty_reader empty_reader empty_reader
    sample_reader "grid.VTP" "out.raw" false fresh_world
  = WriteArraysToOutputFile LittleEndian [Some ArrayA; Some ArrayB] "out.raw" false fresh_world.
Proof.
  split.
  - exact (the_extension_selects_the_reader LittleEndian empty_reader empty_reader
             sample_reader empty_reader "grid.v2" "vtu" "out.raw" false fresh_world
             eq_refl eq_refl eq_refl eq_refl).
  - exact (the_extension_selects_the_reader LittleEndian empty_reader empty_reader
             empty_reader sample_reader "grid" "VTP" "out.raw" false fresh_world
             eq_refl eq_refl eq_refl eq_refl).
Defined.

(** An extension of 256 characters or more does not fit the buffer
    [FileExtension]: [strcpy] writes past its end, and the call has no
    defined behaviour. *)
Theorem a_long_extension_overruns_the_buffer (base ext : string) (w : World) :
  c_str base = base -> c_str ext = ext -> no_dot ext = true ->
  CHAR_LENGTH <= Z.of_nat (String.length ext) ->
  DetermineInputFileType (base ++ "." ++ ext) w = (Undefined, w).
Proof.
  intros Hb He Hd Hlong.
  destruct (extension_found base ext Hb He Hd) as [Hdot Hext].
  unfold DetermineInputFileType. cbv zeta. rewrite Hdot, Hext.
  unfold strcpy. rewrite He.
  destruct (Z.of_nat (String.length ext) <? CHAR_LENGTH) eqn:E;
    [apply Z.ltb_lt in E; lia | reflexivity].
Qed.

(** The name [mesh.] followed by 256 zeros. *)
Lemma a_long_extension_overruns_the_buffer_witness :
  DetermineInputFileType ("mesh" ++ "." ++ zeros 256) fresh_world = (Undefined, fresh_world).
Proof.
  apply (a_long_extension_overruns_the_buffer "mesh" (zeros 256) fresh_world);
    [reflexivity | vm_compute; reflexivity | vm_compute; reflexivity | vm_compute; discriminate].
Defined.

Lemma main_runs (host : endianness) (rVTK rVTI rVTP rVTU : string -> Proc vtkPointData)
    (exe input output : string) (flags : list string) (mode : bool) (w : World) :
  mode_of_flags flags = Some mode ->
  main host rVTK rVTI rVTP rVTU (exe :: input :: output :: flags) w
  = (ReadDataSetWriteToOutput host rVTK rVTI rVTP rVTU input output mode ;;
     ret EXIT_SUCCESS) w.
Proof.
  intros Hmode.
  destruct flags as [|flag [|flag' rest]].
  - inversion Hmode. apply main_default. discriminate.
  - cbn [mode_of_flags] in Hmode. destruct (atoi flag) as [v|] eqn:Hv; [|discriminate].
    rewrite (main_flag host rVTK rVTI rVTP rVTU exe input output flag v w Hv).
    destruct v as [|[p|p|]|p]; inversion Hmode; reflexivity.
  - inversion Hmode. apply main_default. discriminate.
Qed.

(** The whole program on a file it is meant for.  When the file name has an
    extension, the reader selected by it yields a valid set, the output file
    can be created and the flag, if there is one, reads as 0 or 1, [main]
    returns 0; the output file holds the output matrix, as text without a
    flag or with the flag 0 and as doubles with the flag 1; every other file
    and standard error are as the reader left them. *)
Theorem main_converts_a_file (host : endianness)
    (rVTK rVTI rVTP rVTU : string -> Proc vtkPointData)
    (exe base ext output : string) (flags : list string) (mode : bool)
    (arrays : list vtkDataArray) (m : Z) (w w1 : World) :
  c_str base = base -> c_str ext = ext -> no_dot ext = true ->
  Z.of_nat (String.length ext) < CHAR_LENGTH ->
  mode_of_flags flags = Some mode ->
  let input := (base ++ "." ++ ext)%string in
  reader_for rVTK rVTI rVTP rVTU ext input w = (Returns (map Some arrays), w1) ->
  valid_set arrays m ->
  creatable w1 (c_str output) = true ->
  exists w',
    main host rVTK rVTI rVTP rVTU (exe :: input :: output :: flags) w = (Returns 0, w') /\
    disk w' (c_str output)
    = Some (if mode
            then binary_of_matrix host (OutputMatrix arrays m)
            else text_of_matrix DECIMAL_PRECISION (OutputMatrix arrays m)) /\
    (forall q, q <> c_str output -> disk w' q = disk w1 q) /\
    cerr w' = cerr w1.
Proof.
  intros Hb He Hd Hfit Hmode input Hread Hvalid Hopen.
  destruct (conversion_valid host arrays m output mode w1 Hvalid Hopen)
    as (w' & Hrun & Hfile & Hothers & Hcerr & _).
  exists w'. split; [|auto].
  rewrite (main_runs host rVTK rVTI rVTP rVTU exe input output flags mode w Hmode).
  unfold bind at 1. subst input.
  rewrite (ReadDataSetWriteToOutput_dotted host rVTK rVTI rVTP rVTU base ext output mode w
             Hb He Hd Hfit).
  rewrite (bind_returns _ _ _ _ _ Hread), Hrun. reflexivity.
Qed.

(** [vtk2raw mesh.vtk out.raw 1] with a reader that yields the arrays A and
    B: the 48 bytes of 1, 2, 5, 3, 4, 6. *)
Lemma main_converts_a_file_witness :
  exists w',
    main LittleEndian sample_reader empty_reader empty_reader empty_reader
      ["vtk2raw"; "mesh.vtk"; "out.raw"; "1"]%string used_world = (Returns 0, w') /\
    disk w' "out.raw"%string
    = Some (flat_map le_bytes [dbl_1; dbl_2; dbl_5; dbl_3; dbl_4; dbl_6]).
Proof.
  destruct (main_converts_a_file LittleEndian sample_reader empty_reader empty_reader
              empty_reader "vtk2raw" "mesh" "vtk" "out.raw" ["1"%string] true
              [ArrayA; ArrayB] 2 used_world used_world
              eq_refl eq_refl eq_refl eq_refl eq_refl eq_refl valid_AB eq_refl)
    as (w' & Hrun & Hfile & _).
  exists w'. split; [exact Hrun | exact Hfile].
Defined.

(* ================================================================== *)
(** * What is printed on standard output *)

Lemma cout_append_append (s t : string) (w : World) :
  cout_append t (cout_append s w) = cout_append (s ++ t) w.
Proof. unfold cout_append. cbn [cout cerr disk creatable]. now rewrite string_app_assoc. Qed.

Lemma cout_append_nil (w : World) : cout_append "" w = w.
Proof. destruct w as [o e d c]. unfold cout_append. cbn [cout cerr disk creatable]. now rewrite string_app_nil_r. Qed.

(** An iteration on an array that is there and agrees with the first on the
    tuple count: the tables grow by a slot and one line is printed. *)
Lemma ScanArray_log (pd : vtkPointData) (pre : list vtkDataArray) (a : vtkDataArray) (w : World) :
  GetArray pd (Z.of_nat (List.length pre)) = Some a ->
  to_uint (NumberOfTuples a) = first_count (pre ++ [a]) ->
  ScanArray pd (Z.of_nat (List.length pre)) (table_of pre) w
  = (Returns (table_of (pre ++ [a])),
     cout_append (array_line (Z.of_nat (List.length pre)) a) w).
Proof.
  intros Hget Hfirst.
  assert (Ht : forall x w0,
             load (map (fun a0 => to_uint (NumberOfTuples a0)) pre ++ [x])
                  (Z.of_nat (List.length pre)) w0 = (Returns x, w0))
    by (intros; apply load_snoc, length_map).
  assert (Hc : forall x w0,
             load (map (fun a0 => to_uint (NumberOfComponents a0)) pre ++ [x])
                  (Z.of_nat (List.length pre)) w0 = (Returns x, w0))
    by (intros; apply load_snoc, length_map).
  assert (Hend : forall w0,
            (n <- load (map (fun a0 => to_uint (NumberOfComponents a0)) pre
                        ++ [to_uint (NumberOfComponents a)]) (Z.of_nat (List.length pre)) ;;
             m <- load (map (fun a0 => to_uint (NumberOfTuples a0)) pre
                        ++ [to_uint (NumberOfTuples a)]) (Z.of_nat (List.length pre)) ;;
             cout_put "Array: " ;; cout_put (decimal (Z.of_nat (List.length pre))) ;;
             cout_put ", NumberOfComponents: " ;; cout_put (decimal n) ;;
             cout_put ", NumberOfTuples: " ;; cout_put (decimal m) ;;
             cout_put ", ArrayName: " ;; cout_put (c_str (Name a)) ;;
             cout_put endl ;;
             ret (mkTable (map Some pre ++ [Some a])
                    (map (fun a0 => to_uint (NumberOfComponents a0)) pre
                     ++ [to_uint (NumberOfComponents a)])
                    (map (fun a0 => to_uint (NumberOfTuples a0)) pre
                     ++ [to_uint (NumberOfTuples a)])
                    (to_uint (ColumnCounter (table_of pre) + n)))) w0
            = (Returns (table_of (pre ++ [a])),
               cout_append (array_line (Z.of_nat (List.length pre)) a) w0)).
  { intros w0.
    rewrite (bind_returns _ _ _ _ _ (Hc _ _)), (bind_returns _ _ _ _ _ (Ht _ _)).
    rewrite !bind_cout_put. unfold ret. rewrite table_of_snoc.
    rewrite !cout_append_append. unfold array_line.
    rewrite ?string_app_assoc. reflexivity. }
  unfold ScanArray. rewrite Hget. cbv zeta.
  rewrite bind_ret_l. cbn [deref]. rewrite bind_ret_l.
  cbn [NumberOfTuplesInEachArray NumberOfComponentsInEachArray InputDataArrays
       ColumnCounter table_of].
  cbn [ColumnCounter table_of] in Hend.
  destruct (0 <? Z.of_nat (List.length pre)) eqn:Epos.
  - rewrite bind_assoc, (bind_returns _ _ _ _ _ (Ht _ _)).
    rewrite bind_assoc, (bind_returns _ _ _ _ _ (load_first_count _ _ _)).
    replace (to_uint (NumberOfTuples a) =? first_count (pre ++ [a])) with true
      by (symmetry; apply Z.eqb_eq; exact Hfirst).
    cbn [negb]. rewrite bind_ret_l. apply Hend.
  - rewrite bind_ret_l. apply Hend.
Qed.

Lemma scan_log (pd : vtkPointData) (mid : list vtkDataArray) :
  forall (pre : list vtkDataArray) (tail : vtkPointData) (w : World),
    pd = map Some (pre ++ mid) ++ tail ->
    counts_agree (pre ++ mid) ->
    for_loop (List.length mid) (Z.of_nat (List.length pre)) (ScanArray pd) (table_of pre) w
    = (Returns (table_of (pre ++ mid)),
       cout_append (array_lines (Z.of_nat (List.length pre)) mid) w).
Proof.
  induction mid as [|a mid IH]; intros pre tail w Hpd Hagree.
  - rewrite app_nil_r. cbn [array_lines]. now rewrite cout_append_nil.
  - assert (Hget : GetArray pd (Z.of_nat (List.length pre)) = Some a).
    { rewrite Hpd, map_app. cbn [map]. rewrite <- app_assoc. cbn [app].
      exact (GetArray_app_tail pre (Some a) (map Some mid ++ tail)). }
    replace (pre ++ a :: mid) with ((pre ++ [a]) ++ mid) in *
      by (rewrite <- app_assoc; reflexivity).
    assert (Heq : to_uint (NumberOfTuples a) = first_count (pre ++ [a])).
    { rewrite <- (first_count_app (pre ++ [a]) mid) by (destruct pre; discriminate).
      unfold counts_agree in Hagree. rewrite Forall_forall in Hagree.
      apply Hagree. apply in_or_app. left. apply in_or_app. right. now left. }
    cbn [List.length for_loop array_lines].
    rewrite (bind_returns _ _ _ _ _ (ScanArray_log pd pre a w Hget Heq)).
    specialize (IH (pre ++ [a]) tail (cout_append (array_line (Z.of_nat (List.length pre)) a) w)
                  Hpd Hagree).
    rewrite length_app in IH. cbn [List.length] in IH.
    replace (Z.of_nat (List.length pre + 1)) with (Z.of_nat (List.length pre) + 1) in IH by lia.
    rewrite IH. now rewrite cout_append_append.
Qed.

Lemma to_uint_add (x y : Z) : to_uint (to_uint x + to_uint y) = to_uint (x + y).
Proof. unfold to_uint. now rewrite <- Zplus_mod. Qed.

(** The column counter, which wraps around as an [unsigned int] at every
    addition, is the sum of the component counts as an [unsigned int]. *)
Lemma ColumnCounter_total (arrays : list vtkDataArray) :
  ColumnCounter (table_of arrays) = to_uint (totalComponents arrays).
Proof.
  cbn [ColumnCounter table_of].
  change 0 with (to_uint 0) at 1.
  replace (totalComponents arrays) with (0 + totalComponents arrays) by lia.
  generalize 0 as c. induction arrays as [|a arrays IH]; intros c.
  - cbn [fold_left totalComponents fold_right]. now rewrite Z.add_0_r.
  - cbn [fold_left]. rewrite to_uint_add, IH. f_equal.
    unfold totalComponents. cbn [fold_right]. lia.
Qed.

(** Standard output of a conversion of a valid set.  The validation loop
    prints one line for each array, the serializer announces itself with
    [Write to binary file.] in the text mode as in the binary mode, and the
    summary gives the number of arrays, the file name, the rows and the
    columns, the last two as [unsigned int]: the tuple count and the sum of
    the component counts modulo 2^32.  The mode does not show. *)
Theorem standard_output_of_a_conversion (host : endianness) (arrays : list vtkDataArray)
    (m : Z) (path : string) (mode : bool) (w : World) :
  valid_set arrays m ->
  creatable w (c_str path) = true ->
  exists w',
    WriteArraysToOutputFile host (map Some arrays) path mode w = (Returns tt, w') /\
    cout w' = (cout w ++ console_log arrays m path)%string.
Proof.
  intros Hvalid Hopen.
  pose proof (valid_counts_agree _ _ Hvalid) as Hagree.
  pose proof (valid_count arrays m Hvalid) as HN. unfold INT_MAX in HN.
  assert (Hrows : forall w0,
             load (map (fun a => to_uint (NumberOfTuples a)) arrays) 0 w0
             = (Returns (to_uint m), w0)).
  { intros w0. apply load_returns; [lia|].
    destruct Hvalid as (Hne & _ & Hall). destruct arrays as [|a0 l]; [congruence|].
    inversion Hall as [|? ? [_ Hm0] _]; subst. reflexivity. }
  unfold WriteArraysToOutputFile. cbv zeta.
  unfold GetNumberOfArrays. rewrite length_map.
  replace (Z.of_nat (List.length arrays) <? 1) with false
    by (symmetry; apply Z.ltb_ge; lia).
  rewrite bind_ret_l. unfold for_upto. rewrite to_uint_small, Nat2Z.id by lia.
  pose proof (scan_log (map Some arrays) arrays [] [] w (eq_sym (app_nil_r _)) Hagree) as Hscan.
  cbn [List.length Z.of_nat app] in Hscan.
  change (mkTable [] [] [] 0) with (table_of []).
  rewrite (bind_returns _ _ _ _ _ Hscan).
  rewrite (bind_returns _ _ _ _ _
             (OpenFile_creatable path mode (cout_append (array_lines 0 arrays) w) Hopen)).
  assert (Hser : forall w1,
            (if negb mode
             then WriteArraysToASCIIFile
                    (mkStream (Some (c_str path)) DECIMAL_PRECISION [])
                    (InputDataArrays (table_of arrays)) (Z.of_nat (List.length arrays))
                    (NumberOfComponentsInEachArray (table_of arrays))
             else WriteArraysToBinaryFile host
                    (mkStream (Some (c_str path)) DECIMAL_PRECISION [])
                    (InputDataArrays (table_of arrays)) (Z.of_nat (List.length arrays))
                    (NumberOfComponentsInEachArray (table_of arrays))) w1
            = (Returns (mkStream (Some (c_str path)) DECIMAL_PRECISION
                          (expected_output host mode arrays m)),
               cout_append endl (cout_append "Write to binary file." w1))).
  { intros w1. cbn [table_of InputDataArrays NumberOfComponentsInEachArray].
    unfold expected_output. destruct mode; cbn [negb].
    - now rewrite (WriteArraysToBinaryFile_valid arrays m Hvalid).
    - now rewrite (WriteArraysToASCIIFile_valid arrays m Hvalid). }
  rewrite (bind_returns _ _ _ _ _ (Hser _)).
  rewrite !bind_cout_put.
  cbn [table_of NumberOfTuplesInEachArray].
  rewrite (bind_returns _ _ _ _ _ (Hrows _)).
  rewrite !bind_cout_put.
  rewrite (ColumnCounter_total arrays).
  unfold bind, stream_close, ret. cbn [file precision written].
  eexists. split; [reflexivity|].
  cbn [cout file_stored cout_append]. unfold console_log.
  rewrite !string_app_assoc. reflexivity.
Qed.

(** The arrays A and B written as text. *)
Lemma standard_output_of_a_conversion_witness :
  exists w',
    WriteArraysToOutputFile LittleEndian [Some ArrayA; Some ArrayB] "out.raw" false fresh_world
    = (Returns tt, w') /\
    cout w'
    = ("Array: 0, NumberOfComponents: 2, NumberOfTuples: 2, ArrayName: A" ++ endl
       ++ "Array: 1, NumberOfComponents: 1, NumberOfTuples: 2, ArrayName: B" ++ endl
       ++ "Write to binary file." ++ endl
       ++ "2 arrays in column-wise order as above were written to: out.raw." ++ endl
       ++ "Rows: 2, Columns: 3." ++ endl)%string.
Proof.
  destruct (standard_output_of_a_conversion LittleEndian [ArrayA; ArrayB] 2 "out.raw" false
              fresh_world valid_AB eq_refl) as (w' & Hrun & Hcout).
  exists w'. split; [exact Hrun | exact Hcout].
Defined.

(* ================================================================== *)
(** * Data sets cut in pieces *)

Lemma Zseq_app (k1 k2 : nat) : forall i,
  Zseq i (k1 + k2) = Zseq i k1 ++ Zseq (i + Z.of_nat k1) k2.
Proof.
  induction k1 as [|k1 IH]; intros i.
  - cbn [Nat.add Zseq app Z.of_nat]. now rewrite Z.add_0_r.
  - cbn [Nat.add Zseq app]. rewrite IH. do 3 f_equal. lia.
Qed.

Lemma Zseq_In (k : nat) : forall i r, In r (Zseq i k) -> i <= r < i + Z.of_nat k.
Proof.
  induction k as [|k IH]; intros i r Hin; [destruct Hin|].
  cbn [Zseq] in Hin. destruct Hin as [<- | Hin]; [lia|]. apply IH in Hin. lia.
Qed.

Lemma Zseq_shift (k : nat) : forall i d, Zseq (d + i) k = map (Z.add d) (Zseq i k).
Proof.
  induction k as [|k IH]; intros i d; [reflexivity|].
  cbn [Zseq map]. f_equal. rewrite <- IH. f_equal. lia.
Qed.

Section Pieces.

Variables m1 m2 : Z.

(** Row [r] of the appended sets is row [r] of the first set, or row
    [r - m1] of the second. *)
Lemma row_values_append_sets (s1 : list vtkDataArray) : forall (s2 : list vtkDataArray) (r : Z),
  Forall (fun a => NumberOfTuples a = m1) s1 ->
  map NumberOfComponents s1 = map NumberOfComponents s2 ->
  row_values (append_sets s1 s2) r
  = if r <? m1 then row_values s1 r else row_values s2 (r - m1).
Proof.
  induction s1 as [|a s1 IH]; intros [|b s2] r Hm Hshape; try discriminate.
  - now destruct (r <? m1).
  - inversion Hm as [|? ? Ha Hs1]; subst. cbn [map] in Hshape.
    inversion Hshape as [[Hn Hrest]].
    cbn [append_sets]. unfold row_values in *. cbn [flat_map].
    rewrite (IH s2 r Hs1 Hrest).
    assert (Ht : tuple_values (append_tuples a b) r
                 = if r <? NumberOfTuples a then tuple_values a r
                   else tuple_values b (r - NumberOfTuples a)).
    { unfold tuple_values. cbn [append_tuples NumberOfComponents Component NumberOfTuples].
      destruct (r <? NumberOfTuples a); [reflexivity | now rewrite Hn]. }
    rewrite Ht. now destruct (r <? NumberOfTuples a).
Qed.

Lemma OutputMatrix_append_sets (s1 s2 : list vtkDataArray) :
  0 <= m1 -> 0 <= m2 ->
  Forall (fun a => NumberOfTuples a = m1) s1 ->
  map NumberOfComponents s1 = map NumberOfComponents s2 ->
  OutputMatrix (append_sets s1 s2) (m1 + m2) = OutputMatrix s1 m1 ++ OutputMatrix s2 m2.
Proof.
  intros H1 H2 Hm Hshape. unfold OutputMatrix.
  rewrite Z2Nat.inj_add, Zseq_app, map_app by lia. f_equal.
  - apply map_ext_in. intros r Hin. apply Zseq_In in Hin.
    rewrite (row_values_append_sets s1 s2 r Hm Hshape).
    replace (r <? m1) with true by (symmetry; apply Z.ltb_lt; lia). reflexivity.
  - rewrite Z2Nat.id by lia. replace (0 + m1) with (m1 + 0) by lia.
    rewrite Zseq_shift, map_map. apply map_ext_in. intros r Hin. apply Zseq_In in Hin.
    rewrite (row_values_append_sets s1 s2 (m1 + r) Hm Hshape).
    replace (m1 + r <? m1) with false by (symmetry; apply Z.ltb_ge; lia).
    f_equal. lia.
Qed.

Lemma valid_append_sets (s1 : list vtkDataArray) : forall s2 : list vtkDataArray,
  valid_set s1 m1 -> valid_set s2 m2 ->
  map NumberOfComponents s1 = map NumberOfComponents s2 ->
  m1 + m2 <= VTK_ID_MAX ->
  valid_set (append_sets s1 s2) (m1 + m2).
Proof.
  intros s2 (Hne1 & Hlen1 & Hall1) (Hne2 & Hlen2 & Hall2) Hshape Hsum.
  assert (Hlen : List.length (append_sets s1 s2) = List.length s1).
  { clear - Hshape. revert s2 Hshape.
    induction s1 as [|a s1 IH]; intros [|b s2] Hshape; try discriminate; [reflexivity|].
    cbn [map] in Hshape. inversion Hshape. cbn [append_sets List.length]. f_equal. auto. }
  repeat split.
  - destruct s1; [congruence|]. destruct s2; [congruence|]. discriminate.
  - now rewrite Hlen.
  - clear Hne1 Hne2 Hlen1 Hlen2 Hlen. revert s2 Hall2 Hshape.
    induction Hall1 as [|a s1 [(Hc & Ht & Hv) Hm] Hall1 IH]; intros [|b s2] Hall2 Hshape;
      try discriminate; [constructor|].
    inversion Hall2 as [|? ? [(Hc' & Ht' & Hv') Hm'] Hs2]; subst.
    cbn [map] in Hshape. inversion Hshape as [[Hn Hrest]].
    cbn [append_sets]. constructor; [|apply IH; assumption].
    unfold well_formed. cbn [append_tuples NumberOfComponents NumberOfTuples Component].
    repeat split; try lia.
    + destruct (i <? NumberOfTuples a); apply Hv || apply Hv'.
    + destruct (i <? NumberOfTuples a); apply Hv || apply Hv'.
Qed.

End Pieces.

Lemma text_of_matrix_app (P : Z) (rows1 rows2 : list (list double)) :
  rows1 <> [] -> rows2 <> [] ->
  text_of_matrix P (rows1 ++ rows2)
  = text_of_matrix P rows1 ++ [LF] ++ text_of_matrix P rows2.
Proof.
  intros H1 H2. unfold text_of_matrix. rewrite map_app.
  apply join_app; intros E; apply map_eq_nil in E; contradiction.
Qed.

Lemma binary_of_matrix_app (host : endianness) (rows1 rows2 : list (list double)) :
  binary_of_matrix host (rows1 ++ rows2)
  = binary_of_matrix host rows1 ++ binary_of_matrix host rows2.
Proof. unfold binary_of_matrix. now rewrite concat_app, flat_map_app. Qed.

Lemma OutputMatrix_nonempty (arrays : list vtkDataArray) (m : Z) :
  0 < m -> OutputMatrix arrays m <> [].
Proof.
  intros Hm E. apply (f_equal (@List.length _)) in E.
  rewrite OutputMatrix_length in E. cbn [List.length] in E. lia.
Qed.

(** A data set cut in two along its tuples.  When two valid sets have the
    same component counts, array by array, the conversion of the set that
    holds the tuples of the first followed by those of the second writes, in
    the binary mode, the bytes of the first conversion followed by the bytes
    of the second, and in the text mode the two texts with one line feed
    between them: every row depends on its tuple only. *)
Theorem conversion_of_appended_sets (host : endianness) (s1 s2 : list vtkDataArray)
    (m1 m2 : Z) (path : string) (mode : bool) (w : World) :
  valid_set s1 m1 -> valid_set s2 m2 ->
  map NumberOfComponents s1 = map NumberOfComponents s2 ->
  0 < m1 -> 0 < m2 -> m1 + m2 <= VTK_ID_MAX ->
  creatable w (c_str path) = true ->
  exists w',
    WriteArraysToOutputFile host (map Some (append_sets s1 s2)) path mode w
    = (Returns tt, w') /\
    disk w' (c_str path)
    = Some (if mode
            then binary_of_matrix host (OutputMatrix s1 m1)
                 ++ binary_of_matrix host (OutputMatrix s2 m2)
            else text_of_matrix DECIMAL_PRECISION (OutputMatrix s1 m1)
                 ++ [LF] ++ text_of_matrix DECIMAL_PRECISION (OutputMatrix s2 m2)).
Proof.
  intros Hv1 Hv2 Hshape Hm1 Hm2 Hsum Hopen.
  pose proof (valid_append_sets m1 m2 s1 s2 Hv1 Hv2 Hshape Hsum) as Hvalid.
  destruct (conversion_valid host _ (m1 + m2) path mode w Hvalid Hopen)
    as (w' & Hrun & Hfile & _).
  exists w'. split; [exact Hrun|]. rewrite Hfile. f_equal.
  unfold expected_output.
  assert (Hm : Forall (fun a => NumberOfTuples a = m1) s1).
  { destruct Hv1 as (_ & _ & Hall). eapply Forall_impl; [|exact Hall].
    cbn beta. intros a [_ Ha]. exact Ha. }
  rewrite (OutputMatrix_append_sets m1 m2 s1 s2 ltac:(lia) ltac:(lia) Hm Hshape).
  destruct mode.
  - apply binary_of_matrix_app.
  - apply text_of_matrix_app; apply OutputMatrix_nonempty; assumption.
Qed.

(** The arrays A and B followed by themselves: four lines. *)
Lemma conversion_of_appended_sets_witness :
  exists w',
    WriteArraysToOutputFile LittleEndian
      (map Some (append_sets [ArrayA; ArrayB] [ArrayA; ArrayB])) "out.raw" false fresh_world
    = (Returns tt, w') /\
    disk w' "out.raw"%string
    = Some [x31; x09; x32; x09; x35; x0a; x33; x09; x34; x09; x36; x0a;
            x31; x09; x32; x09; x35; x0a; x33; x09; x34; x09; x36].
Proof.
  destruct (conversion_of_appended_sets LittleEndian [ArrayA; ArrayB] [ArrayA; ArrayB] 2 2
              "out.raw" false fresh_world valid_AB valid_AB eq_refl
              ltac:(lia) ltac:(lia) ltac:(unfold VTK_ID_MAX; lia) eq_refl)
    as (w' & Hrun & Hfile).
  exists w'. split; [exact Hrun | exact Hfile].
Defined.

(* ================================================================== *)
(** * The byte order of the binary file *)

Lemma swap_doubles_written (vs : list double) :
  swap_doubles (List.length vs) (flat_map (object_bytes LittleEndian) vs)
  = flat_map (object_bytes BigEndian) vs.
Proof.
  induction vs as [|v vs IH]; [reflexivity|].
  pose proof (object_bytes_length LittleEndian v) as Hlen.
  change (swap_doubles (List.length (v :: vs)) (flat_map (object_bytes LittleEndian) (v :: vs)))
    with (rev (firstn 8 (object_bytes LittleEndian v ++ flat_map (object_bytes LittleEndian) vs))
          ++ swap_doubles (List.length vs)
               (skipn 8 (object_bytes LittleEndian v ++ flat_map (object_bytes LittleEndian) vs))).
  rewrite firstn_app, skipn_app, Hlen, Nat.sub_diag.
  rewrite (firstn_all2 (n := 8) (object_bytes LittleEndian v)) by lia.
  rewrite (skipn_all2 (n := 8) (object_bytes LittleEndian v)) by lia.
  rewrite firstn_O, skipn_O, app_nil_r. cbn [app]. rewrite IH. reflexivity.
Qed.

(** The binary file is written in the byte order of the host: the file a
    big-endian host writes for a valid set is the file a little-endian host
    writes with the eight bytes of every double reversed.  Nothing in the
    file tells the two apart. *)
Theorem binary_file_has_the_byte_order_of_the_host (arrays : list vtkDataArray) (m : Z)
    (path : string) (w : World) :
  valid_set arrays m ->
  creatable w (c_str path) = true ->
  exists wl wb little big,
    WriteArraysToOutputFile LittleEndian (map Some arrays) path true w = (Returns tt, wl) /\
    WriteArraysToOutputFile BigEndian (map Some arrays) path true w = (Returns tt, wb) /\
    disk wl (c_str path) = Some little /\
    disk wb (c_str path) = Some big /\
    big = swap_doubles (Z.to_nat (m * totalComponents arrays)) little.
Proof.
  intros Hvalid Hopen.
  destruct (conversion_valid LittleEndian arrays m path true w Hvalid Hopen)
    as (wl & Hrunl & Hfilel & _).
  destruct (conversion_valid BigEndian arrays m path true w Hvalid Hopen)
    as (wb & Hrunb & Hfileb & _).
  exists wl, wb, (expected_output LittleEndian true arrays m),
         (expected_output BigEndian true arrays m).
  repeat split; try assumption.
  pose proof (valid_components_nonneg _ _ Hvalid) as Hnn.
  pose proof (valid_rows arrays m Hvalid) as Hm.
  pose proof (valid_total_positive _ _ Hvalid) as Hn.
  pose proof (concat_rows_length _ _ (OutputMatrix_row_lengths arrays m Hnn)) as Hcat.
  rewrite OutputMatrix_length in Hcat.
  replace (Z.to_nat (m * totalComponents arrays))
    with (List.length (List.concat (OutputMatrix arrays m)))
    by (rewrite Hcat; lia).
  unfold expected_output, binary_of_matrix. symmetry. apply swap_doubles_written.
Qed.

(** The arrays A and B: six doubles. *)
Lemma binary_file_has_the_byte_order_of_the_host_witness :
  exists little big,
    converted LittleEndian [ArrayA; ArrayB] true = Some little /\
    converted BigEndian [ArrayA; ArrayB] true = Some big /\
    big = swap_doubles 6 little.
Proof.
  destruct (binary_file_has_the_byte_order_of_the_host [ArrayA; ArrayB] 2 "out.raw"
              fresh_world valid_AB eq_refl)
    as (wl & wb & little & big & Hrunl & Hrunb & Hl & Hb & Hswap).
  exists little, big. unfold converted.
  change (map Some [ArrayA; ArrayB]) with [Some ArrayA; Some ArrayB] in *.
  rewrite Hrunl, Hrunb. cbn [snd].
  split; [exact Hl|]. split; [exact Hb | exact Hswap].
Defined.

(* ================================================================== *)
(** * What a conversion that returns has done *)

Lemma bind_returns_inv {A B : Type} (m : Proc A) (k : A -> Proc B) (w w' : World) (b : B) :
  bind m k w = (Returns b, w') ->
  exists a w1, m w = (Returns a, w1) /\ k a w1 = (Returns b, w').
Proof.
  unfold bind. destruct (m w) as [[a|s|] w1]; intros H; try discriminate. eauto.
Qed.

Lemma outcome_returns {A : Type} (Pret : World -> World -> Prop)
    (Pexit : Z -> World -> World -> Prop) (p : Proc A) (w w' : World) (a : A) :
  outcome Pret Pexit p -> p w = (Returns a, w') -> Pret w w'.
Proof. intros H E. specialize (H w). now rewrite E in H. Qed.

Lemma file_stream_write (os : ofstream) (data : list byte) :
  file (stream_write os data) = file os.
Proof. unfold stream_write. now destruct (is_open os). Qed.

Section KeepsFile.

Variable f : option string.

Lemma keeps_file_ret (os : ofstream) : file os = f -> keeps_file f (ret os).
Proof. intros H w. split; [exact H | apply only_cout_refl]. Qed.

Lemma keeps_file_bind (m : Proc ofstream) (k : ofstream -> Proc ofstream) :
  keeps_file f m -> (forall os, file os = f -> keeps_file f (k os)) ->
  keeps_file f (bind m k).
Proof.
  intros Hm Hk w. unfold bind. specialize (Hm w).
  destruct (m w) as [[os|s|] w1]; auto. destruct Hm as [Hf Hw].
  specialize (Hk os Hf w1). destruct (k os w1) as [[os'|s|] w2]; auto.
  destruct Hk as [Hf' Hw']. split; [exact Hf' | eapply only_cout_trans; eassumption].
Qed.

Lemma keeps_file_after {A : Type} (m : Proc A) (k : A -> Proc ofstream) :
  outcome only_cout never m -> (forall a, keeps_file f (k a)) ->
  keeps_file f (bind m k).
Proof.
  intros Hm Hk w. unfold bind. specialize (Hm w).
  destruct (m w) as [[a|s|] w1]; auto.
  specialize (Hk a w1). destruct (k a w1) as [[os'|s|] w2]; auto.
  destruct Hk as [Hf' Hw']. split; [exact Hf' | eapply only_cout_trans; eassumption].
Qed.

Lemma keeps_file_for_loop (body : Z -> ofstream -> Proc ofstream) :
  (forall i os, file os = f -> keeps_file f (body i os)) ->
  forall (n : nat) (i : Z) (os : ofstream), file os = f -> keeps_file f (for_loop n i body os).
Proof.
  intros Hbody. induction n as [|n IH]; intros i os Hf; cbn [for_loop].
  - now apply keeps_file_ret.
  - apply keeps_file_bind; [now apply Hbody | intros os' Hf'; now apply IH].
Qed.

End KeepsFile.

Ltac keeps_file_step :=
  cbv beta zeta;
  lazymatch goal with
  | |- keeps_file _ (bind (cout_put _) _) =>
      apply keeps_file_after; [apply quiet_cout_put | intros ?]
  | |- keeps_file _ (bind (load _ _) _) =>
      apply keeps_file_after; [apply quiet_load | intros ?]
  | |- keeps_file _ (bind (deref _) _) =>
      apply keeps_file_after; [apply quiet_deref | intros ?]
  | |- keeps_file _ (bind (GetComponent _ _ _) _) =>
      apply keeps_file_after; [apply quiet_GetComponent | intros ?]
  | |- keeps_file _ (bind (for_upto _ _ _) _) =>
      apply keeps_file_bind; [|intros ? ?]
  | |- keeps_file _ (bind (for_loop _ _ _ _) _) =>
      apply keeps_file_bind; [|intros ? ?]
  | |- keeps_file _ (for_loop _ _ _ _) =>
      apply keeps_file_for_loop; [intros ? ? ?|assumption]
  | |- keeps_file _ (for_upto _ _ _) =>
      unfold for_upto; apply keeps_file_for_loop; [intros ? ? ?|assumption]
  | |- keeps_file _ (if ?c then _ else _) => destruct c
  | |- keeps_file _ (ret _) =>
      apply keeps_file_ret;
      unfold put_endl, put_double, put_string, write_double;
      rewrite ?file_stream_write; assumption
  end.

(** The serializers hand back the stream open on the file it was open on. *)
Lemma WriteArraysToASCIIFile_keeps_file (os : ofstream)
    (arrays : list (option vtkDataArray)) (n : Z) (counts : list Z) :
  keeps_file (file os) (WriteArraysToASCIIFile os arrays n counts).
Proof.
  assert (Hf : file os = file os) by reflexivity. revert Hf.
  generalize (file os) at 2 3 as f. intros f Hf.
  unfold WriteArraysToASCIIFile. repeat keeps_file_step.
Qed.

Lemma WriteArraysToBinaryFile_keeps_file (host : endianness) (os : ofstream)
    (arrays : list (option vtkDataArray)) (n : Z) (counts : list Z) :
  keeps_file (file os) (WriteArraysToBinaryFile host os arrays n counts).
Proof.
  assert (Hf : file os = file os) by reflexivity. revert Hf.
  generalize (file os) at 2 3 as f. intros f Hf.
  unfold WriteArraysToBinaryFile. repeat keeps_file_step.
Qed.

(** Whatever the point data, a call of [WriteArraysToOutputFile] that
    returns has created or replaced the output file and touched no other
    file, and has written nothing to standard error: what it prints goes to
    standard output.  This holds also for the sets that pass the checks
    without being valid. *)
Theorem a_conversion_that_returns_wrote_one_file (host : endianness) (pd : vtkPointData)
    (path : string) (mode : bool) (w w' : World) :
  WriteArraysToOutputFile host pd path mode w = (Returns tt, w') ->
  creatable w (c_str path) = true /\
  (exists data, disk w' (c_str path) = Some data) /\
  (forall q, q <> c_str path -> disk w' q = disk w q) /\
  cerr w' = cerr w.
Proof.
  unfold WriteArraysToOutputFile. cbv zeta. intros Hrun.
  apply bind_returns_inv in Hrun. destruct Hrun as (u & w0 & Hcheck & Hrun).
  assert (Hw0 : w0 = w).
  { destruct (GetNumberOfArrays pd <? 1).
    - rewrite !bind_cerr_put in Hcheck. discriminate.
    - now inversion Hcheck. }
  subst w0.
  apply bind_returns_inv in Hrun. destruct Hrun as (t & w1 & Hscan & Hrun).
  assert (H1 : only_cout w w1).
  { eapply (outcome_returns only_cout (error_exit path)); [|exact Hscan].
    unfold for_upto. apply quiet_for_loop; [apply error_exit_later|].
    intros i t0. apply ScanArray_outcome. }
  destruct H1 as (Hc1 & Hd1 & Hp1).
  apply bind_returns_inv in Hrun. destruct Hrun as (os & w2 & Hopen & Hrun).
  destruct (creatable w1 (c_str path)) eqn:Hcreate;
    [|rewrite (OpenFile_refused path mode w1 Hcreate) in Hopen; discriminate].
  rewrite (OpenFile_creatable path mode w1 Hcreate) in Hopen.
  inversion Hopen; subst os w2. clear Hopen.
  apply bind_returns_inv in Hrun. destruct Hrun as (os' & w3 & Hser & Hrun).
  assert (H3 : file os' = Some (c_str path) /\
               only_cout (file_stored (c_str path) [] w1) w3).
  { destruct (negb mode).
    - pose proof (WriteArraysToASCIIFile_keeps_file
                    (mkStream (Some (c_str path)) DECIMAL_PRECISION [])
                    (InputDataArrays t) (to_uint (GetNumberOfArrays pd))
                    (NumberOfComponentsInEachArray t) (file_stored (c_str path) [] w1)) as H.
      now rewrite Hser in H.
    - pose proof (WriteArraysToBinaryFile_keeps_file host
                    (mkStream (Some (c_str path)) DECIMAL_PRECISION [])
                    (InputDataArrays t) (to_uint (GetNumberOfArrays pd))
                    (NumberOfComponentsInEachArray t) (file_stored (c_str path) [] w1)) as H.
      now rewrite Hser in H. }
  destruct H3 as (Hfile & Hc3 & Hd3 & Hp3).
  rewrite !bind_cout_put in Hrun.
  apply bind_returns_inv in Hrun. destruct Hrun as (rows & w4 & Hrows & Hrun).
  assert (Hw4 : only_cout (cout_append endl
                   (cout_append "."
                      (cout_append (c_str path)
                         (cout_append " arrays in column-wise order as above were written to: "
                            (cout_append (decimal (GetNumberOfArrays pd)) w3))))) w4)
    by (eapply (outcome_returns only_cout never); [apply quiet_load | exact Hrows]).
  destruct Hw4 as (Hc4 & Hd4 & Hp4). cbn [cerr disk creatable cout_append] in Hc4, Hd4, Hp4.
  rewrite !bind_cout_put in Hrun.
  unfold bind, stream_close, ret in Hrun. rewrite Hfile in Hrun.
  inversion Hrun; subst w'. clear Hrun.
  cbn [disk cerr file_stored cout_append]. rewrite Hd4, Hc4, Hd3, Hc3.
  cbn [disk cerr file_stored]. rewrite Hd1, Hc1.
  split; [now rewrite <- Hp1|]. split; [|split; [|reflexivity]].
  - eexists. apply store_file_same.
  - intros q Hq. now rewrite !store_file_other by exact Hq.
Qed.

(** Arrays of no tuple and of 2^32 tuples, which pass the checks: the file
    that was there is replaced and standard error is as it was. *)
Lemma a_conversion_that_returns_wrote_one_file_witness :
  let run := WriteArraysToOutputFile LittleEndian [Some ArrayNone; Some ArrayHuge]
               "out.raw" false used_world in
  fst run = Returns tt /\
  (exists data, disk (snd run) "out.raw"%string = Some data) /\
  cerr (snd run) = cerr used_world.
Proof.
  cbv zeta.
  destruct (WriteArraysToOutputFile LittleEndian [Some ArrayNone; Some ArrayHuge]
              "out.raw" false used_world) as [r w'] eqn:Hrun.
  assert (Hr : r = Returns tt)
    by (apply (f_equal fst) in Hrun; vm_compute in Hrun; congruence).
  subst r.
  destruct (a_conversion_that_returns_wrote_one_file _ _ _ _ _ _ Hrun)
    as (_ & Hfile & _ & Hcerr).
  split; [reflexivity|]. split; [exact Hfile | exact Hcerr].
Defined.

(* ================================================================== *)
(** * What the conversion does not depend on *)

(** The result of [WriteArraysToOutputFile] and the bytes it leaves in the
    output file depend on the point data, the file name and the mode, and on
    whether the file can be opened; they do not depend on what the consoles
    and the files held before.  Two runs in two worlds that agree on the
    last point end the same way (both return, both call [exit] with the same
    status, or both have no defined behaviour), and when they return the
    output file holds the same bytes in both. *)
Theorem the_world_before_does_not_matter (host : endianness) (pd : vtkPointData)
    (path : string) (mode : bool) (w1 w2 : World) :
  creatable w1 (c_str path) = creatable w2 (c_str path) ->
  let run1 := WriteArraysToOutputFile host pd path mode w1 in
  let run2 := WriteArraysToOutputFile host pd path mode w2 in
  fst run1 = fst run2 /\
  (fst run1 = Returns tt ->
   disk (snd run1) (c_str path) = disk (snd run2) (c_str path)).
Proof.
  intros Hacc run1 run2.
  pose proof (alike_WriteArraysToOutputFile host pd path mode w1 w2 Hacc) as H.
  fold run1 run2 in H.
  destruct run1 as [[[] | s1 |] w1'], run2 as [[[] | s2 |] w2']; try contradiction; cbn.
  - destruct H as [_ [_ Hd]]. auto.
  - subst. split; [reflexivity | discriminate].
  - split; [reflexivity | discriminate].
Qed.

(** A first run, and a run where the consoles have been used and the output
    file is there already. *)
Lemma the_world_before_does_not_matter_witness :
  fst (WriteArraysToOutputFile LittleEndian [Some ArrayA; Some ArrayB] "out.raw" false fresh_world)
  = fst (WriteArraysToOutputFile LittleEndian [Some ArrayA; Some ArrayB] "out.raw" false used_world)
  /\
  (fst (WriteArraysToOutputFile LittleEndian [Some ArrayA; Some ArrayB] "out.raw" false fresh_world)
   = Returns tt ->
   disk (snd (WriteArraysToOutputFile LittleEndian [Some ArrayA; Some ArrayB] "out.raw" false
                fresh_world)) "out.raw"%string
   = disk (snd (WriteArraysToOutputFile LittleEndian [Some ArrayA; Some ArrayB] "out.raw" false
                  used_world)) "out.raw"%string).
Proof.
  exact (the_world_before_does_not_matter LittleEndian [Some ArrayA; Some ArrayB] "out.raw"
           false fresh_world used_world eq_refl).
Defined.

(* ================================================================== *)
(** * The type of a file whose extension fits the buffer *)

(** A file name with a dot whose extension is shorter than the 256
    characters of the buffer is always given a type, with nothing printed:
    the branch [No valid input file extension found.] is never taken.  When
    the extension is neither [vtk] nor [vti] the type is VTU for the
    extension [VTP] and VTP for every other extension ([VTU], [vtp], [vtu]
    or any other text). *)
Theorem extension_dispatch_within_the_buffer (InputFilename : string) (FoundLastDot : nat)
    (w : World) :
  find_last_of (c_str InputFilename) "." = Some FoundLastDot ->
  let ext := substr_from (c_str InputFilename) (FoundLastDot + 1) in
  Z.of_nat (String.length ext) < CHAR_LENGTH ->
  (exists type, DetermineInputFileType InputFilename w = (Returns type, w)) /\
  (ext <> "vtk"%string -> ext <> "vti"%string ->
   DetermineInputFileType InputFilename w
   = (Returns (if String.eqb ext "VTP" then VTU else VTP), w)).
Proof.
  intros Hdot ext Hfit.
  pose proof (DetermineInputFileType_dotted InputFilename FoundLastDot w Hdot Hfit) as H.
  fold ext in H. split; [eexists; exact H|].
  intros Hvtk Hvti. apply String.eqb_neq in Hvtk, Hvti.
  now rewrite Hvtk, Hvti in H.
Qed.

(** The names mesh.VTP, mesh.VTU, mesh.vtp and dir.d/mesh.txt. *)
Lemma extension_dispatch_within_the_buffer_witness :
  fst (DetermineInputFileType "mesh.VTP" fresh_world) = Returns VTU /\
  fst (DetermineInputFileType "mesh.VTU" fresh_world) = Returns VTP /\
  fst (DetermineInputFileType "mesh.vtp" fresh_world) = Returns VTP /\
  fst (DetermineInputFileType "dir.d/mesh.txt" fresh_world) = Returns VTP.
Proof.
  split; [|split; [|split]].
  - rewrite (proj2 (extension_dispatch_within_the_buffer "mesh.VTP" 4 fresh_world
                      eq_refl eq_refl) ltac:(discriminate) ltac:(discriminate)). reflexivity.
  - rewrite (proj2 (extension_dispatch_within_the_buffer "mesh.VTU" 4 fresh_world
                      eq_refl eq_refl) ltac:(discriminate) ltac:(discriminate)). reflexivity.
  - rewrite (proj2 (extension_dispatch_within_the_buffer "mesh.vtp" 4 fresh_world
                      eq_refl eq_refl) ltac:(discriminate) ltac:(discriminate)). reflexivity.
  - rewrite (proj2 (extension_dispatch_within_the_buffer "dir.d/mesh.txt" 10 fresh_world
                      eq_refl eq_refl) ltac:(discriminate) ltac:(discriminate)). reflexivity.
Defined.
